(** * Rasterio: window arithmetic, block iteration, indexing, CRS
      parameters and the dataset life cycle

    A shallow embedding of the pure and stateful Python/Cython code of
    [rasterio/_base.pyx] (the [DatasetBase] generation of the sources) and
    of [rasterio/_io.pyx] (the [RasterReader]/[RasterUpdater] generation),
    followed by the properties that the specification states about it. *)

From Stdlib Require Import ZArith List String Ascii Bool Lia.
From Stdlib Require Import DecimalString.
From Stdlib Require Import QArith Qround Qpower Qabs Lqa.
From Stdlib Require Import PrimFloat SpecFloat FloatOps.
Import ListNotations.

Local Open Scope string_scope.
Local Open Scope Z_scope.

(** ** Python values, exceptions and C integers *)

(** The exceptions the modelled code raises, with their messages. *)
Inductive exn : Type :=
| ValueError (msg : string)
| IndexError (msg : string)
| TypeError (msg : string)
| OverflowError (msg : string)
| KeyError (msg : string)
| ZeroDivisionError (msg : string)
| UnboundLocalError (msg : string)
| RasterioIOError (msg : string)
| CPLE_Error (errno : Z) (msg : string).

Inductive result (A : Type) : Type :=
| Ok (a : A)
| Raise (e : exn).
Arguments Ok {A} a.
Arguments Raise {A} e.

Definition rbind {A B : Type} (m : result A) (k : A -> result B) : result B :=
  match m with
  | Ok a => k a
  | Raise e => Raise e
  end.

Declare Scope result_scope.
Delimit Scope result_scope with result.
Notation "'let*' x ':=' m 'in' k" := (rbind m (fun x => k))
  (at level 10, x name, m at level 100, k at level 200) : result_scope.
Local Open Scope result_scope.

(** The Python objects that occur in a window: [None], an integer, or a
    tuple.  The [%d] conversion prints integers in decimal. *)
#[warnings="-register-all"]
Inductive pyobj : Type :=
| PyNone
| PyInt (z : Z)
| PyTuple (items : list pyobj).

Definition fmt_d (z : Z) : string := NilZero.string_of_int (Z.to_int z).

(** Truth value of an object, as used by [x or y]. *)
Definition truthy (o : pyobj) : bool :=
  match o with
  | PyNone => false
  | PyInt z => negb (z =? 0)
  | PyTuple items => match items with [] => false | _ :: _ => true end
  end.

Definition py_or (a b : pyobj) : pyobj := if truthy a then a else b.

(** A [cdef int] is a 32-bit two's complement integer. *)
Definition INT_MIN : Z := - 2 ^ 31.
Definition INT_MAX : Z := 2 ^ 31 - 1.

Definition is_int (z : Z) : Prop := INT_MIN <= z <= INT_MAX.

Definition is_intb (z : Z) : bool := (INT_MIN <=? z) && (z <=? INT_MAX).

Definition wrap_int (z : Z) : Z := (z + 2 ^ 31) mod 2 ^ 32 - 2 ^ 31.

(** [a += b] on C ints. *)
Definition add_int (a b : Z) : Z := wrap_int (a + b).

(** Assignment of a Python object to a [cdef int] variable. *)
Definition as_int (o : pyobj) : result Z :=
  match o with
  | PyInt z =>
      if is_intb z then Ok z
      else Raise (OverflowError "value too large to convert to int")
  | PyNone | PyTuple _ => Raise (TypeError "an integer is required")
  end.

(** ** Window utilities ([_base.pyx])

    A window is a 2D ndarray indexer in the form of a tuple:
    [((row_start, row_stop), (col_start, col_stop))]. *)

Definition mk_window (r0 r1 c0 c1 : pyobj) : pyobj :=
  PyTuple [PyTuple [r0; r1]; PyTuple [c0; c1]].

Definition int_window (r0 r1 c0 c1 : Z) : pyobj :=
  mk_window (PyInt r0) (PyInt r1) (PyInt c0) (PyInt c1).

(** [r, c = window; assert len(r) == 2; assert len(c) == 2], where any
    [ValueError], [TypeError] or [AssertionError] is caught by the caller. *)
Definition unpack_window (window : pyobj)
  : option ((pyobj * pyobj) * (pyobj * pyobj)) :=
  match window with
  | PyTuple [PyTuple [r0; r1]; PyTuple [c0; c1]] => Some ((r0, r1), (c0, c1))
  | _ => None
  end.

(** [(r_start, r_stop), (c_start, c_stop) = window] into four C ints. *)
Definition unpack_int_window (window : pyobj)
  : result ((Z * Z) * (Z * Z)) :=
  match window with
  | PyTuple [PyTuple [r0; r1]; PyTuple [c0; c1]] =>
      let* r_start := as_int r0 in
      let* r_stop := as_int r1 in
      let* c_start := as_int c0 in
      let* c_stop := as_int c1 in
      Ok ((r_start, r_stop), (c_start, c_stop))
  | PyTuple _ => Raise (ValueError "need more than 1 value to unpack")
  | PyNone | PyInt _ => Raise (TypeError "object is not iterable")
  end.

Definition crop_window (window : pyobj) (height width : Z) : result pyobj :=
  let* w := unpack_int_window window in
  let '((r_start, r_stop), (c_start, c_stop)) := w in
  Ok (int_window
        (Z.min (Z.max r_start 0) height) (Z.max 0 (Z.min r_stop height))
        (Z.min (Z.max c_start 0) width) (Z.max 0 (Z.min c_stop width))).

(** One bound of [eval_window]: [v = b or default], then
    [if v < 0: if dim < 0: raise ...; v += dim]. *)
Definition eval_bound (b : pyobj) (default dim : Z) (dim_name : string)
  : result Z :=
  let* v := as_int (py_or b (PyInt default)) in
  if v <? 0 then
    if dim <? 0 then
      Raise (ValueError ("invalid " ++ dim_name ++ ": " ++ fmt_d dim))
    else Ok (add_int v dim)
  else Ok v.

Definition invalid_range (axis : string) (start stop : Z) : exn :=
  ValueError ("invalid window: " ++ axis ++ " range ("
              ++ fmt_d start ++ ", " ++ fmt_d stop ++ ")").

Definition eval_window (window : pyobj) (height width : Z) : result pyobj :=
  match unpack_window window with
  | None =>
      Raise (ValueError
        "invalid window structure; expecting ((row_start, row_stop), (col_start, col_stop))")
  | Some ((r0, r1), (c0, c1)) =>
      let* r_start := eval_bound r0 0 height "height" in
      let* r_stop := eval_bound r1 height height "height" in
      if negb (r_stop >=? r_start) then Raise (invalid_range "row" r_start r_stop)
      else
        let* c_start := eval_bound c0 0 width "width" in
        let* c_stop := eval_bound c1 width width "width" in
        if negb (c_stop >=? c_start) then
          Raise (invalid_range "col" c_start c_stop)
        else Ok (int_window r_start r_stop c_start c_stop)
  end.

(** [window_shape(window, height=-1, width=-1)]. *)
Definition window_shape (window : pyobj) (height width : Z) : result (Z * Z) :=
  let* w := eval_window window height width in
  let* e := unpack_int_window w in
  let '((a, b), (c, d)) := e in
  Ok (b - a, d - c).

(** ** Python string methods used by the CRS code *)

(** [str.isspace] on the ASCII range. *)
Definition is_space (c : ascii) : bool :=
  let n := Z.of_nat (nat_of_ascii c) in
  ((9 <=? n) && (n <=? 13)) || ((28 <=? n) && (n <=? 32)).

(** Pieces of [s] between the characters selected by [sep]; [cur] is the
    piece being read. *)
Fixpoint split_on (sep : ascii -> bool) (s cur : string) : list string :=
  match s with
  | EmptyString => [cur]
  | String c s' =>
      if sep c then cur :: split_on sep s' EmptyString
      else split_on sep s' (cur ++ String c EmptyString)
  end.

Definition nonempty (s : string) : bool :=
  match s with EmptyString => false | String _ _ => true end.

(** [s.split()]: runs of whitespace separate, empty pieces are dropped. *)
Definition split (s : string) : list string :=
  filter nonempty (split_on is_space s EmptyString).

(** [s.split("=")]: every [=] separates. *)
Definition split_eq (s : string) : list string :=
  split_on (Ascii.eqb "="%char) s EmptyString.

(** [s.lstrip("+")]. *)
Fixpoint lstrip_plus (s : string) : string :=
  match s with
  | String c s' => if Ascii.eqb c "+"%char then lstrip_plus s' else s
  | EmptyString => s
  end.

Fixpoint lstrip (s : string) : string :=
  match s with
  | String c s' => if is_space c then lstrip s' else s
  | EmptyString => s
  end.

Fixpoint rstrip (s : string) : string :=
  match s with
  | EmptyString => EmptyString
  | String c s' =>
      match rstrip s' with
      | EmptyString => if is_space c then EmptyString else String c EmptyString
      | t => String c t
      end
  end.

Definition strip (s : string) : string := rstrip (lstrip s).

(** [" ".join(params)]. *)
Fixpoint join_space (l : list string) : string :=
  match l with
  | [] => EmptyString
  | [x] => x
  | x :: rest => (x ++ String " "%char (join_space rest))%string
  end.

(** ** Python floats

    A Python float is an IEEE 754 binary64 number.  A finite float is kept
    as the rational it denotes, and every operation rounds its exact result
    to the nearest float, ties to even.  The two zeros are kept as one:
    no operation below tells them apart. *)

Inductive pyfloat : Type :=
| Finite (q : Q)
| Infinite (negative : bool)
| NaN.

Definition pow2 (k : Z) : Q := Qpower (2 # 1) k.

(** [floor(log2 |q|)] for [q <> 0]. *)
Definition ilog2 (q : Q) : Z :=
  let k := Z.log2 (Z.abs (Qnum q)) - Z.log2 (Zpos (Qden q)) in
  if Qle_bool (pow2 k) (Qabs q) then k else k - 1.

(** The integer nearest to [q], ties to the even one. *)
Definition round_half_even (q : Q) : Z :=
  let f := Qfloor q in
  match (q - inject_Z f ?= 1 # 2)%Q with
  | Lt => f
  | Gt => f + 1
  | Eq => if Z.even f then f else f + 1
  end.

(** Rounding of a real number to binary64: 53 significant bits, exponents
    of the last bit from -1074, overflow to infinity from [2^1024]. *)
Definition round64 (q : Q) : pyfloat :=
  if Qeq_bool q 0 then Finite 0
  else
    let ex := Z.max (ilog2 q - 52) (-1074) in
    let r := Qred (inject_Z (round_half_even (q / pow2 ex)) * pow2 ex) in
    if Qle_bool (pow2 1024) (Qabs r) then Infinite (negb (Qle_bool 0 q))
    else Finite r.

Definition is_neg (q : Q) : bool := negb (Qle_bool 0 q).

Definition fl_neg (x : pyfloat) : pyfloat :=
  match x with
  | Finite q => Finite (- q)
  | Infinite b => Infinite (negb b)
  | NaN => NaN
  end.

Definition fl_add (x y : pyfloat) : pyfloat :=
  match x, y with
  | NaN, _ | _, NaN => NaN
  | Infinite a, Infinite b => if Bool.eqb a b then Infinite a else NaN
  | Infinite a, Finite _ => Infinite a
  | Finite _, Infinite b => Infinite b
  | Finite p, Finite q => round64 (p + q)
  end.

Definition fl_sub (x y : pyfloat) : pyfloat := fl_add x (fl_neg y).

Definition fl_mul (x y : pyfloat) : pyfloat :=
  match x, y with
  | NaN, _ | _, NaN => NaN
  | Infinite a, Infinite b => Infinite (xorb a b)
  | Infinite a, Finite q | Finite q, Infinite a =>
      if Qeq_bool q 0 then NaN else Infinite (xorb a (is_neg q))
  | Finite p, Finite q => round64 (p * q)
  end.

(** [x / y]: Python raises for a zero divisor, whatever [x] is. *)
Definition fl_div (x y : pyfloat) : result pyfloat :=
  match y with
  | Finite q =>
      if Qeq_bool q 0 then Raise (ZeroDivisionError "float division by zero")
      else
        match x with
        | Finite p => Ok (round64 (p / q))
        | Infinite a => Ok (Infinite (xorb a (is_neg q)))
        | NaN => Ok NaN
        end
  | Infinite _ =>
      match x with
      | Finite _ => Ok (Finite 0)
      | Infinite _ | NaN => Ok NaN
      end
  | NaN => Ok NaN
  end.

(** [int(math.floor(x))] and [int(math.ceil(x))]. *)
Definition math_floor (x : pyfloat) : result Z :=
  match x with
  | Finite q => Ok (Qfloor q)
  | Infinite _ =>
      Raise (OverflowError "cannot convert float infinity to integer")
  | NaN => Raise (ValueError "cannot convert float NaN to integer")
  end.

Definition math_ceil (x : pyfloat) : result Z :=
  match x with
  | Finite q => Ok (Qceiling q)
  | Infinite _ =>
      Raise (OverflowError "cannot convert float infinity to integer")
  | NaN => Raise (ValueError "cannot convert float NaN to integer")
  end.

(** The float that an integer becomes in arithmetic with a float. *)
Definition float_of_int (z : Z) : result pyfloat :=
  match round64 (inject_Z z) with
  | Infinite _ => Raise (OverflowError "int too large to convert to float")
  | f => Ok f
  end.

(** [10.0 ** k] for an integer [k].  The power function of the C library
    is taken to round correctly; Python raises when it overflows. *)
Definition pow10 (k : Z) : result pyfloat :=
  match round64 (Qpower (10 # 1) k) with
  | Infinite _ => Raise (OverflowError "(34, 'Numerical result out of range')")
  | f => Ok f
  end.

(** The value of a float of the machine, to compare the operations above
    with the arithmetic of the processor. *)
Definition float_value (f : float) : pyfloat :=
  match Prim2SF f with
  | S754_zero _ => Finite 0
  | S754_infinity s => Infinite s
  | S754_nan => NaN
  | S754_finite s m e =>
      Finite (Qred (inject_Z (if s then Z.neg m else Z.pos m) * pow2 e))
  end.

(** ** Numbers read from PROJ.4 parameter strings *)

Definition digit_of (c : ascii) : option Z :=
  let n := Z.of_nat (nat_of_ascii c) in
  if (48 <=? n) && (n <=? 57) then Some (n - 48) else None.

(** Reads a run of decimal digits: the number read after [acc], how many
    digits were read after [n], and the rest of the string. *)
Fixpoint read_digits (s : string) (acc n : Z) : Z * Z * string :=
  match s with
  | EmptyString => (acc, n, s)
  | String c s' =>
      match digit_of c with
      | Some d => read_digits s' (10 * acc + d) (n + 1)
      | None => (acc, n, s)
      end
  end.

Definition lower_char (c : ascii) : ascii :=
  let n := nat_of_ascii c in
  if (Nat.leb 65 n && Nat.leb n 90)%bool then ascii_of_nat (n + 32) else c.

Fixpoint lower (s : string) : string :=
  match s with
  | EmptyString => EmptyString
  | String c s' => String (lower_char c) (lower s')
  end.

Definition read_sign (s : string) : bool * string :=
  match s with
  | String c s' =>
      if Ascii.eqb c "-"%char then (true, s')
      else if Ascii.eqb c "+"%char then (false, s')
      else (false, s)
  | EmptyString => (false, s)
  end.

(** The float nearest to [m * 10^e], with its sign. *)
Definition decimal (negative : bool) (m e : Z) : pyfloat :=
  round64 (inject_Z (if negative then - m else m) * Qpower (10 # 1) e).

(** [float(s)] for a string: [None] stands for [ValueError].  Accepted are
    an optional sign followed by [inf], [infinity] or [nan] in any case, or
    by a decimal numeral with optional fraction and exponent. *)
Definition float_of_string (s : string) : option pyfloat :=
  let '(neg, body) := read_sign (strip s) in
  let lb := lower body in
  if (String.eqb lb "inf" || String.eqb lb "infinity")%bool then
    Some (Infinite neg)
  else if String.eqb lb "nan" then Some NaN
  else
    let '(ip, n1, r1) := read_digits body 0 0 in
    let '(m, n2, r2) :=
      match r1 with
      | String c r =>
          if Ascii.eqb c "."%char then read_digits r ip 0 else (ip, 0, r1)
      | EmptyString => (ip, 0, r1)
      end in
    if n1 + n2 =? 0 then None
    else
      match r2 with
      | EmptyString => Some (decimal neg m (- n2))
      | String c r3 =>
          if (Ascii.eqb c "e"%char || Ascii.eqb c "E"%char)%bool then
            let '(eneg, r4) := read_sign r3 in
            let '(ev, n3, r5) := read_digits r4 0 0 in
            if n3 =? 0 then None
            else
              match r5 with
              | EmptyString =>
                  Some (decimal neg m ((if eneg then - ev else ev) - n2))
              | String _ _ => None
              end
          else None
      end.

(** [v % 1 == 0] *)
Definition is_whole (v : pyfloat) : bool :=
  match v with
  | Finite q => Qeq_bool (inject_Z (Qfloor q)) q
  | Infinite _ | NaN => false
  end.

(** [int(v)] for a float that passed [v % 1 == 0]. *)
Definition int_of_float (v : pyfloat) : Z :=
  match v with
  | Finite q => Qfloor q
  | Infinite _ | NaN => 0
  end.

(** ** CRS mappings

    A CRS is a dict from parameter names to strings, numbers or booleans.
    Iteration follows insertion order, so the dict is kept as an
    association list with at most one entry per key. *)

Inductive crs_value : Type :=
| CStr (s : string)
| CInt (z : Z)
| CFloat (f : pyfloat)
| CBool (b : bool).

Definition crs : Type := list (string * crs_value).

(** [d[k] = v] *)
Fixpoint dict_set (d : crs) (k : string) (v : crs_value) : crs :=
  match d with
  | [] => [(k, v)]
  | (k', v') :: rest =>
      if String.eqb k' k then (k', v) :: rest
      else (k', v') :: dict_set rest k v
  end.

Fixpoint dict_get (d : crs) (k : string) : option crs_value :=
  match d with
  | [] => None
  | (k', v') :: rest => if String.eqb k' k then Some v' else dict_get rest k
  end.

(** The body of the loop [for param in value.split()] of [read_crs]. *)
Definition parse_param (param : string) : result (string * crs_value) :=
  match split_eq param with
  | [k; v] =>
      let v' :=
        match float_of_string v with
        | Some f => if is_whole f then CInt (int_of_float f) else CFloat f
        | None => CStr v
        end in
      Ok (lstrip_plus k, v')
  | [k] => Ok (lstrip_plus k, CBool true)
  | _ => Raise (ValueError ("Unexpected proj parameter " ++ param))
  end.

Fixpoint parse_params (params : list string) (c : crs) : result crs :=
  match params with
  | [] => Ok c
  | param :: rest =>
      let* kv := parse_param param in
      parse_params rest (dict_set c (fst kv) (snd kv))
  end.

(** [value = value.strip(); for param in value.split(): ...], started on
    the mapping [c]. *)
Definition parse_proj4 (value : string) (c : crs) : result crs :=
  parse_params (split (strip value)) c.

Section Proj4Strings.

(** [str(v)] of a float is fixed by the interpreter; it is a parameter of
    the formatting code. *)
Variable str_of_float : pyfloat -> string.

(** The [%s] conversion of a parameter value. *)
Definition fmt_s (v : crs_value) : string :=
  match v with
  | CStr s => s
  | CInt z => fmt_d z
  | CFloat f => str_of_float f
  | CBool true => "True"
  | CBool false => "False"
  end.

Definition value_truthy (v : crs_value) : bool :=
  match v with
  | CStr s => nonempty s
  | CInt z => negb (z =? 0)
  | CFloat (Finite q) => negb (Qeq_bool q 0)
  | CFloat _ => true
  | CBool b => b
  end.

Definition is_True (v : crs_value) : bool :=
  match v with CBool true => true | _ => false end.

(** The string [proj] assembled by [RasterUpdater.write_crs]. *)
Definition write_crs_proj4 (c : crs) : string :=
  join_space
    (map (fun kv : string * crs_value =>
            let (k, v) := kv in
            if (is_True v || (String.eqb k "no_defs" && value_truthy v))%bool
            then "+" ++ k
            else "+" ++ k ++ "=" ++ fmt_s v)
         c).

(** The string [proj] assembled by [_osr_from_crs] for a mapping without
    an [init] item, after [crs['wktext'] = True]. *)
Definition osr_from_crs_proj4 (c : crs) : string :=
  join_space
    (map (fun kv : string * crs_value =>
            let (k, v) := kv in
            if (is_True v
                || ((String.eqb k "no_defs" || String.eqb k "wktext")
                    && value_truthy v))%bool
            then "+" ++ k
            else "+" ++ k ++ "=" ++ fmt_s v)
         (dict_set c "wktext" (CBool true))).

End Proj4Strings.

Definition longlat_crs : crs :=
  [("proj", CStr "longlat"); ("datum", CStr "WGS84"); ("no_defs", CBool true)].

(** ** Coordinate indexing ([_base.pyx])

    World coordinates are Python floats.  The coefficients of a transform
    are finite floats, kept as the rationals they denote; the arithmetic on
    them is the float arithmetic above. *)

(** [affine.Affine(a, b, c, d, e, f)]: [x = a*col + b*row + c],
    [y = d*col + e*row + f]; as a sequence its items 0..5 are
    [a, b, c, d, e, f]. *)
Record Affine : Type := mkAffine {
  aff_a : Q; aff_b : Q; aff_c : Q; aff_d : Q; aff_e : Q; aff_f : Q
}.

(** [affine * (vx, vy)] of the [affine] package:
    [(vx*sa + vy*sb + sc, vx*sd + vy*se + sf)]. *)
Definition affine_apply (t : Affine) (vx vy : pyfloat) : pyfloat * pyfloat :=
  (fl_add (fl_add (fl_mul vx (Finite (aff_a t))) (fl_mul vy (Finite (aff_b t))))
          (Finite (aff_c t)),
   fl_add (fl_add (fl_mul vx (Finite (aff_d t))) (fl_mul vy (Finite (aff_e t))))
          (Finite (aff_f t))).

(** The same for a pair of Python integers, which become floats in the
    products. *)
Definition apply_to_ints (t : Affine) (vx vy : Z)
  : result (pyfloat * pyfloat) :=
  let* fx := float_of_int vx in
  let* fy := float_of_int vy in
  Ok (affine_apply t fx fy).

(** [10.0 ** -precision * (1.0 - 2.0 * op(0.1))] *)
Definition index_eps (op : pyfloat -> result Z) (precision : Z)
  : result pyfloat :=
  let* p := pow10 (- precision) in
  let* o := op (round64 (1 # 10)) in
  let* fo := float_of_int o in
  Ok (fl_mul p (fl_sub (Finite 1) (fl_mul (Finite 2) fo))).

Definition get_index (x y : pyfloat) (affine : Affine)
    (op : pyfloat -> result Z) (precision : Z) : result (Z * Z) :=
  let* eps := index_eps op precision in
  let* r := fl_div (fl_sub (fl_sub y eps) (Finite (aff_f affine)))
                   (Finite (aff_e affine)) in
  let* row := op r in
  let* c := fl_div (fl_sub (fl_add x eps) (Finite (aff_c affine)))
                   (Finite (aff_a affine)) in
  let* col := op c in
  Ok (row, col).

Definition get_window (left bottom right top : pyfloat) (affine : Affine)
    (precision : Z) : result pyobj :=
  let* window_start := get_index left top affine math_floor precision in
  let* window_stop := get_index right bottom affine math_ceil precision in
  Ok (int_window (fst window_start) (fst window_stop)
                 (snd window_start) (snd window_stop)).

(** [((row_min, row_max), (col_min, col_max)) = window] on Python
    integers. *)
Definition unpack_py_window (window : pyobj) : result ((Z * Z) * (Z * Z)) :=
  match window with
  | PyTuple [PyTuple [PyInt r0; PyInt r1]; PyTuple [PyInt c0; PyInt c1]] =>
      Ok ((r0, r1), (c0, c1))
  | PyTuple [PyTuple [_; _]; PyTuple [_; _]] =>
      Raise (TypeError "unsupported operand type(s) for *")
  | PyTuple _ => Raise (ValueError "need more than 1 value to unpack")
  | PyNone | PyInt _ => Raise (TypeError "object is not iterable")
  end.

(** The body of [DatasetBase.window_bounds] for the dataset transform
    [affine]: [(x_min, y_min, x_max, y_max)]. *)
Definition window_bounds_of (affine : Affine) (window : pyobj)
  : result (pyfloat * pyfloat * pyfloat * pyfloat) :=
  let* w := unpack_py_window window in
  let '((row_min, row_max), (col_min, col_max)) := w in
  let* lower := apply_to_ints affine col_min row_max in
  let* upper := apply_to_ints affine col_max row_min in
  Ok (fst lower, snd lower, fst upper, snd upper).

(** An attribute that holds an integer or [None]. *)
Definition attr_obj (o : option Z) : pyobj :=
  match o with Some z => PyInt z | None => PyNone end.

(** The offsets and sizes that [DatasetBase.checksum] derives from a
    window: [eval_window], then [crop_window], then
    [xoff = window[1][0]; width = window[1][1] - xoff] and the same for the
    rows, each assigned to a C int. *)
Definition checksum_extent (window : pyobj) (height width : Z)
  : result (Z * Z * Z * Z) :=
  let* window := eval_window window height width in
  let* window := crop_window window height width in
  let* w := unpack_py_window window in
  let '((r0, r1), (c0, c1)) := w in
  let* xoff := as_int (PyInt c0) in
  let* width' := as_int (PyInt (c1 - xoff)) in
  let* yoff := as_int (PyInt r0) in
  let* height' := as_int (PyInt (r1 - yoff)) in
  Ok (xoff, yoff, width', height').

(** ** A state and exception monad for methods

    A method runs on the state of the object and returns a value or raises;
    what it assigned before raising stays assigned. *)

Definition M (S A : Type) : Type := S -> result A * S.

Definition ret {S A : Type} (a : A) : M S A := fun s => (Ok a, s).

Definition raise {S A : Type} (e : exn) : M S A := fun s => (Raise e, s).

Definition lift {S A : Type} (r : result A) : M S A := fun s => (r, s).

Definition bind {S A B : Type} (m : M S A) (k : A -> M S B) : M S B :=
  fun s =>
    match m s with
    | (Ok a, s') => k a s'
    | (Raise e, s') => (Raise e, s')
    end.

Definition get {S : Type} : M S S := fun s => (Ok s, s).

Definition modify {S : Type} (f : S -> S) : M S unit := fun s => (Ok tt, f s).

Declare Scope method_scope.
Delimit Scope method_scope with method.
Notation "x <- m ;; k" := (bind m (fun x => k))
  (at level 100, m at next level, right associativity) : method_scope.
Notation "m ;;; k" := (bind m (fun _ => k))
  (at level 100, right associativity) : method_scope.

(** [for x in l: body(x)] *)
Fixpoint for_each {S A : Type} (l : list A) (body : A -> M S unit) : M S unit :=
  match l with
  | [] => ret tt
  | x :: rest => bind (body x) (fun _ => for_each rest body)
  end.

(** [range(n)] *)
Definition range (n : Z) : list Z := map Z.of_nat (seq 0 (Z.to_nat n)).

(** [l[i]] for [i >= 0]. *)
Definition list_item {A : Type} (l : list A) (i : Z) : result A :=
  match (if i <? 0 then None else nth_error l (Z.to_nat i)) with
  | Some x => Ok x
  | None => Raise (IndexError "index out of range")
  end.

(** [divmod(a, b)] on integers. *)
Definition divmod (a b : Z) : result (Z * Z) :=
  if b =? 0 then Raise (ZeroDivisionError "integer division or modulo by zero")
  else Ok (a / b, a mod b).

(** ** Band data types ([rasterio.dtypes]) *)

Inductive dtype : Type :=
| ubyte | uint16 | int16 | uint32 | int32 | float32 | float64
| other_dtype (name : string).

Definition dtype_eqb (a b : dtype) : bool :=
  match a, b with
  | ubyte, ubyte | uint16, uint16 | int16, int16 | uint32, uint32
  | int32, int32 | float32, float32 | float64, float64 => true
  | other_dtype x, other_dtype y => String.eqb x y
  | _, _ => false
  end.

(** ** The native raster engine (GDAL)

    What the engine answers for an opened dataset. *)

Record gdal_band : Type := mkBand {
  band_datatype : Z;              (* GDALGetRasterDataType *)
  band_blocksize : Z * Z;         (* GDALGetBlockSize: xsize, ysize *)
  band_nodata : Q * Z;            (* GDALGetRasterNoDataValue: value, success *)
  band_pixels : list (list Q)
}.

Record gdal_dataset : Type := mkDataset {
  ds_driver : string;             (* short name of the dataset driver *)
  ds_xsize : Z;
  ds_ysize : Z;
  ds_bands : list gdal_band;
  ds_geotransform : list Q;       (* the six doubles of GDALGetGeoTransform *)
  ds_projection : option string   (* GDALGetProjectionRef, None for NULL *)
}.

Definition GDALGetRasterCount (ds : gdal_dataset) : Z :=
  Z.of_nat (List.length (ds_bands ds)).

Definition CPLE_OpenFailed : Z := 4.
Definition CPLE_IllegalArg : Z := 5.
Definition CPLE_ObjectNull : Z := 10.

(** [GDALGetRasterBand(hds, bidx)]: the band, or NULL together with the
    error the engine reports. *)
Definition GDALGetRasterBand (hds : option gdal_dataset) (bidx : Z)
  : option gdal_band * option (Z * string) :=
  match hds with
  | None => (None, Some (CPLE_ObjectNull, "Pointer 'hDS' is NULL in 'GDALGetRasterBand'."))
  | Some ds =>
      match (if bidx <? 1 then None else nth_error (ds_bands ds) (Z.to_nat (bidx - 1))) with
      | Some b => (Some b, None)
      | None => (None, Some (CPLE_IllegalArg, "Illegal band #" ++ fmt_d bidx))
      end
  end.

(** ** The dataset base class ([_base.pyx]) *)

Module Base.

Record DatasetBase : Type := mkDatasetBase {
  name : string;
  mode : string;
  _hds : option gdal_dataset;
  _count : Z;
  _closed : bool;
  _dtypes : list dtype;
  _block_shapes : option (list (Z * Z));
  _nodatavals : list (option Q);
  _crs : option crs;
  _read : bool;
  _transform : option (list Q);
  driver : option string;
  width : option Z;
  height : option Z;
  shape : option (Z * Z)
}.

Definition set__hds (v : option gdal_dataset) (self : DatasetBase) : DatasetBase :=
  {| name := name self; mode := mode self; _hds := v; _count := _count self;
     _closed := _closed self; _dtypes := _dtypes self; _block_shapes :=
     _block_shapes self; _nodatavals := _nodatavals self; _crs := _crs self;
     _read := _read self; _transform := _transform self; driver := driver
     self; width := width self; height := height self; shape := shape self |}.

Definition set__count (v : Z) (self : DatasetBase) : DatasetBase :=
  {| name := name self; mode := mode self; _hds := _hds self; _count := v;
     _closed := _closed self; _dtypes := _dtypes self; _block_shapes :=
     _block_shapes self; _nodatavals := _nodatavals self; _crs := _crs self;
     _read := _read self; _transform := _transform self; driver := driver
     self; width := width self; height := height self; shape := shape self |}.

Definition set__closed (v : bool) (self : DatasetBase) : DatasetBase :=
  {| name := name self; mode := mode self; _hds := _hds self; _count :=
     _count self; _closed := v; _dtypes := _dtypes self; _block_shapes :=
     _block_shapes self; _nodatavals := _nodatavals self; _crs := _crs self;
     _read := _read self; _transform := _transform self; driver := driver
     self; width := width self; height := height self; shape := shape self |}.

Definition set__dtypes (v : list dtype) (self : DatasetBase) : DatasetBase :=
  {| name := name self; mode := mode self; _hds := _hds self; _count :=
     _count self; _closed := _closed self; _dtypes := v; _block_shapes :=
     _block_shapes self; _nodatavals := _nodatavals self; _crs := _crs self;
     _read := _read self; _transform := _transform self; driver := driver
     self; width := width self; height := height self; shape := shape self |}.

Definition set__block_shapes (v : option (list (Z * Z))) (self : DatasetBase) : DatasetBase :=
  {| name := name self; mode := mode self; _hds := _hds self; _count :=
     _count self; _closed := _closed self; _dtypes := _dtypes self;
     _block_shapes := v; _nodatavals := _nodatavals self; _crs := _crs self;
     _read := _read self; _transform := _transform self; driver := driver
     self; width := width self; height := height self; shape := shape self |}.

Definition set__nodatavals (v : list (option Q)) (self : DatasetBase) : DatasetBase :=
  {| name := name self; mode := mode self; _hds := _hds self; _count :=
     _count self; _closed := _closed self; _dtypes := _dtypes self;
     _block_shapes := _block_shapes self; _nodatavals := v; _crs := _crs
     self; _read := _read self; _transform := _transform self; driver :=
     driver self; width := width self; height := height self; shape := shape
     self |}.

Definition set__crs (v : option crs) (self : DatasetBase) : DatasetBase :=
  {| name := name self; mode := mode self; _hds := _hds self; _count :=
     _count self; _closed := _closed self; _dtypes := _dtypes self;
     _block_shapes := _block_shapes self; _nodatavals := _nodatavals self;
     _crs := v; _read := _read self; _transform := _transform self; driver :=
     driver self; width := width self; height := height self; shape := shape
     self |}.

Definition set__read (v : bool) (self : DatasetBase) : DatasetBase :=
  {| name := name self; mode := mode self; _hds := _hds self; _count :=
     _count self; _closed := _closed self; _dtypes := _dtypes self;
     _block_shapes := _block_shapes self; _nodatavals := _nodatavals self;
     _crs := _crs self; _read := v; _transform := _transform self; driver :=
     driver self; width := width self; height := height self; shape := shape
     self |}.

Definition set__transform (v : option (list Q)) (self : DatasetBase) : DatasetBase :=
  {| name := name self; mode := mode self; _hds := _hds self; _count :=
     _count self; _closed := _closed self; _dtypes := _dtypes self;
     _block_shapes := _block_shapes self; _nodatavals := _nodatavals self;
     _crs := _crs self; _read := _read self; _transform := v; driver :=
     driver self; width := width self; height := height self; shape := shape
     self |}.

Definition set_driver (v : option string) (self : DatasetBase) : DatasetBase :=
  {| name := name self; mode := mode self; _hds := _hds self; _count :=
     _count self; _closed := _closed self; _dtypes := _dtypes self;
     _block_shapes := _block_shapes self; _nodatavals := _nodatavals self;
     _crs := _crs self; _read := _read self; _transform := _transform self;
     driver := v; width := width self; height := height self; shape := shape
     self |}.

Definition set_width (v : option Z) (self : DatasetBase) : DatasetBase :=
  {| name := name self; mode := mode self; _hds := _hds self; _count :=
     _count self; _closed := _closed self; _dtypes := _dtypes self;
     _block_shapes := _block_shapes self; _nodatavals := _nodatavals self;
     _crs := _crs self; _read := _read self; _transform := _transform self;
     driver := driver self; width := v; height := height self; shape := shape
     self |}.

Definition set_height (v : option Z) (self : DatasetBase) : DatasetBase :=
  {| name := name self; mode := mode self; _hds := _hds self; _count :=
     _count self; _closed := _closed self; _dtypes := _dtypes self;
     _block_shapes := _block_shapes self; _nodatavals := _nodatavals self;
     _crs := _crs self; _read := _read self; _transform := _transform self;
     driver := driver self; width := width self; height := v; shape := shape
     self |}.

Definition set_shape (v : option (Z * Z)) (self : DatasetBase) : DatasetBase :=
  {| name := name self; mode := mode self; _hds := _hds self; _count :=
     _count self; _closed := _closed self; _dtypes := _dtypes self;
     _block_shapes := _block_shapes self; _nodatavals := _nodatavals self;
     _crs := _crs self; _read := _read self; _transform := _transform self;
     driver := driver self; width := width self; height := height self; shape
     := v |}.


(** [DatasetBase.__init__(path)]; attributes that are declared but not
    assigned start as [None]. *)
Definition init (path : string) : DatasetBase :=
  {| name := path; mode := "r"; _hds := None; _count := 0; _closed := true;
     _dtypes := []; _block_shapes := None; _nodatavals := []; _crs := None;
     _read := false; _transform := None; driver := None; width := None;
     height := None; shape := None |}.

Definition from_gdal (t : option (list Q)) : result Affine :=
  match t with
  | Some [c; a; b; f; d; e] => Ok (mkAffine a b c d e f)
  | _ => Raise (TypeError "from_gdal() takes exactly 6 arguments")
  end.

Definition to_gdal (t : Affine) : list Q :=
  [aff_c t; aff_a t; aff_b t; aff_f t; aff_d t; aff_e t].

(** The dict built by [meta]. *)
Record meta_dict : Type := mkMeta {
  meta_driver : option string;
  meta_dtype : dtype;
  meta_nodata : option Q;
  meta_width : option Z;
  meta_height : option Z;
  meta_count : Z;
  meta_crs : option crs;
  meta_transform : list Q;
  meta_affine : Affine
}.

Definition is_nil {A : Type} (l : list A) : bool :=
  match l with [] => true | _ :: _ => false end.

(** [len(set(block_shapes)) > 1] *)
Definition inhomogeneous (block_shapes : list (Z * Z)) : bool :=
  match block_shapes with
  | [] => false
  | (h, w) :: rest =>
      existsb (fun s => negb ((fst s =? h) && (snd s =? w))) rest
  end.

Local Open Scope method_scope.

Section Methods.

(** The tables [dtype_fwd] and [dtype_ranges] of [rasterio.dtypes],
    path resolution ([parse_path] followed by [vsi_path]) and the
    services of the native engine are given from outside this file. *)
Variable dtype_fwd : Z -> option dtype.
Variable dtype_ranges : dtype -> option (Q * Q).
Variable vsi_path : string -> string.
Variable GDALOpen : string -> gdal_dataset + (Z * string).
Variable OGRSpatialReferenceH : Type.
Variable OSRNewSpatialReference : string -> option OGRSpatialReferenceH.
Variable OSRAutoIdentifyEPSG : OGRSpatialReferenceH -> Z.
Variable OSRGetAuthorityCode : OGRSpatialReferenceH -> string.
Variable OSRExportToProj4 : OGRSpatialReferenceH -> option string.

Definition dtype_fwd_item (code : Z) : result dtype :=
  match dtype_fwd code with
  | Some d => Ok d
  | None => Raise (KeyError (fmt_d code))
  end.

Definition dtype_ranges_item (d : dtype) : result (Q * Q) :=
  match dtype_ranges d with
  | Some r => Ok r
  | None => Raise (KeyError "dtype")
  end.

Definition band (bidx : Z) : M DatasetBase gdal_band :=
  self <- get ;;
  match GDALGetRasterBand (_hds self) bidx with
  | (_, Some (errno, msg)) =>
      if errno =? CPLE_IllegalArg then raise (IndexError msg)
      else raise (CPLE_Error errno msg)
  | (None, None) => raise (ValueError "NULL band")
  | (Some b, None) => ret b
  end.

Definition read_crs : M DatasetBase crs :=
  self <- get ;;
  match _hds self with
  | None => raise (ValueError "Null dataset")
  | Some ds =>
      match ds_projection ds with
      | None => raise (ValueError "Unexpected NULL spatial reference")
      | Some wkt =>
          if 0 <? Z.of_nat (String.length wkt) then
            match OSRNewSpatialReference wkt with
            | None => raise (ValueError "Unexpected NULL spatial reference")
            | Some osr =>
                if OSRAutoIdentifyEPSG osr =? 0 then
                  ret (dict_set [] "init"
                         (CStr ("epsg:" ++ OSRGetAuthorityCode osr)))
                else
                  match OSRExportToProj4 osr with
                  | None =>
                      raise (ValueError "Unexpected Null spatial reference")
                  | Some proj => lift (parse_proj4 proj [])
                  end
            end
          else ret []
      end
  end.

Definition read_transform : M DatasetBase (list Q) :=
  self <- get ;;
  match _hds self with
  | None => raise (ValueError "Null dataset")
  | Some ds => ret (ds_geotransform ds)
  end.

Definition count : M DatasetBase Z :=
  self <- get ;;
  (if _count self =? 0 then
     match _hds self with
     | None => raise (ValueError "Can't read closed raster file")
     | Some ds => modify (set__count (GDALGetRasterCount ds))
     end
   else ret tt) ;;;
  self <- get ;;
  ret (_count self).

Definition indexes : M DatasetBase (list Z) :=
  n <- count ;;
  ret (map (fun i => i + 1) (range n)).

Definition dtypes : M DatasetBase (list dtype) :=
  self <- get ;;
  (if is_nil (_dtypes self) then
     for_each (range (_count self)) (fun i =>
       b <- band (i + 1) ;;
       dt <- lift (dtype_fwd_item (band_datatype b)) ;;
       modify (fun self => set__dtypes (_dtypes self ++ [dt])%list self))
   else ret tt) ;;;
  self <- get ;;
  ret (_dtypes self).

Definition append_block_shape (s : Z * Z) (self : DatasetBase)
  : DatasetBase :=
  match _block_shapes self with
  | Some l => set__block_shapes (Some (l ++ [s])%list) self
  | None => self
  end.

Definition block_shapes : M DatasetBase (list (Z * Z)) :=
  self <- get ;;
  (match _block_shapes self with
   | None =>
       modify (set__block_shapes (Some [])) ;;;
       for_each (range (_count self)) (fun i =>
         b <- band (i + 1) ;;
         let '(xsize, ysize) := band_blocksize b in
         modify (append_block_shape (ysize, xsize)))
   | Some _ => ret tt
   end) ;;;
  self <- get ;;
  match _block_shapes self with
  | Some l => ret l
  | None => raise (TypeError "'NoneType' object is not iterable")
  end.

Definition Qltb (x y : Q) : bool := negb (Qle_bool y x).

Definition get_nodatavals : M DatasetBase (list (option Q)) :=
  self <- get ;;
  (if is_nil (_nodatavals self) then
     for_each (range (_count self)) (fun i =>
       b <- band (i + 1) ;;
       dt <- lift (dtype_fwd_item (band_datatype b)) ;;
       let '(nodataval, success) := band_nodata b in
       val <-
         (if success =? 0 then ret None
          else
            lo <- lift (dtype_ranges_item dt) ;;
            if Qltb nodataval (fst lo) then ret None
            else
              hi <- lift (dtype_ranges_item dt) ;;
              if Qltb (snd hi) nodataval then ret None
              else ret (Some nodataval)) ;;
       modify (fun self => set__nodatavals (_nodatavals self ++ [val])%list self))
   else ret tt) ;;;
  self <- get ;;
  ret (_nodatavals self).

Definition nodatavals : M DatasetBase (list (option Q)) := get_nodatavals.

Definition nodata : M DatasetBase (option Q) :=
  n <- count ;;
  if n =? 0 then ret None
  else
    vals <- nodatavals ;;
    lift (list_item vals 0).

Definition get_crs : M DatasetBase (option crs) :=
  self <- get ;;
  (if negb (_read self) && (match _crs self with None => true | Some _ => false end)
   then c <- read_crs ;; modify (set__crs (Some c))
   else ret tt) ;;;
  self <- get ;;
  ret (_crs self).

Definition get_transform : M DatasetBase (option (list Q)) :=
  self <- get ;;
  (if negb (_read self)
      && (match _transform self with None => true | Some _ => false end)
   then t <- read_transform ;; modify (set__transform (Some t))
   else ret tt) ;;;
  self <- get ;;
  ret (_transform self).

Definition affine : M DatasetBase Affine :=
  t <- get_transform ;;
  lift (from_gdal t).

Definition meta : M DatasetBase meta_dict :=
  n <- count ;;
  dtype <-
    (if n =? 0 then ret (other_dtype "float_")
     else ds <- dtypes ;; lift (list_item ds 0)) ;;
  self <- get ;;
  let m_driver := driver self in
  m_nodata <- nodata ;;
  self <- get ;;
  let m_width := width self in
  let m_height := height self in
  m_count <- count ;;
  m_crs <- get_crs ;;
  a1 <- affine ;;
  a2 <- affine ;;
  modify (set__read true) ;;;
  ret (mkMeta m_driver dtype m_nodata m_width m_height m_count m_crs
              (to_gdal a1) a2).

Definition start : M DatasetBase unit :=
  self <- get ;;
  match GDALOpen (vsi_path (name self)) with
  | inr (errno, msg) =>
      if errno =? CPLE_OpenFailed then raise (RasterioIOError msg)
      else raise (CPLE_Error errno msg)
  | inl ds =>
      modify (set__hds (Some ds)) ;;;
      modify (set_driver (Some (ds_driver ds))) ;;;
      modify (set__count (GDALGetRasterCount ds)) ;;;
      modify (set_width (Some (ds_xsize ds))) ;;;
      modify (set_height (Some (ds_ysize ds))) ;;;
      modify (set_shape (Some (ds_ysize ds, ds_xsize ds))) ;;;
      t <- read_transform ;;
      modify (set__transform (Some t)) ;;;
      c <- read_crs ;;
      modify (set__crs (Some c)) ;;;
      _ <- meta ;;
      modify (set__closed false)
  end.

Definition stop : M DatasetBase unit := modify (set__hds None).

Definition close : M DatasetBase unit :=
  stop ;;; modify (set__closed true).

(** The items yielded by the generator [block_windows(bidx)], in the
    order of the two nested loops. *)
Definition block_windows_loop (h w height width : Z)
  (nrows ncols : Z) : list ((Z * Z) * pyobj) :=
  flat_map (fun j =>
    let row := j * h in
    let height' := Z.min h (height - row) in
    map (fun i =>
      let col := i * w in
      let width' := Z.min w (width - col) in
      ((j, i), int_window row (row + height') col (col + width')))
      (range ncols))
    (range nrows).

Definition block_windows (bidx : Z) : M DatasetBase (list ((Z * Z) * pyobj)) :=
  shapes <- block_shapes ;;
  bidx <-
    (if bidx <? 1 then
       if inhomogeneous shapes then
         raise (ValueError
           "A band index must be provided when band block shapesare inhomogeneous")
       else ret 1
     else ret bidx) ;;
  hw <- lift (list_item shapes (bidx - 1)) ;;
  let '(h, w) := hw in
  self <- get ;;
  match height self, width self with
  | Some height, Some width =>
      dm <- lift (divmod height h) ;;
      let nrows := fst dm + (if 0 <? snd dm then 1 else 0) in
      dm <- lift (divmod width w) ;;
      let ncols := fst dm + (if 0 <? snd dm then 1 else 0) in
      ret (block_windows_loop h w height width nrows ncols)
  | _, _ => raise (TypeError "unsupported operand type(s) for divmod()")
  end.

(** [window_bounds(window)] *)
Definition window_bounds (window : pyobj)
  : M DatasetBase (pyfloat * pyfloat * pyfloat * pyfloat) :=
  w <- lift (unpack_py_window window) ;;
  a <- affine ;;
  lift (window_bounds_of a window).

(** [window(left, bottom, right, top, boundless=False)] *)
Definition window (left bottom right top : pyfloat) (boundless : bool)
  : M DatasetBase pyobj :=
  a <- affine ;;
  w <- lift (get_window left bottom right top a 6) ;;
  if boundless then ret w
  else
    self <- get ;;
    match height self, width self with
    | Some height, Some width => lift (crop_window w height width)
    | _, _ => raise (TypeError "an integer is required")
    end.

(** [_has_band(bidx)]: [IndexError] from [band] means no such band. *)
Definition _has_band (bidx : Z) : M DatasetBase bool :=
  fun self =>
    match band bidx self with
    | (Ok _, s) => (Ok true, s)
    | (Raise (IndexError _), s) => (Ok false, s)
    | (Raise e, s) => (Raise e, s)
    end.

(** [index(x, y, op, precision)] *)
Definition index (x y : pyfloat) (op : pyfloat -> result Z) (precision : Z)
  : M DatasetBase (Z * Z) :=
  t <- affine ;;
  lift (get_index x y t op precision).

(** [is_tiled] *)
Definition is_tiled : M DatasetBase bool :=
  shapes <- block_shapes ;;
  if Z.of_nat (List.length shapes) =? 0 then ret false
  else
    shapes <- block_shapes ;;
    s0 <- lift (list_item shapes 0) ;;
    self <- get ;;
    ret (negb (match width self with
               | Some w => snd s0 =? w
               | None => false
               end)).

(** [checksum(bidx, window)]; the engine computes the checksum of the
    region it is given. *)
Variable GDALChecksumImage : gdal_band -> Z -> Z -> Z -> Z -> Z.

Definition checksum (bidx : Z) (window : pyobj) : M DatasetBase Z :=
  b <- band bidx ;;
  self <- get ;;
  if negb (truthy window) then
    w <- lift (as_int (attr_obj (width self))) ;;
    h <- lift (as_int (attr_obj (height self))) ;;
    ret (GDALChecksumImage b 0 0 w h)
  else
    h <- lift (as_int (attr_obj (height self))) ;;
    w <- lift (as_int (attr_obj (width self))) ;;
    e <- lift (checksum_extent window h w) ;;
    let '(xoff, yoff, width', height') := e in
    ret (GDALChecksumImage b xoff yoff width' height').

End Methods.

End Base.

(** ** Readers and updaters ([_io.pyx]) *)

Module Io.

(** [o[i]] on a tuple. *)
Definition item (o : pyobj) (i : nat) : result pyobj :=
  match o with
  | PyTuple l =>
      match nth_error l i with
      | Some x => Ok x
      | None => Raise (IndexError "tuple index out of range")
      end
  | PyNone | PyInt _ => Raise (TypeError "object is not subscriptable")
  end.

(** [eval_window] of this module: [r, c = window] without the check of
    the structure. *)
Definition eval_window (window : pyobj) (height width : Z) : result pyobj :=
  match window with
  | PyTuple [r; c] =>
      let* r0 := item r 0 in
      let* r_start := eval_bound r0 0 height "height" in
      let* r1 := item r 1 in
      let* r_stop := eval_bound r1 height height "height" in
      if negb (r_stop >=? r_start) then
        Raise (invalid_range "row" r_start r_stop)
      else
        let* c0 := item c 0 in
        let* c_start := eval_bound c0 0 width "width" in
        let* c1 := item c 1 in
        let* c_stop := eval_bound c1 width width "width" in
        if negb (c_stop >=? c_start) then
          Raise (invalid_range "col" c_start c_stop)
        else Ok (int_window r_start r_stop c_start c_stop)
  | PyTuple _ => Raise (ValueError "need more than 1 value to unpack")
  | PyNone | PyInt _ => Raise (TypeError "object is not iterable")
  end.

Definition window_shape (window : pyobj) (height width : Z)
  : result (Z * Z) :=
  let* w := eval_window window height width in
  let* e := unpack_py_window w in
  let '((a, b), (c, d)) := e in
  Ok (b - a, d - c).

(** A numpy array: element type, shape and elements in row-major
    order. *)
Record ndarray : Type := mkArray {
  arr_dtype : dtype;
  arr_shape : list Z;
  arr_data : list Q
}.

(** [np.zeros((rows, cols), dtype)] *)
Definition zeros (shape : Z * Z) (d : dtype) : ndarray :=
  mkArray d [fst shape; snd shape]
          (repeat 0%Q (Z.to_nat (fst shape * snd shape))).

(** One call of [GDALRasterIO]. *)
Record io_call : Type := mkCall {
  io_band : Z;
  io_mode : Z;
  io_xoff : Z;
  io_yoff : Z;
  io_width : Z;
  io_height : Z;
  io_buffer : nat;
  io_etype : Z
}.

Record RasterReader : Type := mkRasterReader {
  name : string;
  mode : string;
  _hds : option gdal_dataset;
  _count : Z;
  width : option Z;
  height : option Z;
  shape : option (Z * Z);
  driver : option string;
  _dtypes : list dtype;
  _closed : bool;
  _crs : option crs;
  _crs_wkt : option string;
  _transform : option (list Q);
  _block_shapes : list (Z * Z);
  _nodatavals : list (option Q)
}.

Definition set__hds (v : option gdal_dataset) (self : RasterReader) : RasterReader :=
  {| name := name self; mode := mode self; _hds := v; _count := _count self;
     width := width self; height := height self; shape := shape self; driver
     := driver self; _dtypes := _dtypes self; _closed := _closed self; _crs
     := _crs self; _crs_wkt := _crs_wkt self; _transform := _transform self;
     _block_shapes := _block_shapes self; _nodatavals := _nodatavals self |}.

Definition set__count (v : Z) (self : RasterReader) : RasterReader :=
  {| name := name self; mode := mode self; _hds := _hds self; _count := v;
     width := width self; height := height self; shape := shape self; driver
     := driver self; _dtypes := _dtypes self; _closed := _closed self; _crs
     := _crs self; _crs_wkt := _crs_wkt self; _transform := _transform self;
     _block_shapes := _block_shapes self; _nodatavals := _nodatavals self |}.

Definition set_width (v : option Z) (self : RasterReader) : RasterReader :=
  {| name := name self; mode := mode self; _hds := _hds self; _count :=
     _count self; width := v; height := height self; shape := shape self;
     driver := driver self; _dtypes := _dtypes self; _closed := _closed self;
     _crs := _crs self; _crs_wkt := _crs_wkt self; _transform := _transform
     self; _block_shapes := _block_shapes self; _nodatavals := _nodatavals
     self |}.

Definition set_height (v : option Z) (self : RasterReader) : RasterReader :=
  {| name := name self; mode := mode self; _hds := _hds self; _count :=
     _count self; width := width self; height := v; shape := shape self;
     driver := driver self; _dtypes := _dtypes self; _closed := _closed self;
     _crs := _crs self; _crs_wkt := _crs_wkt self; _transform := _transform
     self; _block_shapes := _block_shapes self; _nodatavals := _nodatavals
     self |}.

Definition set_shape (v : option (Z * Z)) (self : RasterReader) : RasterReader :=
  {| name := name self; mode := mode self; _hds := _hds self; _count :=
     _count self; width := width self; height := height self; shape := v;
     driver := driver self; _dtypes := _dtypes self; _closed := _closed self;
     _crs := _crs self; _crs_wkt := _crs_wkt self; _transform := _transform
     self; _block_shapes := _block_shapes self; _nodatavals := _nodatavals
     self |}.

Definition set_driver (v : option string) (self : RasterReader) : RasterReader :=
  {| name := name self; mode := mode self; _hds := _hds self; _count :=
     _count self; width := width self; height := height self; shape := shape
     self; driver := v; _dtypes := _dtypes self; _closed := _closed self;
     _crs := _crs self; _crs_wkt := _crs_wkt self; _transform := _transform
     self; _block_shapes := _block_shapes self; _nodatavals := _nodatavals
     self |}.

Definition set__dtypes (v : list dtype) (self : RasterReader) : RasterReader :=
  {| name := name self; mode := mode self; _hds := _hds self; _count :=
     _count self; width := width self; height := height self; shape := shape
     self; driver := driver self; _dtypes := v; _closed := _closed self; _crs
     := _crs self; _crs_wkt := _crs_wkt self; _transform := _transform self;
     _block_shapes := _block_shapes self; _nodatavals := _nodatavals self |}.

Definition set__closed (v : bool) (self : RasterReader) : RasterReader :=
  {| name := name self; mode := mode self; _hds := _hds self; _count :=
     _count self; width := width self; height := height self; shape := shape
     self; driver := driver self; _dtypes := _dtypes self; _closed := v; _crs
     := _crs self; _crs_wkt := _crs_wkt self; _transform := _transform self;
     _block_shapes := _block_shapes self; _nodatavals := _nodatavals self |}.

Definition set__crs (v : option crs) (self : RasterReader) : RasterReader :=
  {| name := name self; mode := mode self; _hds := _hds self; _count :=
     _count self; width := width self; height := height self; shape := shape
     self; driver := driver self; _dtypes := _dtypes self; _closed := _closed
     self; _crs := v; _crs_wkt := _crs_wkt self; _transform := _transform
     self; _block_shapes := _block_shapes self; _nodatavals := _nodatavals
     self |}.

Definition set__crs_wkt (v : option string) (self : RasterReader) : RasterReader :=
  {| name := name self; mode := mode self; _hds := _hds self; _count :=
     _count self; width := width self; height := height self; shape := shape
     self; driver := driver self; _dtypes := _dtypes self; _closed := _closed
     self; _crs := _crs self; _crs_wkt := v; _transform := _transform self;
     _block_shapes := _block_shapes self; _nodatavals := _nodatavals self |}.

Definition set__transform (v : option (list Q)) (self : RasterReader) : RasterReader :=
  {| name := name self; mode := mode self; _hds := _hds self; _count :=
     _count self; width := width self; height := height self; shape := shape
     self; driver := driver self; _dtypes := _dtypes self; _closed := _closed
     self; _crs := _crs self; _crs_wkt := _crs_wkt self; _transform := v;
     _block_shapes := _block_shapes self; _nodatavals := _nodatavals self |}.

Definition set__block_shapes (v : list (Z * Z)) (self : RasterReader) : RasterReader :=
  {| name := name self; mode := mode self; _hds := _hds self; _count :=
     _count self; width := width self; height := height self; shape := shape
     self; driver := driver self; _dtypes := _dtypes self; _closed := _closed
     self; _crs := _crs self; _crs_wkt := _crs_wkt self; _transform :=
     _transform self; _block_shapes := v; _nodatavals := _nodatavals self |}.

Definition set__nodatavals (v : list (option Q)) (self : RasterReader) : RasterReader :=
  {| name := name self; mode := mode self; _hds := _hds self; _count :=
     _count self; width := width self; height := height self; shape := shape
     self; driver := driver self; _dtypes := _dtypes self; _closed := _closed
     self; _crs := _crs self; _crs_wkt := _crs_wkt self; _transform :=
     _transform self; _block_shapes := _block_shapes self; _nodatavals := v |}.

(** [RasterReader.__init__(path)] *)
Definition init (path : string) : RasterReader :=
  {| name := path; mode := "r"; _hds := None; _count := 0; width := None;
     height := None; shape := None; driver := None; _dtypes := [];
     _closed := true; _crs := None; _crs_wkt := None; _transform := None;
     _block_shapes := []; _nodatavals := [] |}.

(** The reader object together with the numpy arrays that exist and the
    transfers that were dispatched to the engine.  Arrays are passed by
    reference: a reference is an index into [arrays]. *)
Record world : Type := mkWorld {
  obj : RasterReader;
  arrays : list ndarray;
  dispatched : list io_call
}.

Definition on_obj (f : RasterReader -> RasterReader) (w : world) : world :=
  mkWorld (f (obj w)) (arrays w) (dispatched w).

Definition opt_int (o : option Z) : pyobj :=
  match o with Some z => PyInt z | None => PyNone end.

Fixpoint list_set {A : Type} (l : list A) (n : nat) (x : A) : list A :=
  match l, n with
  | [], _ => []
  | _ :: rest, O => x :: rest
  | y :: rest, S n' => y :: list_set rest n' x
  end.

Definition set_band (ds : gdal_dataset) (bidx : Z) (b : gdal_band)
  : gdal_dataset :=
  mkDataset (ds_driver ds) (ds_xsize ds) (ds_ysize ds)
            (list_set (ds_bands ds) (Z.to_nat (bidx - 1)) b)
            (ds_geotransform ds) (ds_projection ds).

Definition is_nil {A : Type} (l : list A) : bool :=
  match l with [] => true | _ :: _ => false end.

Local Open Scope method_scope.

Section Methods.

(** The table [dtype_fwd] of [rasterio.dtypes] and the services of the
    native engine are given from outside this file.  [GDALRasterIO]
    takes the band, the direction (0 reads, 1 writes), the offsets and
    sizes, the buffer and the element type code, and gives back its
    status with the band and the buffer after the transfer. *)
Variable dtype_fwd : Z -> option dtype.
Variable GDALOpen : string -> Z -> option gdal_dataset.
Variable OGRSpatialReferenceH : Type.
Variable OSRNewSpatialReference : option string -> option OGRSpatialReferenceH.
Variable OSRExportToProj4 : OGRSpatialReferenceH -> option string.
Variable OSRExportToWkt : OGRSpatialReferenceH -> option string.
Variable GDALRasterIO :
  gdal_band -> Z -> Z -> Z -> Z -> Z -> ndarray -> Z
  -> Z * gdal_band * ndarray.

Definition dtype_fwd_item (code : Z) : result dtype :=
  match dtype_fwd code with
  | Some d => Ok d
  | None => Raise (KeyError (fmt_d code))
  end.

Definition self_ : M world RasterReader := w <- get ;; ret (obj w).

Definition assign (f : RasterReader -> RasterReader) : M world unit :=
  modify (on_obj f).

Definition read_transform : M world (list Q) :=
  self <- self_ ;;
  match _hds self with
  | None => raise (ValueError "Null dataset")
  | Some ds => ret (ds_geotransform ds)
  end.

Definition read_crs : M world crs :=
  self <- self_ ;;
  match _hds self with
  | None => raise (ValueError "Null dataset")
  | Some ds =>
      match OSRNewSpatialReference (ds_projection ds) with
      | Some osr =>
          match OSRExportToProj4 osr with
          | None => raise (ValueError "Null projection")
          | Some proj => lift (parse_proj4 proj [])
          end
      | None => ret []
      end
  end.

Definition read_crs_wkt : M world string :=
  self <- self_ ;;
  match _hds self with
  | None => raise (ValueError "Null dataset")
  | Some ds =>
      match OSRNewSpatialReference (ds_projection ds) with
      | Some osr =>
          match OSRExportToWkt osr with
          | None => raise (ValueError "Null projection")
          | Some wkt => ret wkt
          end
      | None =>
          raise (UnboundLocalError
            "local variable 'crs_wkt' referenced before assignment")
      end
  end.

Definition start : M world unit :=
  self <- self_ ;;
  let hds := GDALOpen (name self) 0 in
  assign (set__hds hds) ;;;
  match hds with
  | None => raise (ValueError "Null dataset")
  | Some ds =>
      assign (set_driver (Some (ds_driver ds))) ;;;
      assign (set__count (GDALGetRasterCount ds)) ;;;
      assign (set_width (Some (ds_xsize ds))) ;;;
      assign (set_height (Some (ds_ysize ds))) ;;;
      assign (set_shape (Some (ds_ysize ds, ds_xsize ds))) ;;;
      t <- read_transform ;;
      assign (set__transform (Some t)) ;;;
      c <- read_crs ;;
      assign (set__crs (Some c)) ;;;
      wkt <- read_crs_wkt ;;
      assign (set__crs_wkt (Some wkt)) ;;;
      assign (set__closed false)
  end.

Definition stop : M world unit := assign (set__hds None).

Definition close : M world unit := stop ;;; assign (set__closed true).

Definition count : M world Z :=
  self <- self_ ;;
  (if _count self =? 0 then
     match _hds self with
     | None => raise (ValueError "Can't read closed raster file")
     | Some ds => assign (set__count (GDALGetRasterCount ds))
     end
   else ret tt) ;;;
  self <- self_ ;;
  ret (_count self).

Definition indexes : M world (list Z) :=
  n <- count ;;
  ret (map (fun i => i + 1) (range n)).

(** [GDALGetRasterDataType(GDALGetRasterBand(hds, bidx))]; the engine
    answers GDT_Unknown (0) for a band that does not exist. *)
Definition raster_data_type (hds : option gdal_dataset) (bidx : Z) : Z :=
  match fst (GDALGetRasterBand hds bidx) with
  | Some b => band_datatype b
  | None => 0
  end.

Definition dtypes : M world (list dtype) :=
  self <- self_ ;;
  (if is_nil (_dtypes self) then
     match _hds self with
     | None => raise (ValueError "can't read closed raster file")
     | Some _ =>
         for_each (range (_count self)) (fun i =>
           self <- self_ ;;
           dt <- lift (dtype_fwd_item (raster_data_type (_hds self) (i + 1))) ;;
           assign (fun self => set__dtypes (_dtypes self ++ [dt])%list self))
     end
   else ret tt) ;;;
  self <- self_ ;;
  ret (_dtypes self).

(** [x in l] and [l.index(x)] on a list of integers. *)
Definition contains (l : list Z) (x : Z) : bool := existsb (Z.eqb x) l.

Fixpoint index_of (l : list Z) (x : Z) : result Z :=
  match l with
  | [] => Raise (ValueError "x is not in list")
  | y :: rest =>
      if y =? x then Ok 0
      else let* i := index_of rest x in Ok (i + 1)
  end.

(** A call [io_<type>(hband, mode, xoff, yoff, width, height, buffer)]:
    the arguments are converted to C ints, the buffer must hold
    elements of the type of the function in two dimensions, and
    [&buffer[0, 0]] must exist; then the transfer is handed to
    [GDALRasterIO] with the element type code [etype].  Cython leaves
    the use of [None] as a buffer undefined: the model stops there. *)
Definition io (elem : dtype) (etype : Z) (bidx mode : Z)
    (xoff yoff width height : pyobj) (buffer : option nat) : M world Z :=
  xoff <- lift (as_int xoff) ;;
  yoff <- lift (as_int yoff) ;;
  width <- lift (as_int width) ;;
  height <- lift (as_int height) ;;
  w <- get ;;
  match buffer with
  | None => raise (TypeError "'NoneType' object is not a buffer")
  | Some ref =>
      match nth_error (arrays w) ref with
      | None => raise (TypeError "no such array")
      | Some a =>
          if negb (dtype_eqb (arr_dtype a) elem) then
            raise (ValueError "Buffer dtype mismatch")
          else
            match arr_shape a with
            | [rows; cols] =>
                if (rows <=? 0) || (cols <=? 0) then
                  raise (IndexError "Index out of bounds (axis 0)")
                else
                  match _hds (obj w) with
                  | None => raise (ValueError "NULL band")
                  | Some ds =>
                      match fst (GDALGetRasterBand (Some ds) bidx) with
                      | None => raise (ValueError "NULL band")
                      | Some hband =>
                          let '(retval, hband', a') :=
                            GDALRasterIO hband mode xoff yoff width height
                                         a etype in
                          modify (fun w =>
                            mkWorld
                              (set__hds (Some (set_band ds bidx hband')) (obj w))
                              (list_set (arrays w) ref a')
                              (dispatched w ++
                               [mkCall bidx mode xoff yoff width height
                                       ref etype])%list) ;;;
                          ret retval
                      end
                  end
            | _ =>
                raise (ValueError "Buffer has wrong number of dimensions")
            end
      end
  end.

(** The chain [if dtype == dtypes.ubyte: ... elif ...: ... else: raise]
    of [read_band] and [write_band]. *)
Definition dispatch (d : dtype) (bidx mode : Z)
    (xoff yoff width height : pyobj) (buffer : option nat) : M world Z :=
  if dtype_eqb d ubyte then io ubyte 1 bidx mode xoff yoff width height buffer
  else if dtype_eqb d uint16 then
    io uint16 2 bidx mode xoff yoff width height buffer
  else if dtype_eqb d int16 then
    io int16 3 bidx mode xoff yoff width height buffer
  else if dtype_eqb d uint32 then
    io uint32 4 bidx mode xoff yoff width height buffer
  else if dtype_eqb d int32 then
    io int32 5 bidx mode xoff yoff width height buffer
  else if dtype_eqb d float32 then
    io float32 6 bidx mode xoff yoff width height buffer
  else if dtype_eqb d float64 then
    io float64 7 bidx mode xoff yoff width height buffer
  else raise (ValueError "Invalid dtype").

(** [eval_window(window, self.height, self.width)]: the two attributes
    are converted to C ints at the call. *)
Definition eval_in_extent (window : pyobj) : M world pyobj :=
  self <- self_ ;;
  h <- lift (as_int (opt_int (height self))) ;;
  w <- lift (as_int (opt_int (width self))) ;;
  lift (eval_window window h w).

(** The offsets and sizes that both methods derive from [window]. *)
Definition transfer_extent (window : pyobj)
  : M world (pyobj * pyobj * pyobj * pyobj) :=
  if truthy window then
    window <- eval_in_extent window ;;
    e <- lift (unpack_py_window window) ;;
    let '((r0, r1), (c0, c1)) := e in
    let yoff := r0 in
    let xoff := c0 in
    let height := r1 - yoff in
    let width := c1 - xoff in
    ret (PyInt xoff, PyInt yoff, PyInt width, PyInt height)
  else
    self <- self_ ;;
    ret (PyInt 0, PyInt 0, opt_int (width self), opt_int (height self)).

Definition dtype_of_array (ref : nat) : M world dtype :=
  w <- get ;;
  match nth_error (arrays w) ref with
  | Some a => ret (arr_dtype a)
  | None => raise (TypeError "no such array")
  end.

Definition read_band (bidx : Z) (out : option nat) (window : pyobj)
  : M world nat :=
  idx <- indexes ;;
  if negb (contains idx bidx) then
    raise (IndexError "band index out of range")
  else
    idx <- indexes ;;
    i <- lift (index_of idx bidx) ;;
    self <- self_ ;;
    match _hds self with
    | None => raise (ValueError "can't read closed raster file")
    | Some _ =>
        (match out with
         | Some ref =>
             od <- dtype_of_array ref ;;
             ds <- dtypes ;;
             d <- lift (list_item ds i) ;;
             if negb (dtype_eqb od d) then
               raise (ValueError "band and output array dtypes do not match")
             else ret tt
         | None => ret tt
         end) ;;;
        self <- self_ ;;
        match fst (GDALGetRasterBand (_hds self) bidx) with
        | None => raise (ValueError "NULL band")
        | Some _ =>
            ds <- dtypes ;;
            dtype <- lift (list_item ds i) ;;
            out <-
              (match out with
               | Some ref => ret ref
               | None =>
                   out_shape <-
                     (if truthy window then
                        self <- self_ ;;
                        h <- lift (as_int (opt_int (height self))) ;;
                        w <- lift (as_int (opt_int (width self))) ;;
                        lift (window_shape window h w)
                      else
                        self <- self_ ;;
                        match shape self with
                        | Some sh => ret sh
                        | None => raise (TypeError "expected sequence object")
                        end) ;;
                   w <- get ;;
                   modify (fun w =>
                     mkWorld (obj w) (arrays w ++ [zeros out_shape dtype])%list
                             (dispatched w)) ;;;
                   ret (List.length (arrays w))
               end) ;;
            ext <- transfer_extent window ;;
            let '(xoff, yoff, width, height) := ext in
            _ <- dispatch dtype bidx 0 xoff yoff width height (Some out) ;;
            ret out
        end
    end.

Definition write_band (bidx : Z) (src : option nat) (window : pyobj)
  : M world unit :=
  idx <- indexes ;;
  if negb (contains idx bidx) then
    raise (IndexError "band index out of range")
  else
    idx <- indexes ;;
    i <- lift (index_of idx bidx) ;;
    self <- self_ ;;
    match _hds self with
    | None => raise (ValueError "can't read closed raster file")
    | Some _ =>
        (match src with
         | Some ref =>
             sd <- dtype_of_array ref ;;
             ds <- dtypes ;;
             d <- lift (list_item ds i) ;;
             if negb (dtype_eqb sd d) then
               raise (ValueError "band and srcput array dtypes do not match")
             else ret tt
         | None => ret tt
         end) ;;;
        self <- self_ ;;
        match fst (GDALGetRasterBand (_hds self) bidx) with
        | None => raise (ValueError "NULL band")
        | Some _ =>
            ext <- transfer_extent window ;;
            let '(xoff, yoff, width, height) := ext in
            ds <- dtypes ;;
            dtype <- lift (list_item ds i) ;;
            _ <- dispatch dtype bidx 1 xoff yoff width height src ;;
            ret tt
        end
    end.

(** [block_shapes] of the reader.  For a band that does not exist the
    engine leaves the two C ints unset; the model puts 0 there. *)
Definition block_shapes : M world (list (Z * Z)) :=
  self <- self_ ;;
  (if is_nil (_block_shapes self) then
     match _hds self with
     | None => raise (ValueError "can't read closed raster file")
     | Some _ =>
         for_each (range (_count self)) (fun i =>
           self <- self_ ;;
           let '(xsize, ysize) :=
             match fst (GDALGetRasterBand (_hds self) (i + 1)) with
             | Some b => band_blocksize b
             | None => (0, 0)
             end in
           assign (fun self =>
             set__block_shapes (_block_shapes self ++ [(ysize, xsize)])%list
                               self))
     end
   else ret tt) ;;;
  self <- self_ ;;
  ret (_block_shapes self).

(** [get_transform] and [write_transform] of the updater. *)
Definition falsy {A : Type} (o : option (list A)) : bool :=
  match o with
  | None | Some [] => true
  | Some (_ :: _) => false
  end.

Definition get_transform : M world (option (list Q)) :=
  self <- self_ ;;
  (if falsy (_transform self) then
     t <- read_transform ;;
     assign (set__transform (Some t))
   else ret tt) ;;;
  self <- self_ ;;
  ret (_transform self).

Definition set_geotransform (ds : gdal_dataset) (gt : list Q) : gdal_dataset :=
  mkDataset (ds_driver ds) (ds_xsize ds) (ds_ysize ds) (ds_bands ds) gt
            (ds_projection ds).

Definition write_transform (transform : list Q) : M world unit :=
  self <- self_ ;;
  match _hds self with
  | None => raise (ValueError "Can't read closed raster file")
  | Some ds =>
      match transform with
      | g0 :: g1 :: g2 :: g3 :: g4 :: g5 :: _ =>
          assign (set__hds
                    (Some (set_geotransform ds [g0; g1; g2; g3; g4; g5]))) ;;;
          assign (set__transform (Some transform))
      | _ => raise (IndexError "list index out of range")
      end
  end.

(** [get_crs]: a CRS that is [None] or empty is read again. *)
Definition get_crs : M world (option crs) :=
  self <- self_ ;;
  (if falsy (_crs self) then
     c <- read_crs ;;
     assign (set__crs (Some c))
   else ret tt) ;;;
  self <- self_ ;;
  ret (_crs self).

(** [RasterUpdater.write_crs(crs)]; the engine turns the PROJ.4 string
    into the WKT that it stores. *)
Variable str_of_float : pyfloat -> string.
Variable OSRImportFromProj4 : string -> option string.

Definition write_crs (c : crs) : M world unit :=
  self <- self_ ;;
  match _hds self with
  | None => raise (ValueError "Can't read closed raster file")
  | Some ds =>
      let proj := write_crs_proj4 str_of_float c in
      let wkt := OSRImportFromProj4 proj in
      assign (set__hds
        (Some (mkDataset (ds_driver ds) (ds_xsize ds) (ds_ysize ds)
                         (ds_bands ds) (ds_geotransform ds) wkt))) ;;;
      assign (set__crs (Some c))
  end.

End Methods.

End Io.

(** ** Notions used to state the properties *)

(** [v] restricted to the interval from [lo] to [hi]. *)
Definition clamp (lo hi v : Z) : Z :=
  if v <? lo then lo else if hi <? v then hi else v.

(** The least number of blocks of size [b] that hold [a] items. *)
Definition ceil_div (a b : Z) : Z := (a + b - 1) / b.

(** The pixel at row [r] and column [c] lies in the window. *)
Definition inside (r c : Z) (window : pyobj) : bool :=
  match window with
  | PyTuple [PyTuple [PyInt r0; PyInt r1]; PyTuple [PyInt c0; PyInt c1]] =>
      (r0 <=? r) && (r <? r1) && (c0 <=? c) && (c <? c1)
  | _ => false
  end.

(** The same, on the states whose part [f] satisfies [J]. *)
Definition keeps_on {S X A : Type} (J : X -> Prop) (f : S -> X) (m : M S A)
  : Prop :=
  forall s, J (f s) -> f (snd (m s)) = f s.

(** The block at block row [j] and block column [i], clipped to the
    extent. *)
Definition block_at (h w height width j i : Z) : (Z * Z) * pyobj :=
  ((j, i),
   int_window (j * h) (Z.min ((j + 1) * h) height)
              (i * w) (Z.min ((i + 1) * w) width)).

(** The items are the blocks of shape (h, w) of an extent of
    [height] rows and [width] columns: their number is the product of the
    two ceilings; block (j, i) stands at position [j * ceil(width/w) + i]
    with its window clipped to the extent; every pixel of the extent lies
    in a window; no pixel lies in the windows of two positions; and no
    window holds a pixel outside the extent. *)
Definition tiles_extent (h w height width : Z)
    (items : list ((Z * Z) * pyobj)) : Prop :=
  List.length items = Z.to_nat (ceil_div height h * ceil_div width w)
  /\ (forall j i,
        0 <= j < ceil_div height h -> 0 <= i < ceil_div width w ->
        nth_error items (Z.to_nat (j * ceil_div width w + i))
        = Some (block_at h w height width j i))
  /\ (forall r c,
        0 <= r < height -> 0 <= c < width ->
        exists k it,
          nth_error items k = Some it /\ inside r c (snd it) = true)
  /\ (forall r c k1 k2 it1 it2,
        nth_error items k1 = Some it1 -> nth_error items k2 = Some it2 ->
        inside r c (snd it1) = true -> inside r c (snd it2) = true ->
        k1 = k2)
  /\ (forall it r c,
        In it items -> inside r c (snd it) = true ->
        0 <= r < height /\ 0 <= c < width).

(** A method leaves the part [f] of the state as it was, whether it
    returns or raises. *)
Definition keeps {S X A : Type} (f : S -> X) (m : M S A) : Prop :=
  forall s, f (snd (m s)) = f s.

(** ** A small dataset for examples

    One band of unsigned bytes stored in blocks of 2 rows by 3 columns, in
    a raster of 5 rows by 7 columns that is georeferenced in EPSG:4326. *)

Definition example_band : gdal_band :=
  mkBand 1 (3, 2) (0%Q, 0) [].

Definition example_ds : gdal_dataset :=
  mkDataset "GTiff" 7 5 [example_band]
            [0%Q; 1%Q; 0%Q; 5%Q; 0%Q; (-1)%Q] (Some "GEOGCS[...]").

(** The tables of [rasterio.dtypes] for the seven types of the dispatch
    chain. *)
Definition example_dtype_fwd (code : Z) : option dtype :=
  match code with
  | 1 => Some ubyte | 2 => Some uint16 | 3 => Some int16 | 4 => Some uint32
  | 5 => Some int32 | 6 => Some float32 | 7 => Some float64
  | _ => None
  end.

Definition example_dtype_ranges (d : dtype) : option (Q * Q) :=
  match d with
  | ubyte => Some (0%Q, 255%Q)
  | uint16 => Some (0%Q, 65535%Q)
  | int16 => Some ((-32768)%Q, 32767%Q)
  | uint32 => Some (0%Q, 4294967295%Q)
  | int32 => Some ((-2147483648)%Q, 2147483647%Q)
  | _ => None
  end.

(** [start] of the base class on a path that the engine opens as
    [example_ds], with an engine that identifies the projection as
    EPSG:4326. *)
Definition example_start : M Base.DatasetBase unit :=
  Base.start example_dtype_fwd example_dtype_ranges (fun path => path)
             (fun _ => inl example_ds)
             string (fun wkt => Some wkt) (fun _ => 0) (fun _ => "4326")
             (fun _ => None).

Definition example_started : Base.DatasetBase :=
  snd (example_start (Base.init "example.tif")).

(** The attributes of a dataset other than the caches of [dtypes] and
    [nodatavals] and the flag [_read]. *)
Definition core (s : Base.DatasetBase) :=
  (Base.name s, Base.mode s, Base._hds s, Base._count s, Base._closed s,
   Base._block_shapes s, Base._crs s, Base._transform s, Base.driver s,
   Base.width s, Base.height s, Base.shape s).

(** The part [core] of a dataset that holds the handle [ds], the band
    count of [ds], a transform and a CRS. *)
Definition opened (ds : gdal_dataset)
    (x : string * string * option gdal_dataset * Z * bool
         * option (list (Z * Z)) * option crs * option (list Q)
         * option string * option Z * option Z * option (Z * Z)) : Prop :=
  let '(_, _, hds, cnt, _, _, c, t, _, _, _, _) := x in
  hds = Some ds /\ cnt = GDALGetRasterCount ds /\ c <> None /\ t <> None.

(** What the specification says of the five lazy attributes right after
    [start]: none of them is cached. *)
Definition lazy_attributes_uncached (s : Base.DatasetBase) : Prop :=
  Base._dtypes s = [] /\ Base._block_shapes s = None
  /\ Base._nodatavals s = [] /\ Base._crs s = None
  /\ Base._transform s = None.

(** The block shape (rows, columns) of a band, and those of the bands of
    a native dataset. *)
Definition block_shape_of (b : gdal_band) : Z * Z :=
  (snd (band_blocksize b), fst (band_blocksize b)).

Definition native_block_shapes (ds : gdal_dataset) : list (Z * Z) :=
  map block_shape_of (ds_bands ds).

(** What [start] leaves behind on the dataset [ds]: size, driver, band
    count, transform and CRS are assigned, [meta] has been read, the caches
    of [dtypes] and [nodatavals] are filled when there is a band, and the
    cache of [block_shapes] is still empty; the first access to
    [block_shapes] fills it and later accesses return the cached value,
    also after [close]. *)
Definition populated_by_start (ds : gdal_dataset) (s : Base.DatasetBase)
  : Prop :=
  Base._hds s = Some ds
  /\ Base.width s = Some (ds_xsize ds)
  /\ Base.height s = Some (ds_ysize ds)
  /\ Base.driver s = Some (ds_driver ds)
  /\ Base._count s = GDALGetRasterCount ds
  /\ Base._transform s = Some (ds_geotransform ds)
  /\ (exists c, Base._crs s = Some c)
  /\ Base._read s = true
  /\ (ds_bands ds <> [] ->
      List.length (Base._dtypes s) = List.length (ds_bands ds)
      /\ List.length (Base._nodatavals s) = List.length (ds_bands ds))
  /\ Base._block_shapes s = None
  /\ (let s1 := Base.set__block_shapes (Some (native_block_shapes ds)) s in
      Base.block_shapes s = (Ok (native_block_shapes ds), s1)
      /\ Base.block_shapes s1 = (Ok (native_block_shapes ds), s1)
      /\ fst (Base.block_shapes (snd (Base.close s1)))
         = Ok (native_block_shapes ds)).

(** A reader that holds the open dataset [ds] with the band count of
    [ds]: every band has a data type of the table, and the cache of
    [dtypes] is empty or holds the types of all bands. *)
Definition coherent (dtype_fwd : Z -> option dtype) (ds : gdal_dataset)
    (r : Io.RasterReader) : Prop :=
  Io._hds r = Some ds
  /\ Io._count r = GDALGetRasterCount ds
  /\ (forall b, In b (ds_bands ds) -> dtype_fwd (band_datatype b) <> None)
  /\ (Io._dtypes r = []
      \/ map Some (Io._dtypes r)
         = map (fun b => dtype_fwd (band_datatype b)) (ds_bands ds)).

(** A reader on [example_ds] after [start], an array of 5 by 7 doubles,
    and an engine whose transfers change nothing. *)
Definition example_reader : Io.RasterReader :=
  {| Io.name := "example.tif"; Io.mode := "r"; Io._hds := Some example_ds;
     Io._count := 1; Io.width := Some 7; Io.height := Some 5;
     Io.shape := Some (5, 7); Io.driver := Some "GTiff"; Io._dtypes := [];
     Io._closed := false; Io._crs := Some []; Io._crs_wkt := Some "";
     Io._transform := Some [0%Q; 1%Q; 0%Q; 5%Q; 0%Q; (-1)%Q];
     Io._block_shapes := []; Io._nodatavals := [] |}.

Definition example_world : Io.world :=
  Io.mkWorld example_reader [Io.zeros (5, 7) float64] [].

Definition idle_raster_io (b : gdal_band) (mode xoff yoff width height : Z)
    (a : Io.ndarray) (etype : Z) : Z * gdal_band * Io.ndarray :=
  (0, b, a).

(** The relative error of one rounding to binary64, [2^-53], and the
    absolute error of a rounding in the subnormal range, [2^-1075]. *)
Definition unit_roundoff : Q := 1 # 9007199254740992.

Definition tiny : Q := pow2 (-1075).

(** [r] lies as close to [z] as the float nearest to [z] does. *)
Definition near (z r : Q) : Prop :=
  (Qabs (r - z) <= unit_roundoff * Qabs z + tiny)%Q.

(** What the roundings of one index and of one bound add up to at most,
    for pixels of size [scale] and coordinates of size [magnitude]:
    [2^-49 * (magnitude + scale) + 2^-1071 * (1 + scale)]. *)
Definition rounding_slack (scale magnitude : Q) : Q :=
  (16 * unit_roundoff * (magnitude + scale) + 16 * tiny * (1 + scale))%Q.

(** The tolerance of [get_window] on one coordinate: [10 ** -precision]
    and the rounding of the arithmetic. *)
Definition tolerance (precision : Z) (scale coordinate offset : Q) : Q :=
  (Qpower (10 # 1) (- precision)
   + rounding_slack scale
       (Qabs coordinate + Qabs offset + Qpower (10 # 1) (- precision)))%Q.

(** A north-up transform with unit pixels and its origin at (0, 0). *)
Definition unit_affine : Affine := mkAffine 1 0 0 0 (-1) 0.

(** The GDAL type code of each of the seven element types of the
    dispatch chain (GDT_Byte = 1, ..., GDT_Float64 = 7). *)
Definition gdal_type_code (d : dtype) : option Z :=
  match d with
  | ubyte => Some 1 | uint16 => Some 2 | int16 => Some 3 | uint32 => Some 4
  | int32 => Some 5 | float32 => Some 6 | float64 => Some 7
  | other_dtype _ => None
  end.

(** [all(p(c) for c in s)] *)
Fixpoint string_forallb (p : ascii -> bool) (s : string) : bool :=
  match s with
  | EmptyString => true
  | String c s' => p c && string_forallb p s'
  end.

Definition space_free (s : string) : bool :=
  string_forallb (fun c => negb (is_space c)) s.

(** A key or a value that holds no whitespace and no [=]. *)
Definition plain (s : string) : bool :=
  string_forallb (fun c => negb (is_space c) && negb (Ascii.eqb "="%char c)) s.

Definition starts_with_plus (s : string) : bool :=
  match s with
  | String c _ => Ascii.eqb c "+"%char
  | EmptyString => false
  end.

(** The items of a mapping that [write_crs] writes and [read_crs] reads
    back unchanged: a plain key that does not start with [+], with the
    value [True] or a plain string that is not a number and is not written
    as the flag [+no_defs]. *)
Definition reads_back (kv : string * crs_value) : bool :=
  let (k, v) := kv in
  plain k && negb (starts_with_plus k)
  && match v with
     | CBool true => true
     | CStr s =>
         plain s
         && negb (String.eqb k "no_defs" && nonempty s)
         && match float_of_string s with None => true | Some _ => false end
     | _ => false
     end.

(** The parameter that [write_crs] writes for one item. *)
Definition proj4_param (str_of_float : pyfloat -> string)
    (kv : string * crs_value) : string :=
  let (k, v) := kv in
  if (is_True v || (String.eqb k "no_defs" && value_truthy v))%bool
  then "+" ++ k
  else "+" ++ k ++ "=" ++ fmt_s str_of_float v.

(** * Properties *)

(** ** C integers *)

Lemma is_intb_true z : is_int z -> is_intb z = true.
Proof.
  unfold is_int, is_intb. intros [H1 H2].
  apply andb_true_intro. split; apply Z.leb_le; assumption.
Qed.

Lemma is_intb_is_int z : is_intb z = true -> is_int z.
Proof.
  unfold is_int, is_intb. intros H.
  apply andb_prop in H. destruct H as [H1 H2].
  split; apply Z.leb_le; assumption.
Qed.

Lemma as_int_ok z : is_int z -> as_int (PyInt z) = Ok z.
Proof. intros H. simpl. rewrite (is_intb_true z H). reflexivity. Qed.

Lemma as_int_inv o z : as_int o = Ok z -> o = PyInt z /\ is_int z.
Proof.
  destruct o as [|y|l]; simpl; try discriminate.
  destruct (is_intb y) eqn:E; try discriminate.
  intros H. injection H as <-. split; [reflexivity|].
  apply is_intb_is_int. exact E.
Qed.

Lemma wrap_int_is_int z : is_int (wrap_int z).
Proof.
  unfold is_int, wrap_int, INT_MIN, INT_MAX.
  pose proof (Z.mod_pos_bound (z + 2 ^ 31) (2 ^ 32) ltac:(lia)). lia.
Qed.

(** Adding a dimension to a negative bound never overflows. *)
Lemma add_int_exact a b :
  is_int a -> is_int b -> a < 0 -> 0 <= b -> add_int a b = a + b.
Proof.
  unfold is_int, add_int, wrap_int, INT_MIN, INT_MAX. intros Ha Hb Hn Hp.
  rewrite Z.mod_small; lia.
Qed.

(** ** Window evaluation *)

Lemma eval_bound_is_int b d dim n v :
  eval_bound b d dim n = Ok v -> is_int v.
Proof.
  unfold eval_bound. destruct (as_int (py_or b (PyInt d))) as [x|e] eqn:E;
    simpl; try discriminate.
  apply as_int_inv in E. destruct E as [_ Hx].
  destruct (x <? 0).
  - destruct (dim <? 0); try discriminate.
    intros H. injection H as <-. apply wrap_int_is_int.
  - intros H. injection H as <-. exact Hx.
Qed.

(** A present positive bound is taken as it is. *)
Lemma eval_bound_positive v d dim n :
  is_int v -> 0 < v -> eval_bound (PyInt v) d dim n = Ok v.
Proof.
  intros Hi Hv. unfold eval_bound, py_or. simpl.
  destruct (v =? 0) eqn:E; [apply Z.eqb_eq in E; lia|]. simpl.
  rewrite (is_intb_true v Hi). simpl.
  destruct (v <? 0) eqn:L; [apply Z.ltb_lt in L; lia|]. reflexivity.
Qed.

(** A present start bound that is not negative is taken as it is: for a
    start the default and the literal 0 coincide. *)
Lemma eval_bound_start v dim n :
  is_int v -> 0 <= v -> eval_bound (PyInt v) 0 dim n = Ok v.
Proof.
  intros Hi Hv. destruct (Z.eq_dec v 0) as [->|Hne].
  - reflexivity.
  - apply eval_bound_positive; [assumption | lia].
Qed.

(** The literal 0 and [None] are evaluated alike, whatever the default. *)
Lemma eval_bound_zero_is_absent d dim n :
  eval_bound (PyInt 0) d dim n = eval_bound PyNone d dim n.
Proof. reflexivity. Qed.

(** Whatever [eval_window] returns is a window of four C ints with
    [start <= stop] on both axes. *)
Lemma eval_window_result w0 height width w1 :
  eval_window w0 height width = Ok w1 ->
  exists rs re cs ce,
    w1 = int_window rs re cs ce
    /\ is_int rs /\ is_int re /\ is_int cs /\ is_int ce
    /\ rs <= re /\ cs <= ce.
Proof.
  unfold eval_window.
  destruct (unpack_window w0) as [[[r0 r1] [c0 c1]]|]; try discriminate.
  destruct (eval_bound r0 0 height "height") as [rs|] eqn:E1; simpl; try discriminate.
  destruct (eval_bound r1 height height "height") as [re|] eqn:E2; simpl; try discriminate.
  destruct (re >=? rs) eqn:G1; simpl; try discriminate.
  destruct (eval_bound c0 0 width "width") as [cs|] eqn:E3; simpl; try discriminate.
  destruct (eval_bound c1 width width "width") as [ce|] eqn:E4; simpl; try discriminate.
  destruct (ce >=? cs) eqn:G2; simpl; try discriminate.
  intros H. injection H as <-.
  exists rs, re, cs, ce.
  apply eval_bound_is_int in E1, E2, E3, E4.
  apply Z.geb_le in G1, G2.
  repeat split; try assumption; apply E1 || apply E2 || apply E3 || apply E4.
Qed.

Lemma eval_window_fixed rs re cs ce height width :
  is_int rs -> is_int re -> is_int cs -> is_int ce ->
  0 <= rs <= re -> 0 < re -> 0 <= cs <= ce -> 0 < ce ->
  eval_window (int_window rs re cs ce) height width
  = Ok (int_window rs re cs ce).
Proof.
  intros Irs Ire Ics Ice Hr Hre Hc Hce.
  unfold eval_window, int_window, mk_window, unpack_window.
  rewrite (eval_bound_start rs height "height" Irs) by lia. simpl.
  rewrite (eval_bound_positive re height height "height" Ire Hre). simpl.
  assert (G1 : (re >=? rs) = true) by (apply Z.geb_le; lia).
  rewrite G1. simpl.
  rewrite (eval_bound_start cs width "width" Ics) by lia. simpl.
  rewrite (eval_bound_positive ce width width "width" Ice Hce). simpl.
  assert (G2 : (ce >=? cs) = true) by (apply Z.geb_le; lia).
  rewrite G2. reflexivity.
Qed.

Lemma Io_eval_window_fixed rs re cs ce height width :
  is_int rs -> is_int re -> is_int cs -> is_int ce ->
  0 <= rs <= re -> 0 < re -> 0 <= cs <= ce -> 0 < ce ->
  Io.eval_window (int_window rs re cs ce) height width
  = Ok (int_window rs re cs ce).
Proof.
  intros Irs Ire Ics Ice Hr Hre Hc Hce.
  unfold Io.eval_window, int_window, mk_window. simpl.
  rewrite (eval_bound_start rs height "height" Irs) by lia. simpl.
  rewrite (eval_bound_positive re height height "height" Ire Hre). simpl.
  assert (G1 : (re >=? rs) = true) by (apply Z.geb_le; lia).
  rewrite G1. simpl.
  rewrite (eval_bound_start cs width "width" Ics) by lia. simpl.
  rewrite (eval_bound_positive ce width width "width" Ice Hce). simpl.
  assert (G2 : (ce >=? cs) = true) by (apply Z.geb_le; lia).
  rewrite G2. reflexivity.
Qed.

Example eval_window_negative :
  eval_window (mk_window (PyInt (-2)) PyNone (PyInt 0) PyNone) 10 10
  = Ok (int_window 8 10 0 10).
Proof. reflexivity. Qed.

Example eval_window_bad_row :
  eval_window (int_window 5 3 0 1) 10 10
  = Raise (ValueError "invalid window: row range (5, 3)").
Proof. reflexivity. Qed.

Example eval_window_needs_height :
  eval_window (mk_window (PyInt (-2)) PyNone PyNone PyNone) (-1) (-1)
  = Raise (ValueError "invalid height: -1").
Proof. reflexivity. Qed.

Example eval_window_bad_structure :
  eval_window (PyTuple [PyInt 1; PyInt 2]) 10 10
  = Raise (ValueError
      "invalid window structure; expecting ((row_start, row_stop), (col_start, col_stop))").
Proof. reflexivity. Qed.

(** C1: the code does not keep an explicit 0 stop apart from an absent one.
    On the window ((3, 0), (0, 5)) with height 10 and width 10 the claim
    asks for the invalid-window error, since the stop 0 lies before the
    start 3; both generations of [eval_window] replace the stop by the
    height and return ((3, 10), (0, 5)) without an error. *)
Theorem eval_window_explicit_zero_stop :
  eval_window (int_window 3 0 0 5) 10 10 = Ok (int_window 3 10 0 5)
  /\ Io.eval_window (int_window 3 0 0 5) 10 10 = Ok (int_window 3 10 0 5).
Proof. split; reflexivity. Qed.

(** In general an explicit 0 stop is evaluated exactly as an absent one,
    on either axis. *)
Lemma eval_window_zero_stop_is_absent (r0 c0 : pyobj) (height width : Z) :
  eval_window (mk_window r0 (PyInt 0) c0 (PyInt 0)) height width
  = eval_window (mk_window r0 PyNone c0 PyNone) height width.
Proof. reflexivity. Qed.

(** What the claim asks for does happen as soon as the stop is not 0. *)
Example eval_window_stop_before_start :
  eval_window (int_window 3 1 0 5) 10 10
  = Raise (ValueError "invalid window: row range (3, 1)").
Proof. reflexivity. Qed.

(** ** Cropping *)

Lemma clamp_start v dim : 0 <= dim -> Z.min (Z.max v 0) dim = clamp 0 dim v.
Proof.
  intros H. unfold clamp.
  destruct (v <? 0) eqn:A; [apply Z.ltb_lt in A | apply Z.ltb_ge in A];
    destruct (dim <? v) eqn:B; [apply Z.ltb_lt in B | apply Z.ltb_ge in B
                               |apply Z.ltb_lt in B | apply Z.ltb_ge in B]; lia.
Qed.

Lemma clamp_stop v dim : 0 <= dim -> Z.max 0 (Z.min v dim) = clamp 0 dim v.
Proof.
  intros H. unfold clamp.
  destruct (v <? 0) eqn:A; [apply Z.ltb_lt in A | apply Z.ltb_ge in A];
    destruct (dim <? v) eqn:B; [apply Z.ltb_lt in B | apply Z.ltb_ge in B
                               |apply Z.ltb_lt in B | apply Z.ltb_ge in B]; lia.
Qed.

Lemma clamp_range lo hi v : lo <= hi -> lo <= clamp lo hi v <= hi.
Proof.
  intros H. unfold clamp.
  destruct (v <? lo) eqn:A; [apply Z.ltb_lt in A; lia | apply Z.ltb_ge in A].
  destruct (hi <? v) eqn:B; [apply Z.ltb_lt in B | apply Z.ltb_ge in B]; lia.
Qed.

Lemma crop_window_value r0 r1 c0 c1 height width :
  is_int r0 -> is_int r1 -> is_int c0 -> is_int c1 ->
  crop_window (int_window r0 r1 c0 c1) height width
  = Ok (int_window
          (Z.min (Z.max r0 0) height) (Z.max 0 (Z.min r1 height))
          (Z.min (Z.max c0 0) width) (Z.max 0 (Z.min c1 width))).
Proof.
  intros H0 H1 H2 H3. unfold crop_window, int_window, mk_window.
  unfold unpack_int_window.
  rewrite (as_int_ok r0 H0), (as_int_ok r1 H1), (as_int_ok c0 H2),
    (as_int_ok c1 H3).
  reflexivity.
Qed.

(** C8: a window of four C ints, in any order and of any sign, is cropped
    without an error; every bound of the result is the bound of the
    argument clamped on its own to the interval from 0 to the dimension of
    its axis, so it lies in that interval. *)
Theorem crop_window_clamps (r0 r1 c0 c1 height width : Z) :
  is_int r0 -> is_int r1 -> is_int c0 -> is_int c1 ->
  0 <= height -> 0 <= width ->
  crop_window (int_window r0 r1 c0 c1) height width
  = Ok (int_window (clamp 0 height r0) (clamp 0 height r1)
                   (clamp 0 width c0) (clamp 0 width c1))
  /\ 0 <= clamp 0 height r0 <= height
  /\ 0 <= clamp 0 height r1 <= height
  /\ 0 <= clamp 0 width c0 <= width
  /\ 0 <= clamp 0 width c1 <= width.
Proof.
  intros H0 H1 H2 H3 Hh Hw.
  rewrite crop_window_value by assumption.
  rewrite !clamp_start, !clamp_stop by assumption.
  repeat split; apply clamp_range; assumption.
Qed.

(** The example of the specification, through the general statement. *)
Lemma crop_window_clamps_witness :
  crop_window (int_window (-5) 15 (-3) 20) 10 10 = Ok (int_window 0 10 0 10).
Proof.
  apply (crop_window_clamps (-5) 15 (-3) 20 10 10);
    unfold is_int, INT_MIN, INT_MAX; lia.
Defined.

(** A window that lies outside the extent is cropped to one of no area,
    and a window whose bounds are in the wrong order is not rejected. *)
Example crop_window_degenerate :
  crop_window (int_window 12 15 3 3) 10 10 = Ok (int_window 10 10 3 3)
  /\ crop_window (int_window 7 2 0 4) 10 10 = Ok (int_window 7 2 0 4).
Proof. split; reflexivity. Qed.

(** ** Evaluating twice *)

(** C9, as the specification states it, fails: a start of -20 in a raster
    of height 10 is evaluated to -10, and evaluating the result moves it
    again, to 0. *)
Lemma eval_window_not_idempotent :
  eval_window (mk_window (PyInt (-20)) PyNone (PyInt 0) PyNone) 10 10
  = Ok (int_window (-10) 10 0 10)
  /\ eval_window (int_window (-10) 10 0 10) 10 10
     = Ok (int_window 0 10 0 10)
  /\ eval_window (int_window (-10) 10 0 10) 10 10
     <> Ok (int_window (-10) 10 0 10).
Proof. repeat split; try reflexivity. discriminate. Qed.

(** C9, amended: when [eval_window] succeeds and its result has no
    negative bound and a positive stop on each axis, evaluating the result
    again returns it unchanged. *)
Theorem eval_window_idempotent_on_resolved
    (w0 : pyobj) (height width rs re cs ce : Z) :
  0 <= height -> 0 <= width ->
  eval_window w0 height width = Ok (int_window rs re cs ce) ->
  0 <= rs -> 0 < re -> 0 <= cs -> 0 < ce ->
  eval_window (int_window rs re cs ce) height width
  = Ok (int_window rs re cs ce).
Proof.
  intros Hh Hw E Hrs Hre Hcs Hce.
  destruct (eval_window_result _ _ _ _ E)
    as (rs' & re' & cs' & ce' & Eq & I1 & I2 & I3 & I4 & L1 & L2).
  injection Eq as -> -> -> ->.
  apply eval_window_fixed; try assumption; lia.
Qed.

Lemma eval_window_idempotent_on_resolved_witness :
  eval_window (int_window 8 10 0 10) 10 10 = Ok (int_window 8 10 0 10).
Proof.
  apply (eval_window_idempotent_on_resolved
           (mk_window (PyInt (-2)) PyNone (PyInt 0) PyNone) 10 10 8 10 0 10);
    try lia; reflexivity.
Defined.

(** ** Evaluation does not crop *)

(** C10: a window of four present C ints with [0 <= start <= stop] and
    [0 < stop] on each axis is returned unchanged by both generations of
    [eval_window], whatever the height and the width, so also when a stop
    lies beyond the dimension; [crop_window] is what restricts the same
    window to the extent. *)
Theorem eval_window_never_clips (rs re cs ce height width : Z) :
  is_int rs -> is_int re -> is_int cs -> is_int ce ->
  0 <= rs <= re -> 0 < re -> 0 <= cs <= ce -> 0 < ce ->
  0 <= height -> 0 <= width ->
  eval_window (int_window rs re cs ce) height width
  = Ok (int_window rs re cs ce)
  /\ Io.eval_window (int_window rs re cs ce) height width
     = Ok (int_window rs re cs ce)
  /\ crop_window (int_window rs re cs ce) height width
     = Ok (int_window (Z.min rs height) (Z.min re height)
                      (Z.min cs width) (Z.min ce width)).
Proof.
  intros Irs Ire Ics Ice Hr Hre Hc Hce Hh Hw. split; [|split].
  - apply eval_window_fixed; assumption.
  - apply Io_eval_window_fixed; assumption.
  - rewrite crop_window_value by assumption.
    replace (Z.min (Z.max rs 0) height) with (Z.min rs height) by lia.
    replace (Z.max 0 (Z.min re height)) with (Z.min re height) by lia.
    replace (Z.min (Z.max cs 0) width) with (Z.min cs width) by lia.
    replace (Z.max 0 (Z.min ce width)) with (Z.min ce width) by lia.
    reflexivity.
Qed.

Lemma eval_window_never_clips_witness :
  eval_window (int_window 2 50 0 30) 10 10 = Ok (int_window 2 50 0 30)
  /\ Io.eval_window (int_window 2 50 0 30) 10 10 = Ok (int_window 2 50 0 30)
  /\ crop_window (int_window 2 50 0 30) 10 10 = Ok (int_window 2 10 0 10).
Proof.
  apply (eval_window_never_clips 2 50 0 30 10 10);
    unfold is_int, INT_MIN, INT_MAX; lia.
Defined.

(** ** Methods that leave a part of the state alone *)

Section Keeps.

Context {S X : Type} (f : S -> X).

Lemma keeps_ret {A} (a : A) : keeps f (ret a).
Proof. intros s. reflexivity. Qed.

Lemma keeps_raise {A} (e : exn) : keeps f (@raise S A e).
Proof. intros s. reflexivity. Qed.

Lemma keeps_lift {A} (r : result A) : keeps f (lift r).
Proof. intros s. reflexivity. Qed.

Lemma keeps_get : keeps f get.
Proof. intros s. reflexivity. Qed.

Lemma keeps_modify (g : S -> S) :
  (forall s, f (g s) = f s) -> keeps f (modify g).
Proof. intros H s. apply H. Qed.

Lemma keeps_bind {A B} (m : M S A) (k : A -> M S B) :
  keeps f m -> (forall a, keeps f (k a)) -> keeps f (bind m k).
Proof.
  intros Hm Hk s. unfold bind. specialize (Hm s).
  destruct (m s) as [[a|e] s1]; simpl in *.
  - rewrite Hk. exact Hm.
  - exact Hm.
Qed.

Lemma keeps_for_each {A} (l : list A) (body : A -> M S unit) :
  (forall x, keeps f (body x)) -> keeps f (for_each l body).
Proof.
  intros H. induction l as [|x rest IH]; simpl.
  - apply keeps_ret.
  - apply keeps_bind; [apply H | intros _; exact IH].
Qed.

End Keeps.

Ltac keeps_step :=
  first
    [ apply keeps_ret | apply keeps_raise | apply keeps_lift | apply keeps_get
    | apply keeps_for_each; intros
    | apply keeps_bind; [|intros]
    | apply keeps_modify; intros; reflexivity
    | match goal with
      | |- keeps _ (match ?x with _ => _ end) => destruct x
      end ].

Ltac keeps_auto := repeat keeps_step.

Lemma bind_ok {S A B} (m : M S A) (k : A -> M S B) s a s' :
  m s = (Ok a, s') -> bind m k s = k a s'.
Proof. intros H. unfold bind. rewrite H. reflexivity. Qed.

Lemma bind_raise {S A B} (m : M S A) (k : A -> M S B) s e s' :
  m s = (Raise e, s') -> bind m k s = (Raise e, s').
Proof. intros H. unfold bind. rewrite H. reflexivity. Qed.

Lemma bind_inv_ok {S A B} (m : M S A) (k : A -> M S B) s b s' :
  bind m k s = (Ok b, s') ->
  exists a s1, m s = (Ok a, s1) /\ k a s1 = (Ok b, s').
Proof.
  unfold bind. destruct (m s) as [[a|e] s1]; intros H.
  - exists a, s1. split; [reflexivity | exact H].
  - discriminate.
Qed.

Lemma modify_inv {S} (g : S -> S) s u s' :
  modify g s = (Ok u, s') -> s' = g s.
Proof. unfold modify. intros H. injection H as _ <-. reflexivity. Qed.

Lemma get_inv {S} (s a s' : S) : get s = (Ok a, s') -> a = s /\ s' = s.
Proof. unfold get. intros H. injection H as <- <-. split; reflexivity. Qed.

Lemma ret_inv {S A} (x a : A) (s s' : S) :
  ret x s = (Ok a, s') -> a = x /\ s' = s.
Proof. unfold ret. intros H. injection H as <- <-. split; reflexivity. Qed.

Lemma lift_inv {S A} (r : result A) (a : A) (s s' : S) :
  lift r s = (Ok a, s') -> r = Ok a /\ s' = s.
Proof. unfold lift. intros H. injection H as -> <-. split; reflexivity. Qed.

Section KeepsOn.

Context {S X : Type} (J : X -> Prop) (f : S -> X).

Lemma keeps_keeps_on {A} (m : M S A) : keeps f m -> keeps_on J f m.
Proof. intros H s _. apply H. Qed.

Lemma keeps_on_bind {A B} (m : M S A) (k : A -> M S B) :
  keeps_on J f m -> (forall a, keeps_on J f (k a)) ->
  keeps_on J f (bind m k).
Proof.
  intros Hm Hk s HJ. unfold bind. specialize (Hm s HJ).
  destruct (m s) as [[a|e] s1]; simpl in *.
  - rewrite <- Hm. apply Hk. rewrite Hm. exact HJ.
  - exact Hm.
Qed.

Lemma keeps_on_get {B} (k : S -> M S B) :
  (forall self, J (f self) -> keeps_on J f (k self)) ->
  keeps_on J f (bind get k).
Proof. intros H s HJ. unfold bind, get. apply (H s HJ s HJ). Qed.

Lemma keeps_on_modify (g : S -> S) :
  (forall s, J (f s) -> f (g s) = f s) -> keeps_on J f (modify g).
Proof. intros H s HJ. apply H. exact HJ. Qed.

End KeepsOn.

(** ** Block windows *)

Lemma range_length n : List.length (range n) = Z.to_nat n.
Proof. unfold range. rewrite length_map, length_seq. reflexivity. Qed.

Lemma range_nth n j :
  (j < Z.to_nat n)%nat -> nth_error (range n) j = Some (Z.of_nat j).
Proof.
  intros H. unfold range.
  rewrite nth_error_map, nth_error_seq.
  destruct (Nat.ltb_spec j (Z.to_nat n)) as [_|L]; [reflexivity | lia].
Qed.

Lemma nth_error_flat_map_uniform {A B} (f : A -> list B) (n : nat) :
  (forall a, List.length (f a) = n) ->
  forall l j i x,
    (i < n)%nat -> nth_error l j = Some x ->
    nth_error (flat_map f l) (j * n + i) = nth_error (f x) i.
Proof.
  intros Hn. induction l as [|a l IH]; intros j i x Hi Hx.
  - destruct j; discriminate.
  - destruct j as [|j]; simpl in *.
    + injection Hx as ->. apply nth_error_app1. rewrite Hn. exact Hi.
    + rewrite nth_error_app2 by (rewrite Hn; lia).
      rewrite Hn. replace (n + j * n + i - n)%nat with (j * n + i)%nat by lia.
      apply IH; assumption.
Qed.

Lemma length_flat_map_uniform {A B} (f : A -> list B) (n : nat) :
  (forall a, List.length (f a) = n) ->
  forall l, List.length (flat_map f l) = (List.length l * n)%nat.
Proof.
  intros Hn. induction l as [|a l IH]; simpl; [reflexivity|].
  rewrite length_app, Hn, IH. reflexivity.
Qed.

Lemma loop_length h w height width nrows ncols :
  List.length (Base.block_windows_loop h w height width nrows ncols)
  = (Z.to_nat nrows * Z.to_nat ncols)%nat.
Proof.
  unfold Base.block_windows_loop.
  rewrite (length_flat_map_uniform _ (Z.to_nat ncols)).
  - rewrite range_length. reflexivity.
  - intros a. rewrite length_map, range_length. reflexivity.
Qed.

Lemma loop_nth h w height width nrows ncols (j i : nat) :
  (j < Z.to_nat nrows)%nat -> (i < Z.to_nat ncols)%nat ->
  nth_error (Base.block_windows_loop h w height width nrows ncols)
            (j * Z.to_nat ncols + i)
  = Some (block_at h w height width (Z.of_nat j) (Z.of_nat i)).
Proof.
  intros Hj Hi. unfold Base.block_windows_loop.
  rewrite (nth_error_flat_map_uniform _ (Z.to_nat ncols)) with (x := Z.of_nat j).
  - rewrite nth_error_map, (range_nth ncols i Hi). simpl.
    unfold block_at. do 3 f_equal; lia.
  - intros a. rewrite length_map, range_length. reflexivity.
  - exact Hi.
  - apply range_nth. exact Hj.
Qed.

Lemma ceil_div_bounds a b :
  0 < b -> (ceil_div a b - 1) * b < a <= ceil_div a b * b.
Proof.
  intros Hb. unfold ceil_div.
  pose proof (Z.div_mod (a + b - 1) b ltac:(lia)) as E.
  pose proof (Z.mod_pos_bound (a + b - 1) b Hb) as M.
  nia.
Qed.

(** The count [d + int(m > 0)] of the code is the ceiling of the
    quotient. *)
Lemma divmod_ceil a b :
  0 < b -> a / b + (if 0 <? a mod b then 1 else 0) = ceil_div a b.
Proof.
  intros Hb. unfold ceil_div.
  pose proof (Z.div_mod a b ltac:(lia)) as E.
  pose proof (Z.mod_pos_bound a b Hb) as M.
  destruct (0 <? a mod b) eqn:L.
  - apply Z.ltb_lt in L.
    apply (Z.div_unique _ _ _ (a mod b - 1)); lia.
  - apply Z.ltb_ge in L.
    apply (Z.div_unique _ _ _ (b - 1)); lia.
Qed.

Section Tiling.

Variables h w height width : Z.
Hypothesis Hh : 0 < h.
Hypothesis Hw : 0 < w.
Hypothesis Hheight : 0 < height.
Hypothesis Hwidth : 0 < width.

Local Abbreviation nrows := (ceil_div height h).
Local Abbreviation ncols := (ceil_div width w).
Local Abbreviation items :=
  (Base.block_windows_loop h w height width nrows ncols).

Lemma nrows_pos : 0 < nrows.
Proof.
  pose proof (ceil_div_bounds height h Hh). nia.
Qed.

Lemma ncols_pos : 0 < ncols.
Proof.
  pose proof (ceil_div_bounds width w Hw). nia.
Qed.

Lemma tiling_length : List.length items = Z.to_nat (nrows * ncols).
Proof.
  rewrite loop_length.
  pose proof nrows_pos. pose proof ncols_pos.
  rewrite Z2Nat.inj_mul by lia. reflexivity.
Qed.

Lemma tiling_at j i :
  0 <= j < nrows -> 0 <= i < ncols ->
  nth_error items (Z.to_nat (j * ncols + i))
  = Some (block_at h w height width j i).
Proof.
  intros Hj Hi.
  replace (Z.to_nat (j * ncols + i))
    with (Z.to_nat j * Z.to_nat ncols + Z.to_nat i)%nat.
  - rewrite loop_nth by lia.
    rewrite !Z2Nat.id by lia. reflexivity.
  - rewrite Z2Nat.inj_add, Z2Nat.inj_mul by nia. reflexivity.
Qed.

Lemma tiling_decompose k it :
  nth_error items k = Some it ->
  exists j i,
    0 <= j < nrows /\ 0 <= i < ncols
    /\ k = Z.to_nat (j * ncols + i)
    /\ it = block_at h w height width j i.
Proof.
  intros Hk.
  assert (Hlt : (k < List.length items)%nat)
    by (apply nth_error_Some; rewrite Hk; discriminate).
  rewrite tiling_length in Hlt.
  pose proof nrows_pos as Pr. pose proof ncols_pos as Pc.
  set (kz := Z.of_nat k).
  assert (Hkz : 0 <= kz < nrows * ncols) by (subst kz; lia).
  pose proof (Z.div_mod kz ncols ltac:(lia)) as E.
  pose proof (Z.mod_pos_bound kz ncols Pc) as Mb.
  assert (Hj : 0 <= kz / ncols < nrows).
  { split; [apply Z.div_pos; lia|].
    apply Z.div_lt_upper_bound; lia. }
  exists (kz / ncols), (kz mod ncols).
  assert (Ek : k = Z.to_nat (kz / ncols * ncols + kz mod ncols)).
  { replace (kz / ncols * ncols + kz mod ncols) with kz by lia.
    subst kz. rewrite Nat2Z.id. reflexivity. }
  split; [lia|]. split; [lia|]. split; [exact Ek|].
  rewrite Ek in Hk. rewrite tiling_at in Hk by lia.
  injection Hk as <-. reflexivity.
Qed.

Lemma inside_block_at r c j i :
  inside r c (snd (block_at h w height width j i)) = true
  <-> (j * h <= r < Z.min ((j + 1) * h) height)
      /\ (i * w <= c < Z.min ((i + 1) * w) width).
Proof.
  unfold block_at, inside, int_window, mk_window. simpl.
  rewrite !andb_true_iff, !Z.leb_le, !Z.ltb_lt. tauto.
Qed.

Lemma block_row_unique r j :
  j * h <= r < Z.min ((j + 1) * h) height -> j = r / h.
Proof.
  intros H. apply (Z.div_unique r h j (r - j * h)); lia.
Qed.

Lemma block_col_unique c i :
  i * w <= c < Z.min ((i + 1) * w) width -> i = c / w.
Proof.
  intros H. apply (Z.div_unique c w i (c - i * w)); lia.
Qed.

(** Every pixel of the extent lies in a yielded window. *)
Lemma tiling_covers r c :
  0 <= r < height -> 0 <= c < width ->
  exists k it, nth_error items k = Some it /\ inside r c (snd it) = true.
Proof.
  intros Hr Hc.
  pose proof (ceil_div_bounds height h Hh) as Bh.
  pose proof (ceil_div_bounds width w Hw) as Bw.
  pose proof (Z.div_mod r h ltac:(lia)) as Er.
  pose proof (Z.mod_pos_bound r h Hh) as Mr.
  pose proof (Z.div_mod c w ltac:(lia)) as Ec.
  pose proof (Z.mod_pos_bound c w Hw) as Mc.
  assert (Hj : 0 <= r / h < nrows).
  { split; [apply Z.div_pos; lia|]. apply Z.div_lt_upper_bound; nia. }
  assert (Hi : 0 <= c / w < ncols).
  { split; [apply Z.div_pos; lia|]. apply Z.div_lt_upper_bound; nia. }
  exists (Z.to_nat (r / h * ncols + c / w)),
         (block_at h w height width (r / h) (c / w)).
  split; [apply tiling_at; assumption|].
  apply inside_block_at. nia.
Qed.

(** No pixel lies in two yielded windows. *)
Lemma tiling_disjoint r c k1 k2 it1 it2 :
  nth_error items k1 = Some it1 -> nth_error items k2 = Some it2 ->
  inside r c (snd it1) = true -> inside r c (snd it2) = true ->
  k1 = k2.
Proof.
  intros H1 H2 I1 I2.
  destruct (tiling_decompose _ _ H1) as (j1 & i1 & _ & _ & -> & ->).
  destruct (tiling_decompose _ _ H2) as (j2 & i2 & _ & _ & -> & ->).
  apply inside_block_at in I1, I2.
  destruct I1 as [R1 C1], I2 as [R2 C2].
  rewrite (block_row_unique r j1 R1), (block_row_unique r j2 R2).
  rewrite (block_col_unique c i1 C1), (block_col_unique c i2 C2).
  reflexivity.
Qed.

(** Every yielded window lies within the extent and is not empty. *)
Lemma tiling_within it r c :
  In it items -> inside r c (snd it) = true ->
  0 <= r < height /\ 0 <= c < width.
Proof.
  intros Hin I.
  apply In_nth_error in Hin. destruct Hin as [k Hk].
  destruct (tiling_decompose _ _ Hk) as (j & i & Hj & Hi & _ & ->).
  apply inside_block_at in I. nia.
Qed.

End Tiling.

Lemma band_keeps {X} (f : Base.DatasetBase -> X) bidx : keeps f (Base.band bidx).
Proof.
  unfold Base.band. apply keeps_bind; [apply keeps_get|]. intros self.
  destruct (GDALGetRasterBand (Base._hds self) bidx) as [[b|] [[errno msg]|]];
    try destruct (errno =? CPLE_IllegalArg); keeps_auto.
Qed.

Lemma block_shapes_keeps_extent :
  keeps (fun s => (Base.height s, Base.width s)) Base.block_shapes.
Proof.
  unfold Base.block_shapes.
  apply keeps_bind; [apply keeps_get|]. intros self.
  apply keeps_bind.
  - destruct (Base._block_shapes self); [apply keeps_ret|].
    apply keeps_bind; [apply keeps_modify; reflexivity|]. intros _.
    apply keeps_for_each. intros i.
    apply keeps_bind; [apply band_keeps|]. intros b.
    destruct (band_blocksize b) as [xsize ysize].
    apply keeps_modify. intros s. unfold Base.append_block_shape.
    destruct (Base._block_shapes s); reflexivity.
  - intros _. keeps_auto.
Qed.

(** C2: for a band whose block shape is (h, w), with h, w, height and
    width positive, [block_windows] yields ceil(height/h) * ceil(width/w)
    items; the item at position [j * ceil(width/w) + i] is the pair of the
    block index (j, i) and the window of block row [j] and block column
    [i] clipped to the extent, so block rows are the outer loop and block
    columns the inner one; every pixel of the extent lies in one yielded
    window, no pixel lies in two, and no window reaches outside the
    extent. *)
Theorem block_windows_tiles
    (self self' : Base.DatasetBase) (shapes : list (Z * Z))
    (bidx h w height width : Z) :
  Base.block_shapes self = (Ok shapes, self') ->
  1 <= bidx ->
  nth_error shapes (Z.to_nat (bidx - 1)) = Some (h, w) ->
  Base.height self = Some height ->
  Base.width self = Some width ->
  0 < h -> 0 < w -> 0 < height -> 0 < width ->
  exists items,
    Base.block_windows bidx self = (Ok items, self')
    /\ tiles_extent h w height width items.
Proof.
  intros Hs Hb Hn Hht Hwd Hh Hw Hheight Hwidth.
  exists (Base.block_windows_loop h w height width
            (ceil_div height h) (ceil_div width w)).
  split.
  - pose proof (block_shapes_keeps_extent self) as K.
    rewrite Hs in K. simpl in K. injection K as Kh Kw.
    unfold Base.block_windows.
    rewrite (bind_ok _ _ _ _ _ Hs).
    assert (B : (bidx <? 1) = false) by (apply Z.ltb_ge; lia).
    rewrite B.
    unfold bind at 1. unfold ret at 1.
    unfold list_item.
    assert (B' : (bidx - 1 <? 0) = false) by (apply Z.ltb_ge; lia).
    rewrite B', Hn.
    unfold bind at 1. unfold lift at 1.
    unfold bind at 1. unfold get at 1.
    rewrite Kh, Kw, Hht, Hwd.
    unfold divmod.
    assert (Eh : (h =? 0) = false) by (apply Z.eqb_neq; lia).
    assert (Ew : (w =? 0) = false) by (apply Z.eqb_neq; lia).
    rewrite Eh, Ew.
    unfold bind, lift, ret. simpl.
    rewrite !divmod_ceil by assumption. reflexivity.
  - unfold tiles_extent.
    split; [apply tiling_length; assumption|].
    split; [intros j i; apply tiling_at; assumption|].
    split; [intros r c; apply tiling_covers; assumption|].
    split; [intros r c k1 k2 it1 it2;
            apply (tiling_disjoint h w height width Hh Hw Hheight Hwidth)|].
    intros it r c. apply tiling_within; assumption.
Qed.

Lemma block_windows_tiles_witness :
  exists items,
    Base.block_windows 1 example_started
    = (Ok items, Base.set__block_shapes (Some [(2, 3)]) example_started)
    /\ tiles_extent 2 3 5 7 items.
Proof.
  apply (block_windows_tiles example_started
           (Base.set__block_shapes (Some [(2, 3)]) example_started)
           [(2, 3)] 1 2 3 5 7);
    try lia; vm_compute; reflexivity.
Defined.

(** The nine blocks of the example, in the order in which they are
    yielded. *)
Example block_windows_of_example :
  fst (Base.block_windows 1 example_started)
  = Ok [((0, 0), int_window 0 2 0 3); ((0, 1), int_window 0 2 3 6);
        ((0, 2), int_window 0 2 6 7); ((1, 0), int_window 2 4 0 3);
        ((1, 1), int_window 2 4 3 6); ((1, 2), int_window 2 4 6 7);
        ((2, 0), int_window 4 5 0 3); ((2, 1), int_window 4 5 3 6);
        ((2, 2), int_window 4 5 6 7)].
Proof. vm_compute. reflexivity. Qed.

(** ** The life cycle of the base class *)

Section BaseLifeCycle.

Variable dtype_fwd : Z -> option dtype.
Variable dtype_ranges : dtype -> option (Q * Q).
Variable vsi_path : string -> string.
Variable GDALOpen : string -> gdal_dataset + (Z * string).
Variable OGRSpatialReferenceH : Type.
Variable OSRNewSpatialReference : string -> option OGRSpatialReferenceH.
Variable OSRAutoIdentifyEPSG : OGRSpatialReferenceH -> Z.
Variable OSRGetAuthorityCode : OGRSpatialReferenceH -> string.
Variable OSRExportToProj4 : OGRSpatialReferenceH -> option string.

Local Abbreviation read_crs :=
  (Base.read_crs OGRSpatialReferenceH OSRNewSpatialReference
     OSRAutoIdentifyEPSG OSRGetAuthorityCode OSRExportToProj4).
Local Abbreviation get_crs :=
  (Base.get_crs OGRSpatialReferenceH OSRNewSpatialReference
     OSRAutoIdentifyEPSG OSRGetAuthorityCode OSRExportToProj4).
Local Abbreviation dtypes := (Base.dtypes dtype_fwd).
Local Abbreviation get_nodatavals :=
  (Base.get_nodatavals dtype_fwd dtype_ranges).
Local Abbreviation nodata := (Base.nodata dtype_fwd dtype_ranges).
Local Abbreviation meta :=
  (Base.meta dtype_fwd dtype_ranges OGRSpatialReferenceH
     OSRNewSpatialReference OSRAutoIdentifyEPSG OSRGetAuthorityCode
     OSRExportToProj4).
Local Abbreviation start :=
  (Base.start dtype_fwd dtype_ranges vsi_path GDALOpen OGRSpatialReferenceH
     OSRNewSpatialReference OSRAutoIdentifyEPSG OSRGetAuthorityCode
     OSRExportToProj4).

Lemma read_crs_keeps {X} (f : Base.DatasetBase -> X) : keeps f read_crs.
Proof.
  unfold Base.read_crs. apply keeps_bind; [apply keeps_get|]. intros self.
  destruct (Base._hds self) as [ds|]; [|apply keeps_raise].
  destruct (ds_projection ds) as [wkt|]; [|apply keeps_raise].
  destruct (0 <? Z.of_nat (String.length wkt)); [|apply keeps_ret].
  destruct (OSRNewSpatialReference wkt) as [osr|]; [|apply keeps_raise].
  destruct (OSRAutoIdentifyEPSG osr =? 0); [apply keeps_ret|].
  destruct (OSRExportToProj4 osr); [apply keeps_lift | apply keeps_raise].
Qed.

Lemma read_transform_keeps {X} (f : Base.DatasetBase -> X) :
  keeps f Base.read_transform.
Proof.
  unfold Base.read_transform. apply keeps_bind; [apply keeps_get|].
  intros self. destruct (Base._hds self); keeps_auto.
Qed.

(** [dtypes] assigns nothing but its cache. *)
Lemma dtypes_keeps {X} (f : Base.DatasetBase -> X) :
  (forall v s, f (Base.set__dtypes v s) = f s) -> keeps f dtypes.
Proof.
  intros Hf. unfold Base.dtypes.
  apply keeps_bind; [apply keeps_get|]. intros self.
  apply keeps_bind; [|intros; keeps_auto].
  destruct (Base.is_nil (Base._dtypes self)); [|apply keeps_ret].
  apply keeps_for_each. intros i.
  apply keeps_bind; [apply band_keeps|]. intros b.
  apply keeps_bind; [apply keeps_lift|]. intros dt.
  apply keeps_modify. intros s. apply Hf.
Qed.

(** [nodatavals] assigns nothing but its cache. *)
Lemma get_nodatavals_keeps {X} (f : Base.DatasetBase -> X) :
  (forall v s, f (Base.set__nodatavals v s) = f s) -> keeps f get_nodatavals.
Proof.
  intros Hf. unfold Base.get_nodatavals.
  apply keeps_bind; [apply keeps_get|]. intros self.
  apply keeps_bind; [|intros; keeps_auto].
  destruct (Base.is_nil (Base._nodatavals self)); [|apply keeps_ret].
  apply keeps_for_each. intros i.
  apply keeps_bind; [apply band_keeps|]. intros b.
  apply keeps_bind; [apply keeps_lift|]. intros dt.
  destruct (band_nodata b) as [nodataval success].
  apply keeps_bind.
  - destruct (success =? 0); [apply keeps_ret|].
    apply keeps_bind; [apply keeps_lift|]. intros lo.
    destruct (Base.Qltb nodataval (fst lo)); [apply keeps_ret|].
    apply keeps_bind; [apply keeps_lift|]. intros hi.
    destruct (Base.Qltb (snd hi) nodataval); apply keeps_ret.
  - intros val. apply keeps_modify. intros s. apply Hf.
Qed.

Lemma count_keeps {X} (f : Base.DatasetBase -> X) :
  (forall v s, f (Base.set__count v s) = f s) -> keeps f Base.count.
Proof.
  intros Hf. unfold Base.count.
  apply keeps_bind; [apply keeps_get|]. intros self.
  apply keeps_bind; [|intros; keeps_auto].
  destruct (Base._count self =? 0); [|apply keeps_ret].
  destruct (Base._hds self); [|apply keeps_raise].
  apply keeps_modify. intros s. apply Hf.
Qed.

Lemma get_crs_keeps {X} (f : Base.DatasetBase -> X) :
  (forall v s, f (Base.set__crs v s) = f s) -> keeps f get_crs.
Proof.
  intros Hf. unfold Base.get_crs.
  apply keeps_bind; [apply keeps_get|]. intros self.
  apply keeps_bind; [|intros; keeps_auto].
  match goal with |- keeps _ (if ?c then _ else _) => destruct c end;
    [|apply keeps_ret].
  apply keeps_bind; [apply read_crs_keeps|]. intros c.
  apply keeps_modify. intros s. apply Hf.
Qed.

Lemma get_transform_keeps {X} (f : Base.DatasetBase -> X) :
  (forall v s, f (Base.set__transform v s) = f s) ->
  keeps f Base.get_transform.
Proof.
  intros Hf. unfold Base.get_transform.
  apply keeps_bind; [apply keeps_get|]. intros self.
  apply keeps_bind; [|intros; keeps_auto].
  match goal with |- keeps _ (if ?c then _ else _) => destruct c end;
    [|apply keeps_ret].
  apply keeps_bind; [apply read_transform_keeps|]. intros c.
  apply keeps_modify. intros s. apply Hf.
Qed.

Lemma affine_keeps {X} (f : Base.DatasetBase -> X) :
  (forall v s, f (Base.set__transform v s) = f s) -> keeps f Base.affine.
Proof.
  intros Hf. unfold Base.affine.
  apply keeps_bind; [apply get_transform_keeps; exact Hf|].
  intros t. apply keeps_lift.
Qed.

Lemma nodata_keeps {X} (f : Base.DatasetBase -> X) :
  (forall v s, f (Base.set__count v s) = f s) ->
  (forall v s, f (Base.set__nodatavals v s) = f s) ->
  keeps f nodata.
Proof.
  intros Hc Hn. unfold Base.nodata.
  apply keeps_bind; [apply count_keeps; exact Hc|]. intros n.
  destruct (n =? 0); [apply keeps_ret|].
  apply keeps_bind; [apply get_nodatavals_keeps; exact Hn|].
  intros vals. apply keeps_lift.
Qed.

(** *** On an opened dataset *)

Section Opened.

Variable ds : gdal_dataset.

Lemma count_opened : keeps_on (opened ds) core Base.count.
Proof.
unfold Base.count. apply keeps_on_get. intros self HJ.
apply keeps_on_bind; [|intros; apply keeps_keeps_on; keeps_auto].
destruct (Base._count self =? 0); [|apply keeps_keeps_on, keeps_ret].
destruct HJ as (Hh & _). simpl in Hh. rewrite Hh.
apply keeps_on_modify. intros s (_ & Hc & _). simpl in Hc.
unfold core. simpl. rewrite Hc. reflexivity.
Qed.

Lemma get_crs_opened : keeps_on (opened ds) core get_crs.
Proof.
unfold Base.get_crs. apply keeps_on_get. intros self HJ.
apply keeps_on_bind; [|intros; apply keeps_keeps_on; keeps_auto].
destruct HJ as (_ & _ & Hc & _). simpl in Hc.
destruct (Base._crs self); [|contradiction].
rewrite andb_false_r. apply keeps_keeps_on, keeps_ret.
Qed.

Lemma get_transform_opened : keeps_on (opened ds) core Base.get_transform.
Proof.
unfold Base.get_transform. apply keeps_on_get. intros self HJ.
apply keeps_on_bind; [|intros; apply keeps_keeps_on; keeps_auto].
destruct HJ as (_ & _ & _ & Ht). simpl in Ht.
destruct (Base._transform self); [|contradiction].
rewrite andb_false_r. apply keeps_keeps_on, keeps_ret.
Qed.

Lemma affine_opened : keeps_on (opened ds) core Base.affine.
Proof.
unfold Base.affine. apply keeps_on_bind; [apply get_transform_opened|].
intros t. apply keeps_keeps_on, keeps_lift.
Qed.

Lemma nodata_opened : keeps_on (opened ds) core nodata.
Proof.
unfold Base.nodata. apply keeps_on_bind; [apply count_opened|].
intros n. destruct (n =? 0); [apply keeps_keeps_on, keeps_ret|].
apply keeps_on_bind.
- apply keeps_keeps_on, get_nodatavals_keeps. reflexivity.
- intros vals. apply keeps_keeps_on, keeps_lift.
Qed.

(** [meta] leaves the core of an opened dataset as it is: what it
  assigns are the caches of [dtypes] and [nodatavals] and [_read]. *)
Lemma meta_opened : keeps_on (opened ds) core meta.
Proof.
unfold Base.meta.
apply keeps_on_bind; [apply count_opened|]. intros n.
apply keeps_on_bind.
{ destruct (n =? 0); [apply keeps_keeps_on, keeps_ret|].
  apply keeps_on_bind.
  - apply keeps_keeps_on, dtypes_keeps. reflexivity.
  - intros l. apply keeps_keeps_on, keeps_lift. }
intros dtype. apply keeps_on_get. intros self1 _.
apply keeps_on_bind; [apply nodata_opened|]. intros m_nodata.
apply keeps_on_get. intros self2 _.
apply keeps_on_bind; [apply count_opened|]. intros m_count.
apply keeps_on_bind; [apply get_crs_opened|]. intros m_crs.
apply keeps_on_bind; [apply affine_opened|]. intros a1.
apply keeps_on_bind; [apply affine_opened|]. intros a2.
apply keeps_on_bind.
- apply keeps_on_modify. reflexivity.
- intros _. apply keeps_keeps_on, keeps_ret.
Qed.

(** *** What the loops of the accessors build *)

Lemma band_state bidx s : snd (Base.band bidx s) = s.
Proof. apply (band_keeps (fun s => s)). Qed.

Lemma dtypes_loop_length l :
forall s s',
  for_each l (fun i =>
    bind (Base.band (i + 1)) (fun b =>
    bind (lift (Base.dtype_fwd_item dtype_fwd (band_datatype b))) (fun dt =>
    modify (fun self =>
      Base.set__dtypes (Base._dtypes self ++ [dt])%list self)))) s
  = (Ok tt, s') ->
  List.length (Base._dtypes s')
  = (List.length (Base._dtypes s) + List.length l)%nat.
Proof.
induction l as [|x rest IH]; intros s s' H; simpl in H.
- apply ret_inv in H. destruct H as [_ ->]. simpl. lia.
- apply bind_inv_ok in H. destruct H as (u & s1 & Hb & H).
  apply IH in H. rewrite H. clear H IH.
  apply bind_inv_ok in Hb. destruct Hb as (b & sb & Hband & Hb).
  pose proof (band_state (x + 1) s) as Es. rewrite Hband in Es.
  simpl in Es. subst sb.
  apply bind_inv_ok in Hb. destruct Hb as (dt & sl & Hl & Hb).
  apply lift_inv in Hl. destruct Hl as [_ ->].
  apply modify_inv in Hb. subst s1. simpl.
  rewrite length_app. simpl. lia.
Qed.

Lemma dtypes_length s dts s' :
dtypes s = (Ok dts, s') -> Base._dtypes s = [] ->
List.length (Base._dtypes s') = Z.to_nat (Base._count s).
Proof.
unfold Base.dtypes. intros H Hnil.
apply bind_inv_ok in H. destruct H as (self & s0 & Hg & H).
apply get_inv in Hg. destruct Hg as [-> ->].
apply bind_inv_ok in H. destruct H as (u & s1 & Hloop & H).
apply bind_inv_ok in H. destruct H as (self' & s2 & Hg & H).
apply get_inv in Hg. destruct Hg as [-> ->].
apply ret_inv in H. destruct H as [_ ->].
rewrite Hnil in Hloop. simpl in Hloop. destruct u.
apply dtypes_loop_length in Hloop.
rewrite Hloop, Hnil, range_length. reflexivity.
Qed.

Lemma nodatavals_loop_length l :
forall s s',
  for_each l (fun i =>
    bind (Base.band (i + 1)) (fun b =>
    bind (lift (Base.dtype_fwd_item dtype_fwd (band_datatype b))) (fun dt =>
    let '(nodataval, success) := band_nodata b in
    bind
      (if success =? 0 then ret None
       else
         bind (lift (Base.dtype_ranges_item dtype_ranges dt)) (fun lo =>
         if Base.Qltb nodataval (fst lo) then ret None
         else
           bind (lift (Base.dtype_ranges_item dtype_ranges dt)) (fun hi =>
           if Base.Qltb (snd hi) nodataval then ret None
           else ret (Some nodataval))))
      (fun val =>
         modify (fun self =>
           Base.set__nodatavals (Base._nodatavals self ++ [val])%list
                                self))))) s
  = (Ok tt, s') ->
  List.length (Base._nodatavals s')
  = (List.length (Base._nodatavals s) + List.length l)%nat.
Proof.
induction l as [|x rest IH]; intros s s' H; simpl in H.
- apply ret_inv in H. destruct H as [_ ->]. simpl. lia.
- apply bind_inv_ok in H. destruct H as (u & s1 & Hb & H).
  apply IH in H. rewrite H. clear H IH.
  apply bind_inv_ok in Hb. destruct Hb as (b & sb & Hband & Hb).
  pose proof (band_state (x + 1) s) as Es. rewrite Hband in Es.
  simpl in Es. subst sb.
  apply bind_inv_ok in Hb. destruct Hb as (dt & sl & Hl & Hb).
  apply lift_inv in Hl. destruct Hl as [_ ->].
  destruct (band_nodata b) as [nodataval success].
  apply bind_inv_ok in Hb. destruct Hb as (val & sv & Hv & Hb).
  assert (Esv : sv = s).
  { match type of Hv with
    | ?c s = _ => assert (K : keeps (fun s => s) c)
    end.
    { destruct (success =? 0); [apply keeps_ret|].
      apply keeps_bind; [apply keeps_lift|]. intros lo.
      destruct (Base.Qltb nodataval (fst lo)); [apply keeps_ret|].
      apply keeps_bind; [apply keeps_lift|]. intros hi.
      destruct (Base.Qltb (snd hi) nodataval); apply keeps_ret. }
    specialize (K s). rewrite Hv in K. exact K. }
  subst sv.
  apply modify_inv in Hb. subst s1. simpl.
  rewrite length_app. simpl. lia.
Qed.

Lemma nodatavals_length s vals s' :
get_nodatavals s = (Ok vals, s') -> Base._nodatavals s = [] ->
List.length (Base._nodatavals s') = Z.to_nat (Base._count s).
Proof.
unfold Base.get_nodatavals. intros H Hnil.
apply bind_inv_ok in H. destruct H as (self & s0 & Hg & H).
apply get_inv in Hg. destruct Hg as [-> ->].
apply bind_inv_ok in H. destruct H as (u & s1 & Hloop & H).
apply bind_inv_ok in H. destruct H as (self' & s2 & Hg & H).
apply get_inv in Hg. destruct Hg as [-> ->].
apply ret_inv in H. destruct H as [_ ->].
rewrite Hnil in Hloop. simpl in Hloop. destruct u.
apply nodatavals_loop_length in Hloop.
rewrite Hloop, Hnil, range_length. reflexivity.
Qed.

Lemma count_value s n s' : Base.count s = (Ok n, s') -> n = Base._count s'.
Proof.
unfold Base.count. intros H.
apply bind_inv_ok in H. destruct H as (self & s0 & Hg & H).
apply bind_inv_ok in H. destruct H as (u & s1 & _ & H).
apply bind_inv_ok in H. destruct H as (self' & s2 & Hg' & H).
apply get_inv in Hg'. destruct Hg' as [-> ->].
apply ret_inv in H. destruct H as [-> ->]. reflexivity.
Qed.

Lemma opened_count s : opened ds (core s) -> Base._count s = GDALGetRasterCount ds.
Proof. intros (_ & H & _). exact H. Qed.

Lemma opened_core s s' : core s' = core s -> opened ds (core s) -> opened ds (core s').
Proof. intros ->. exact (fun H => H). Qed.

(** A successful [meta] on an opened dataset with empty caches sets
  [_read] and, when there is a band, fills the caches of [dtypes] and
  [nodatavals]. *)
Lemma meta_populates s m s' :
meta s = (Ok m, s') ->
opened ds (core s) -> Base._dtypes s = [] -> Base._nodatavals s = [] ->
Base._read s' = true
/\ core s' = core s
/\ (GDALGetRasterCount ds <> 0 ->
    List.length (Base._dtypes s') = Z.to_nat (GDALGetRasterCount ds)
    /\ List.length (Base._nodatavals s')
       = Z.to_nat (GDALGetRasterCount ds)).
Proof.
intros H HJ Hd Hn.
pose proof (meta_opened s HJ) as Hcore. rewrite H in Hcore. simpl in Hcore.
unfold Base.meta in H.
(* n = self.count *)
apply bind_inv_ok in H. destruct H as (n & s1 & Hc1 & H).
pose proof (count_opened s HJ) as C1. rewrite Hc1 in C1. simpl in C1.
pose proof (count_keeps (fun s => (Base._dtypes s, Base._nodatavals s))
              ltac:(reflexivity) s) as K1.
rewrite Hc1 in K1. simpl in K1. injection K1 as Kd1 Kn1.
pose proof (opened_core _ _ C1 HJ) as HJ1.
pose proof (count_value _ _ _ Hc1) as En.
rewrite (opened_count _ HJ1) in En.
(* dtype *)
apply bind_inv_ok in H. destruct H as (dtype & s2 & Hdt & H).
assert (F2 : core s2 = core s1
             /\ Base._nodatavals s2 = Base._nodatavals s1
             /\ (n <> 0 -> List.length (Base._dtypes s2)
                            = Z.to_nat (GDALGetRasterCount ds))).
{ destruct (n =? 0) eqn:E0.
  - apply ret_inv in Hdt. destruct Hdt as [_ ->].
    apply Z.eqb_eq in E0. repeat split; try reflexivity. contradiction.
  - apply bind_inv_ok in Hdt. destruct Hdt as (l & s2' & Hl & Hdt).
    apply lift_inv in Hdt. destruct Hdt as [_ ->].
    pose proof (dtypes_keeps (fun s => (core s, Base._nodatavals s))
                  ltac:(reflexivity) s1) as K2.
    rewrite Hl in K2. simpl in K2.
    pose proof (f_equal fst K2) as Kc2. pose proof (f_equal snd K2) as Kn2.
    simpl in Kc2, Kn2.
    split; [exact Kc2|]. split; [exact Kn2|].
    intros _. rewrite (dtypes_length _ _ _ Hl) by congruence.
    rewrite (opened_count _ HJ1). reflexivity. }
destruct F2 as (C2 & Kn2 & Ld2).
pose proof (opened_core _ _ C2 HJ1) as HJ2.
(* nodata *)
apply bind_inv_ok in H. destruct H as (self1 & s2a & Hg & H).
apply get_inv in Hg. destruct Hg as [-> ->].
apply bind_inv_ok in H. destruct H as (m_nodata & s3 & Hnd & H).
pose proof (nodata_opened s2 HJ2) as C3. rewrite Hnd in C3. simpl in C3.
pose proof (nodata_keeps Base._dtypes ltac:(reflexivity)
              ltac:(reflexivity) s2) as Kd3.
rewrite Hnd in Kd3. simpl in Kd3.
assert (Ln3 : n <> 0 -> List.length (Base._nodatavals s3)
                        = Z.to_nat (GDALGetRasterCount ds)).
{ intros Hn0. unfold Base.nodata in Hnd.
  apply bind_inv_ok in Hnd. destruct Hnd as (n2 & s2b & Hc2 & Hnd).
  pose proof (count_opened s2 HJ2) as C2b. rewrite Hc2 in C2b.
  simpl in C2b.
  pose proof (count_keeps Base._nodatavals ltac:(reflexivity) s2) as Kn2b.
  rewrite Hc2 in Kn2b. simpl in Kn2b.
  pose proof (count_value _ _ _ Hc2) as En2.
  rewrite (opened_count _ (opened_core _ _ C2b HJ2)) in En2.
  destruct (n2 =? 0) eqn:E0; [apply Z.eqb_eq in E0; congruence|].
  apply bind_inv_ok in Hnd. destruct Hnd as (vals & s3' & Hv & Hnd).
  apply lift_inv in Hnd. destruct Hnd as [_ ->].
  rewrite (nodatavals_length _ _ _ Hv) by congruence.
  rewrite (opened_count _ (opened_core _ _ C2b HJ2)). reflexivity. }
(* the rest assigns neither cache and ends with _read = True *)
match type of H with
| ?c s3 = _ =>
    assert (K : keeps (fun s => (Base._dtypes s, Base._nodatavals s)) c)
end.
{ apply keeps_bind; [apply keeps_get|]. intros self2.
  apply keeps_bind; [apply count_keeps; reflexivity|]. intros m_count.
  apply keeps_bind; [apply get_crs_keeps; reflexivity|]. intros m_crs.
  apply keeps_bind; [apply affine_keeps; reflexivity|]. intros a1.
  apply keeps_bind; [apply affine_keeps; reflexivity|]. intros a2.
  apply keeps_bind; [apply keeps_modify; reflexivity|]. intros _.
  apply keeps_ret. }
specialize (K s3). rewrite H in K. simpl in K. injection K as Kd4 Kn4.
apply bind_inv_ok in H. destruct H as (self2 & s3a & Hg & H).
apply bind_inv_ok in H. destruct H as (m_count & s4 & _ & H).
apply bind_inv_ok in H. destruct H as (m_crs & s5 & _ & H).
apply bind_inv_ok in H. destruct H as (a1 & s6 & _ & H).
apply bind_inv_ok in H. destruct H as (a2 & s7 & _ & H).
apply bind_inv_ok in H. destruct H as (u & s8 & Hm & H).
apply modify_inv in Hm. apply ret_inv in H. destruct H as [_ ->].
split; [subst s8; reflexivity|].
split; [exact Hcore|].
intros Hne. rewrite <- En in Hne.
split.
- rewrite Kd4, Kd3. apply Ld2. exact Hne.
- rewrite Kn4. apply Ln3. exact Hne.
Qed.

Lemma skipn_cons_nth {A} (l : list A) :
forall k x, nth_error l k = Some x -> skipn k l = x :: skipn (S k) l.
Proof.
induction l as [|y l IH]; intros [|k] x H; simpl in *; try discriminate.
- injection H as ->. reflexivity.
- apply IH. exact H.
Qed.

Lemma band_open s (k : nat) b :
Base._hds s = Some ds -> nth_error (ds_bands ds) k = Some b ->
Base.band (Z.of_nat k + 1) s = (Ok b, s).
Proof.
intros Hh Hb. unfold Base.band, bind, get. rewrite Hh.
unfold GDALGetRasterBand.
assert (E : (Z.of_nat k + 1 <? 1) = false) by (apply Z.ltb_ge; lia).
rewrite E.
replace (Z.to_nat (Z.of_nat k + 1 - 1)) with k by lia.
rewrite Hb. reflexivity.
Qed.

Lemma set_block_shapes_same s l :
Base._block_shapes s = Some l -> Base.set__block_shapes (Some l) s = s.
Proof. destruct s. simpl. intros ->. reflexivity. Qed.

Lemma block_shapes_loop n :
forall k acc s,
  Base._hds s = Some ds -> Base._block_shapes s = Some acc ->
  (k + n <= List.length (ds_bands ds))%nat ->
  for_each (map Z.of_nat (seq k n)) (fun i =>
    bind (Base.band (i + 1)) (fun b =>
    let '(xsize, ysize) := band_blocksize b in
    modify (Base.append_block_shape (ysize, xsize)))) s
  = (Ok tt,
     Base.set__block_shapes
       (Some (acc ++ map block_shape_of
                       (firstn n (skipn k (ds_bands ds))))%list) s).
Proof.
induction n as [|n IH]; intros k acc s Hh Hb Hk; simpl.
- rewrite app_nil_r, (set_block_shapes_same _ _ Hb). reflexivity.
- destruct (nth_error (ds_bands ds) k) as [b|] eqn:Eb.
  2:{ apply nth_error_None in Eb. lia. }
  unfold bind at 1. unfold bind at 1.
  rewrite (band_open s k b Hh Eb).
  destruct (band_blocksize b) as [xsize ysize] eqn:Ebs.
  unfold modify at 1. cbv beta iota.
  replace (Base.append_block_shape (ysize, xsize) s)
    with (Base.set__block_shapes (Some (acc ++ [(ysize, xsize)])%list) s)
    by (unfold Base.append_block_shape; rewrite Hb; reflexivity).
  rewrite IH with (acc := (acc ++ [(ysize, xsize)])%list);
    [|exact Hh | reflexivity | lia].
  rewrite (skipn_cons_nth _ _ _ Eb). simpl.
  unfold block_shape_of at 2. rewrite Ebs. simpl.
  rewrite <- app_assoc. reflexivity.
Qed.

(** The first access to [block_shapes] on an opened dataset computes the
  shapes of all bands and stores them. *)
Lemma block_shapes_first s :
Base._hds s = Some ds -> Base._count s = GDALGetRasterCount ds ->
Base._block_shapes s = None ->
Base.block_shapes s
= (Ok (native_block_shapes ds),
   Base.set__block_shapes (Some (native_block_shapes ds)) s).
Proof.
intros Hh Hc Hb. unfold Base.block_shapes.
unfold bind at 1. unfold get at 1. rewrite Hb.
unfold bind at 1. unfold bind at 1. unfold modify at 1.
rewrite Hc. unfold range, GDALGetRasterCount. rewrite Nat2Z.id.
rewrite block_shapes_loop with (acc := []);
  [|exact Hh | reflexivity | simpl; lia].
simpl. rewrite firstn_all. reflexivity.
Qed.

(** A cached value is returned as it is, whatever the handle. *)
Lemma block_shapes_cached s l :
Base._block_shapes s = Some l -> Base.block_shapes s = (Ok l, s).
Proof.
intros Hb. unfold Base.block_shapes, bind, get, ret. rewrite Hb.
rewrite Hb. reflexivity.
Qed.

End Opened.

(** C4, amended: after a successful [start] the size, the driver name
    and the band count are assigned, and so are the transform and the
    CRS, which [start] reads itself; [meta] has been read, which fills
    the caches of [dtypes] and [nodatavals] when there is a band.  Only
    [block_shapes] is not cached: its first access computes the shapes
    of all bands and stores them, and later accesses return the stored
    value, also after [close]. *)
Theorem start_populates (path : string) (s' : Base.DatasetBase) :
  start (Base.init path) = (Ok tt, s') ->
  exists ds,
    GDALOpen (vsi_path path) = inl ds /\ populated_by_start ds s'.
Proof.
  intros H. unfold Base.start in H.
  apply bind_inv_ok in H. destruct H as (self & s0 & Hg & H).
  apply get_inv in Hg. destruct Hg as [-> ->].
  change (Base.name (Base.init path)) with path in H.
  destruct (GDALOpen (vsi_path path)) as [ds|[errno msg]] eqn:Eopen.
  2:{ destruct (errno =? CPLE_OpenFailed); unfold raise in H; discriminate. }
  exists ds. split; [reflexivity|].
  do 6 (apply bind_inv_ok in H;
        let u := fresh "u" in let s := fresh "s" in let Hm := fresh "Hm" in
        destruct H as (u & s & Hm & H); apply modify_inv in Hm; subst s).
  apply bind_inv_ok in H. destruct H as (t & st & Ht & H).
  unfold Base.read_transform, bind, get in Ht. simpl in Ht.
  apply ret_inv in Ht. destruct Ht as [-> ->].
  apply bind_inv_ok in H. destruct H as (ut & s1 & Hm & H).
  apply modify_inv in Hm. subst s1.
  apply bind_inv_ok in H. destruct H as (c & sc & Hc & H).
  match type of Hc with
  | _ ?st0 = _ => pose proof (read_crs_keeps (fun x => x) st0) as Kc
  end.
  rewrite Hc in Kc. simpl in Kc. subst sc. clear Hc.
  apply bind_inv_ok in H. destruct H as (uc & s2 & Hm & H).
  apply modify_inv in Hm. subst s2.
  apply bind_inv_ok in H. destruct H as (m & s4 & Hmeta & H).
  apply modify_inv in H. subst s'.
  apply (meta_populates ds) in Hmeta;
    [| unfold opened, core; simpl; repeat split; discriminate
     | reflexivity | reflexivity].
  destruct Hmeta as (Hread & Hcore & Hlen).
  unfold core in Hcore. simpl in Hcore.
  injection Hcore as Hname Hmode Hhds Hcount Hclosed Hbs Hcrs Htr Hdrv Hw Hh
    Hshape.
  unfold populated_by_start. simpl.
  split; [exact Hhds|]. split; [exact Hw|]. split; [exact Hh|].
  split; [exact Hdrv|]. split; [exact Hcount|]. split; [exact Htr|].
  split; [exists c; exact Hcrs|]. split; [exact Hread|].
  split.
  { intros Hne.
    assert (Hn0 : GDALGetRasterCount ds <> 0).
    { unfold GDALGetRasterCount. destruct (ds_bands ds); [contradiction|].
      simpl. lia. }
    destruct (Hlen Hn0) as [L1 L2].
    unfold GDALGetRasterCount in L1, L2. rewrite Nat2Z.id in L1, L2.
    split; assumption. }
  split; [exact Hbs|].
  split; [|split].
  - apply block_shapes_first; assumption.
  - apply block_shapes_cached. reflexivity.
  - reflexivity.
Qed.

End BaseLifeCycle.

(** C4, as the specification states it, fails: on the example dataset
    [start] succeeds and leaves the transform, the CRS, the band types and
    the nodata values cached; of the five attributes only the block shapes
    are not. *)
Lemma start_caches_eagerly :
  example_start (Base.init "example.tif") = (Ok tt, example_started)
  /\ Base._transform example_started
     = Some [0%Q; 1%Q; 0%Q; 5%Q; 0%Q; (-1)%Q]
  /\ Base._crs example_started = Some [("init", CStr "epsg:4326")]
  /\ Base._dtypes example_started = [ubyte]
  /\ Base._nodatavals example_started = [None]
  /\ Base._block_shapes example_started = None
  /\ ~ lazy_attributes_uncached example_started.
Proof.
  split; [vm_compute; reflexivity|].
  split; [vm_compute; reflexivity|].
  split; [vm_compute; reflexivity|].
  split; [vm_compute; reflexivity|].
  split; [vm_compute; reflexivity|].
  split; [vm_compute; reflexivity|].
  intros (H & _). vm_compute in H. discriminate.
Qed.

Lemma start_populates_witness :
  exists ds,
    (inl example_ds : gdal_dataset + Z * string) = inl ds
    /\ populated_by_start ds example_started.
Proof.
  apply (start_populates example_dtype_fwd example_dtype_ranges
           (fun path => path) (fun _ => inl example_ds)
           string (fun wkt => Some wkt) (fun _ => 0) (fun _ => "4326")
           (fun _ => None) "example.tif" example_started).
  vm_compute. reflexivity.
Defined.


(** C5: three accessors of the base class return a value on a dataset
    that has no handle and nothing cached.  On a dataset as [__init__]
    leaves it, [dtypes], [block_shapes] and [nodatavals] return the empty
    tuple instead of raising the closed-dataset error: their loops over
    [range(self._count)] do not run, and the handle is never looked at. *)
Theorem accessors_on_unopened_dataset
    (dtype_fwd : Z -> option dtype) (dtype_ranges : dtype -> option (Q * Q))
    (path : string) :
  Base.dtypes dtype_fwd (Base.init path) = (Ok [], Base.init path)
  /\ Base.block_shapes (Base.init path)
     = (Ok [], Base.set__block_shapes (Some []) (Base.init path))
  /\ Base.get_nodatavals dtype_fwd dtype_ranges (Base.init path)
     = (Ok [], Base.init path).
Proof. repeat split. Qed.

(** The other three accessors do raise on such a dataset, and so does
    [dtypes] in the reader generation of the sources. *)
Lemma count_on_unopened_dataset path :
  Base.count (Base.init path)
  = (Raise (ValueError "Can't read closed raster file"), Base.init path).
Proof. reflexivity. Qed.

Lemma crs_and_transform_on_unopened_dataset
    (H : Type) (new : string -> option H) (identify : H -> Z)
    (code : H -> string) (export : H -> option string) path :
  Base.get_crs H new identify code export (Base.init path)
  = (Raise (ValueError "Null dataset"), Base.init path)
  /\ Base.get_transform (Base.init path)
     = (Raise (ValueError "Null dataset"), Base.init path).
Proof. split; reflexivity. Qed.

Lemma reader_dtypes_on_unopened_dataset dtype_fwd path :
  Io.dtypes dtype_fwd (Io.mkWorld (Io.init path) [] [])
  = (Raise (ValueError "can't read closed raster file"),
     Io.mkWorld (Io.init path) [] []).
Proof. reflexivity. Qed.

(** ** Reading and writing bands *)

Lemma dtype_eqb_eq a b : dtype_eqb a b = true <-> a = b.
Proof.
  split.
  - destruct a, b; simpl; intros H; try discriminate; try reflexivity.
    apply String.eqb_eq in H. subst. reflexivity.
  - intros <-. destruct a; simpl; try reflexivity. apply String.eqb_refl.
Qed.

Lemma dtype_eqb_neq a b : a <> b -> dtype_eqb a b = false.
Proof.
  intros H. destruct (dtype_eqb a b) eqn:E; [|reflexivity].
  apply dtype_eqb_eq in E. contradiction.
Qed.

Lemma contains_one_based n (j : nat) :
  (j < Z.to_nat n)%nat ->
  Io.contains (map (fun i => i + 1) (range n)) (Z.of_nat j + 1) = true.
Proof.
  intros H. unfold Io.contains. apply existsb_exists.
  exists (Z.of_nat j + 1). split; [|apply Z.eqb_refl].
  apply in_map_iff. exists (Z.of_nat j). split; [reflexivity|].
  apply nth_error_In with (n := j). apply range_nth. exact H.
Qed.

Lemma index_of_one_based n :
  forall k (j : nat),
    (k <= j < k + n)%nat ->
    Io.index_of (map (fun i => i + 1) (map Z.of_nat (seq k n)))
                (Z.of_nat j + 1)
    = Ok (Z.of_nat (j - k)).
Proof.
  induction n as [|n IH]; intros k j H; [lia|]. simpl.
  destruct (Z.of_nat k + 1 =? Z.of_nat j + 1) eqn:E.
  - apply Z.eqb_eq in E. replace (j - k)%nat with 0%nat by lia. reflexivity.
  - apply Z.eqb_neq in E. rewrite IH by lia. simpl.
    f_equal. lia.
Qed.

Section ReaderBands.

Variable dtype_fwd : Z -> option dtype.
Variable GDALRasterIO :
  gdal_band -> Z -> Z -> Z -> Z -> Z -> Io.ndarray -> Z
  -> Z * gdal_band * Io.ndarray.
Variable ds : gdal_dataset.

Local Abbreviation dtypes := (Io.dtypes dtype_fwd).
Local Abbreviation read_band := (Io.read_band dtype_fwd GDALRasterIO).
Local Abbreviation write_band := (Io.write_band dtype_fwd GDALRasterIO).

Lemma set_count_same w :
  Io.on_obj (Io.set__count (Io._count (Io.obj w))) w = w.
Proof. destruct w as [[] a d]. reflexivity. Qed.

Lemma set_dtypes_same w :
  Io.on_obj (Io.set__dtypes (Io._dtypes (Io.obj w))) w = w.
Proof. destruct w as [[] a d]. reflexivity. Qed.

(** On a coherent reader [count] answers from the attribute and changes
    nothing. *)
Lemma reader_count w :
  coherent dtype_fwd ds (Io.obj w) ->
  Io.count w = (Ok (GDALGetRasterCount ds), w).
Proof.
  intros (Hh & Hc & _).
  assert (Hw : Io.on_obj (Io.set__count (GDALGetRasterCount ds)) w = w)
    by (rewrite <- Hc; apply set_count_same).
  unfold Io.count. unfold bind at 1. unfold Io.self_ at 1.
  unfold bind at 1. unfold get at 1. unfold ret at 1. cbv beta iota.
  rewrite Hh. unfold bind at 1.
  destruct (Io._count (Io.obj w) =? 0).
  - unfold Io.assign, modify. rewrite Hw.
    unfold Io.self_, bind, get, ret. cbv beta iota zeta.
    rewrite Hc. reflexivity.
  - unfold ret at 1. unfold Io.self_, bind, get, ret. cbv beta iota zeta.
    rewrite Hc. reflexivity.
Qed.

Lemma reader_indexes w :
  coherent dtype_fwd ds (Io.obj w) ->
  Io.indexes w
  = (Ok (map (fun i => i + 1) (range (GDALGetRasterCount ds))), w).
Proof.
  intros H. unfold Io.indexes, bind. rewrite (reader_count w H).
  reflexivity.
Qed.

Lemma reader_dtypes_loop n :
  forall k w,
    Io._hds (Io.obj w) = Some ds ->
    (k + n <= List.length (ds_bands ds))%nat ->
    (forall b, In b (ds_bands ds) -> dtype_fwd (band_datatype b) <> None) ->
    exists new,
      map Some new
      = map (fun b => dtype_fwd (band_datatype b))
            (firstn n (skipn k (ds_bands ds)))
      /\ for_each (map Z.of_nat (seq k n)) (fun i =>
           bind Io.self_ (fun self =>
           bind (lift (Io.dtype_fwd_item dtype_fwd
                         (Io.raster_data_type (Io._hds self) (i + 1))))
                (fun dt =>
           Io.assign (fun self =>
             Io.set__dtypes (Io._dtypes self ++ [dt])%list self)))) w
         = (Ok tt,
            Io.on_obj (Io.set__dtypes (Io._dtypes (Io.obj w) ++ new)%list) w).
Proof.
  induction n as [|n IH]; intros k w Hh Hk Hres.
  - exists []. split; [reflexivity|]. simpl.
    rewrite app_nil_r, set_dtypes_same. reflexivity.
  - destruct (nth_error (ds_bands ds) k) as [b|] eqn:Eb.
    2:{ apply nth_error_None in Eb. lia. }
    destruct (dtype_fwd (band_datatype b)) as [dt|] eqn:Edt.
    2:{ exfalso. apply (Hres b); [|exact Edt].
        apply nth_error_In with (n := k). exact Eb. }
    set (w1 := Io.on_obj (Io.set__dtypes (Io._dtypes (Io.obj w) ++ [dt])%list) w).
    destruct (IH (S k) w1) as (new & Hnew & Hrun);
      [exact Hh | lia | exact Hres |].
    exists (dt :: new). split.
    + rewrite (skipn_cons_nth _ _ _ Eb). simpl. rewrite Edt, Hnew.
      reflexivity.
    + simpl. unfold bind at 1.
      assert (Hbody :
        bind Io.self_ (fun self =>
          bind (lift (Io.dtype_fwd_item dtype_fwd
                        (Io.raster_data_type (Io._hds self) (Z.of_nat k + 1))))
               (fun dt =>
          Io.assign (fun self =>
            Io.set__dtypes (Io._dtypes self ++ [dt])%list self))) w
        = (Ok tt, w1)).
      { unfold Io.self_, Io.assign, bind, get, ret, lift, modify. simpl.
        rewrite Hh. unfold Io.raster_data_type, GDALGetRasterBand.
        assert (E : (Z.of_nat k + 1 <? 1) = false) by (apply Z.ltb_ge; lia).
        rewrite E.
        replace (Z.to_nat (Z.of_nat k + 1 - 1)) with k by lia.
        rewrite Eb. simpl. unfold Io.dtype_fwd_item. rewrite Edt.
        reflexivity. }
      rewrite Hbody. rewrite Hrun. subst w1. simpl.
      rewrite <- app_assoc. reflexivity.
Qed.

(** On a coherent reader [dtypes] returns the types of all bands and
    assigns nothing but its cache. *)
Lemma reader_dtypes w :
  coherent dtype_fwd ds (Io.obj w) ->
  exists dts,
    map Some dts = map (fun b => dtype_fwd (band_datatype b)) (ds_bands ds)
    /\ dtypes w = (Ok dts, Io.on_obj (Io.set__dtypes dts) w).
Proof.
  intros (Hh & Hc & Hres & Hcache).
  destruct (Io._dtypes (Io.obj w)) as [|d0 rest] eqn:Ed.
  - destruct (reader_dtypes_loop (List.length (ds_bands ds)) 0 w Hh
                ltac:(simpl; lia) Hres) as (new & Hnew & Hrun).
    simpl in Hnew. rewrite firstn_all in Hnew.
    exists new. split; [exact Hnew|].
    unfold Io.dtypes. unfold bind at 1. unfold Io.self_ at 1.
    unfold bind at 1. unfold get at 1. unfold ret at 1. cbv beta iota.
    rewrite Ed, Hh. simpl Io.is_nil. cbv beta iota.
    unfold bind at 1. rewrite Hc. unfold range, GDALGetRasterCount.
    rewrite Nat2Z.id. rewrite Hrun. rewrite Ed. simpl.
    reflexivity.
  - destruct Hcache as [Hc0|Hfull]; [discriminate|].
    exists (d0 :: rest). split; [exact Hfull|].
    unfold Io.dtypes, Io.self_, bind, get, ret. simpl. rewrite Ed. simpl.
    rewrite <- Ed. rewrite set_dtypes_same. reflexivity.
Qed.

Lemma nth_error_resolved dts (j : nat) b d :
  map Some dts = map (fun b => dtype_fwd (band_datatype b)) (ds_bands ds) ->
  nth_error (ds_bands ds) j = Some b ->
  dtype_fwd (band_datatype b) = Some d ->
  nth_error dts j = Some d.
Proof.
  intros Hm Hb Hd.
  assert (E : nth_error (map Some dts) j = Some (Some d)).
  { rewrite Hm, nth_error_map, Hb. simpl. rewrite Hd. reflexivity. }
  rewrite nth_error_map in E.
  destruct (nth_error dts j); simpl in E; [|discriminate].
  injection E as ->. reflexivity.
Qed.

(** The steps of [read_band] and [write_band] up to the comparison of
    the two element types. *)
Lemma reader_prelude w bidx b :
  coherent dtype_fwd ds (Io.obj w) ->
  1 <= bidx ->
  nth_error (ds_bands ds) (Z.to_nat (bidx - 1)) = Some b ->
  Io.indexes w
  = (Ok (map (fun i => i + 1) (range (GDALGetRasterCount ds))), w)
  /\ Io.contains (map (fun i => i + 1) (range (GDALGetRasterCount ds))) bidx
     = true
  /\ Io.index_of (map (fun i => i + 1) (range (GDALGetRasterCount ds))) bidx
     = Ok (bidx - 1).
Proof.
  intros Hco Hb Hn.
  assert (Hj : (Z.to_nat (bidx - 1) < List.length (ds_bands ds))%nat)
    by (apply nth_error_Some; rewrite Hn; discriminate).
  assert (Eb : bidx = Z.of_nat (Z.to_nat (bidx - 1)) + 1) by lia.
  split; [apply reader_indexes; exact Hco|]. split.
  - rewrite Eb at 1. apply contains_one_based.
    unfold GDALGetRasterCount. rewrite Nat2Z.id. exact Hj.
  - rewrite Eb at 1. unfold range.
    rewrite index_of_one_based.
    + f_equal. lia.
    + unfold GDALGetRasterCount. rewrite Nat2Z.id. lia.
Qed.

(** C6: on an open dataset, for a band index in range and a buffer whose
    element type differs from the type of that band, [read_band] and
    [write_band] raise their dtype-mismatch error; afterwards no array
    has changed, no transfer has been dispatched to the engine and the
    native dataset is as it was (the reader has at most filled its cache
    of band types). *)
Theorem dtype_mismatch_raises_before_transfer
    (w : Io.world) (bidx : Z) (ref : nat) (window : pyobj)
    (b : gdal_band) (d : dtype) (a : Io.ndarray) :
  coherent dtype_fwd ds (Io.obj w) ->
  1 <= bidx ->
  nth_error (ds_bands ds) (Z.to_nat (bidx - 1)) = Some b ->
  dtype_fwd (band_datatype b) = Some d ->
  nth_error (Io.arrays w) ref = Some a ->
  Io.arr_dtype a <> d ->
  exists w',
    read_band bidx (Some ref) window w
    = (Raise (ValueError "band and output array dtypes do not match"), w')
    /\ write_band bidx (Some ref) window w
       = (Raise (ValueError "band and srcput array dtypes do not match"), w')
    /\ Io.arrays w' = Io.arrays w
    /\ Io.dispatched w' = Io.dispatched w
    /\ Io._hds (Io.obj w') = Io._hds (Io.obj w).
Proof.
  intros Hco Hb Hn Hd Ha Hne.
  destruct (reader_prelude w bidx b Hco Hb Hn) as (Hidx & Hin & Hi).
  destruct (reader_dtypes w Hco) as (dts & Hdts & Hrun).
  assert (Hitem : list_item dts (bidx - 1) = Ok d).
  { unfold list_item.
    assert (E : (bidx - 1 <? 0) = false) by (apply Z.ltb_ge; lia).
    rewrite E, (nth_error_resolved dts _ b d Hdts Hn Hd). reflexivity. }
  assert (Hself : Io.self_ w = (Ok (Io.obj w), w)) by reflexivity.
  assert (Harr : Io.dtype_of_array ref w = (Ok (Io.arr_dtype a), w)).
  { unfold Io.dtype_of_array, bind, get. rewrite Ha. reflexivity. }
  pose proof (dtype_eqb_neq _ _ Hne) as Eneq.
  destruct Hco as (Hh & _).
  exists (Io.on_obj (Io.set__dtypes dts) w).
  split; [|split; [|repeat split]].
  - unfold Io.read_band.
    rewrite (bind_ok _ _ _ _ _ Hidx). rewrite Hin. change (negb true) with false. cbv iota.
    rewrite (bind_ok _ _ _ _ _ Hidx).
    unfold bind at 1. unfold lift at 1. rewrite Hi. cbv beta iota.
    rewrite (bind_ok _ _ _ _ _ Hself). rewrite Hh.
    unfold bind at 1. rewrite (bind_ok _ _ _ _ _ Harr).
    rewrite (bind_ok _ _ _ _ _ Hrun).
    unfold bind at 1. unfold lift at 1. rewrite Hitem. cbv beta iota.
    rewrite Eneq. reflexivity.
  - unfold Io.write_band.
    rewrite (bind_ok _ _ _ _ _ Hidx). rewrite Hin. change (negb true) with false. cbv iota.
    rewrite (bind_ok _ _ _ _ _ Hidx).
    unfold bind at 1. unfold lift at 1. rewrite Hi. cbv beta iota.
    rewrite (bind_ok _ _ _ _ _ Hself). rewrite Hh.
    unfold bind at 1. rewrite (bind_ok _ _ _ _ _ Harr).
    rewrite (bind_ok _ _ _ _ _ Hrun).
    unfold bind at 1. unfold lift at 1. rewrite Hitem. cbv beta iota.
    rewrite Eneq. reflexivity.
Qed.

(** On a closed dataset the same calls stop earlier, at the check of the
    handle, also without a transfer. *)
Lemma closed_reader_raises_first w bidx ref window :
  Io._hds (Io.obj w) = None -> Io._count (Io.obj w) <> 0 ->
  Io.contains (map (fun i => i + 1) (range (Io._count (Io.obj w)))) bidx
  = true ->
  read_band bidx (Some ref) window w
  = (Raise (ValueError "can't read closed raster file"), w).
Proof.
  intros Hh Hc Hin.
  assert (Hcount : Io.count w = (Ok (Io._count (Io.obj w)), w)).
  { unfold Io.count, Io.self_, bind, get, ret. cbv beta iota zeta.
    apply Z.eqb_neq in Hc. rewrite Hc. reflexivity. }
  assert (Hidx : Io.indexes w
                 = (Ok (map (fun i => i + 1) (range (Io._count (Io.obj w)))), w)).
  { unfold Io.indexes. rewrite (bind_ok _ _ _ _ _ Hcount). reflexivity. }
  unfold Io.read_band.
  rewrite (bind_ok _ _ _ _ _ Hidx). rewrite Hin. change (negb true) with false. cbv iota.
  rewrite (bind_ok _ _ _ _ _ Hidx).
  unfold bind at 1. unfold lift at 1.
  destruct (Io.index_of _ bidx) as [i|e] eqn:Ei.
  - cbv beta iota.
    assert (Hself : Io.self_ w = (Ok (Io.obj w), w)) by reflexivity.
    rewrite (bind_ok _ _ _ _ _ Hself). rewrite Hh. reflexivity.
  - exfalso. clear - Hin Ei.
    induction (map (fun i => i + 1) (range (Io._count (Io.obj w))))
      as [|y l IH]; simpl in *; [discriminate|].
    rewrite Z.eqb_sym in Hin.
    destruct (y =? bidx); [discriminate|]. simpl in Hin.
    destruct (Io.index_of l bidx); [discriminate|]. apply IH; auto.
Qed.

End ReaderBands.

Lemma dtype_mismatch_raises_before_transfer_witness :
  exists w',
    Io.read_band example_dtype_fwd idle_raster_io 1 (Some 0%nat) PyNone
                 example_world
    = (Raise (ValueError "band and output array dtypes do not match"), w')
    /\ Io.write_band example_dtype_fwd idle_raster_io 1 (Some 0%nat) PyNone
                     example_world
       = (Raise (ValueError "band and srcput array dtypes do not match"), w')
    /\ Io.arrays w' = Io.arrays example_world
    /\ Io.dispatched w' = Io.dispatched example_world
    /\ Io._hds (Io.obj w') = Io._hds (Io.obj example_world).
Proof.
  apply (dtype_mismatch_raises_before_transfer example_dtype_fwd
           idle_raster_io example_ds example_world 1 0%nat PyNone
           example_band ubyte (Io.zeros (5, 7) float64)).
  - unfold coherent. simpl. repeat split.
    + intros b [<-|[]]. discriminate.
    + left. reflexivity.
  - lia.
  - reflexivity.
  - reflexivity.
  - reflexivity.
  - discriminate.
Defined.

(** With matching types the same calls do transfer: one call is
    dispatched to the engine. *)
Example matching_dtype_dispatches :
  Io.dispatched
    (snd (Io.read_band example_dtype_fwd idle_raster_io 1 None PyNone
                       example_world))
  = [Io.mkCall 1 0 0 0 7 5 1%nat 1].
Proof. vm_compute. reflexivity. Qed.

(** ** PROJ.4 strings *)

(** C7: the mapping of the example is written as
    ["+proj=longlat +datum=WGS84 +no_defs"], and the parameter parser of
    [read_crs] reads that string back as the same mapping, in the same
    order. *)
Theorem longlat_round_trip (str_of_float : pyfloat -> string) :
  write_crs_proj4 str_of_float longlat_crs
  = "+proj=longlat +datum=WGS84 +no_defs"
  /\ parse_proj4 (write_crs_proj4 str_of_float longlat_crs) [] = Ok longlat_crs.
Proof. split; vm_compute; reflexivity. Qed.

(** [_osr_from_crs] first sets [wktext], so its string has one more
    parameter, which the parser reads back as a flag. *)
Example longlat_osr_string (str_of_float : pyfloat -> string) :
  osr_from_crs_proj4 str_of_float longlat_crs
  = "+proj=longlat +datum=WGS84 +no_defs +wktext".
Proof. vm_compute. reflexivity. Qed.

Example parse_numbers_and_flags :
  parse_proj4 "+proj=utm +zone=18 +lat_0=52.5 +k=1e-3 +towgs84=0,0,0 +no_defs " []
  = Ok [("proj", CStr "utm"); ("zone", CInt 18);
        ("lat_0", CFloat (Finite (105 # 2))); ("k", CFloat (round64 (1 # 1000)));
        ("towgs84", CStr "0,0,0"); ("no_defs", CBool true)].
Proof. vm_compute. reflexivity. Qed.

(** Numbers are rounded to floats before they are tested for being
    whole, and numbers too large for a float become infinite. *)
Example parse_rounds_numbers :
  parse_param "+k=1e40"
  = Ok ("k", CInt 10000000000000000303786028427003666890752)
  /\ parse_param "+k=1e-400" = Ok ("k", CInt 0)
  /\ parse_param "+k=1e400" = Ok ("k", CFloat (Infinite false))
  /\ parse_param "+k=0.1" = Ok ("k", CFloat (round64 (1 # 10))).
Proof. vm_compute. repeat split. Qed.

Example parse_two_equal_signs :
  parse_proj4 "+proj=a=b" []
  = Raise (ValueError "Unexpected proj parameter +proj=a=b").
Proof. reflexivity. Qed.

(** ** Rounding to binary64 *)

(** The operations on floats give what the processor gives: sums,
    differences, products and quotients that round up and down, ties,
    subnormal results and overflow. *)
Example arithmetic_as_on_the_machine :
  float_value 0x1.999999999999ap-4 = round64 (1 # 10)
  /\ float_value 0x1.0c6f7a0b5ed8dp-20 = round64 (1 # 1000000)
  /\ float_value (0x1.999999999999ap-4 + 0x1.999999999999ap-3)
     = fl_add (round64 (1 # 10)) (round64 (2 # 10))
  /\ float_value (0x1.2a05f1fffffffp+33 + 0x1.0c6f7a0b5ed8dp-20)
     = fl_add (float_value 0x1.2a05f1fffffffp+33) (round64 (1 # 1000000))
  /\ float_value (0x1.2a05f1fffffffp+33 - 0x1.0c6f7a0b5ed8dp-20)
     = fl_sub (float_value 0x1.2a05f1fffffffp+33) (round64 (1 # 1000000))
  /\ float_value (0x1.999999999999ap-4 * 0x1.999999999999ap-3)
     = fl_mul (round64 (1 # 10)) (round64 (2 # 10))
  /\ Ok (float_value (0x1.999999999999ap-4 / 0x1.8p+1))
     = fl_div (round64 (1 # 10)) (Finite 3)
  /\ float_value (1 + 0x1p-53) = fl_add (Finite 1) (Finite (pow2 (-53)))
  /\ float_value (0x1.0000000000001p+0 + 0x1p-53)
     = fl_add (float_value 0x1.0000000000001p+0) (Finite (pow2 (-53)))
  /\ float_value (0x1p-1074 * 0x1.8p-1)
     = fl_mul (Finite (pow2 (-1074))) (Finite (3 # 4))
  /\ float_value (0x1p-1074 * 0x1p-1)
     = fl_mul (Finite (pow2 (-1074))) (Finite (1 # 2))
  /\ float_value (0x1.fffffffffffffp+1023 + 0x1p+970)
     = fl_add (float_value 0x1.fffffffffffffp+1023) (Finite (pow2 970))
  /\ float_value (0x1.fffffffffffffp+1023 + 0x1p+969)
     = fl_add (float_value 0x1.fffffffffffffp+1023) (Finite (pow2 969))
  /\ float_value (0x1.fffffffffffffp+1023 * 0x1p+1)
     = fl_mul (float_value 0x1.fffffffffffffp+1023) (Finite 2).
Proof. vm_compute. repeat split. Qed.

Lemma pow2_pos k : (0 < pow2 k)%Q.
Proof. unfold pow2. apply Qpower_0_lt. reflexivity. Qed.

Lemma pow2_plus j k : (pow2 (j + k) == pow2 j * pow2 k)%Q.
Proof. unfold pow2. apply Qpower_plus. discriminate. Qed.

Lemma pow2_Z k : 0 <= k -> (pow2 k == inject_Z (2 ^ k))%Q.
Proof.
  intros H. unfold pow2. rewrite Zpower_Qpower by exact H. reflexivity.
Qed.

Lemma unit_roundoff_pow2 : (unit_roundoff == pow2 (-53))%Q.
Proof. vm_compute. reflexivity. Qed.

Lemma tiny_pos : (0 < tiny)%Q.
Proof. apply pow2_pos. Qed.

(** [ilog2] does not overestimate. *)
Lemma ilog2_spec q : (~ q == 0)%Q -> (pow2 (ilog2 q) <= Qabs q)%Q.
Proof.
  intros Hq. unfold ilog2.
  set (n := Z.abs (Qnum q)). set (d := Zpos (Qden q)).
  set (k := Z.log2 n - Z.log2 d).
  destruct (Qle_bool (pow2 k) (Qabs q)) eqn:E.
  - apply Qle_bool_iff. exact E.
  - assert (Hn : 0 < n).
    { subst n. destruct q as [qn qd]. unfold Qeq in Hq. simpl in *. lia. }
    assert (Hd : 0 < d) by (subst d; lia).
    destruct (Z.log2_spec n Hn) as [Hn1 _].
    destruct (Z.log2_spec d Hd) as [_ Hd2].
    pose proof (Z.log2_nonneg n) as Ha. pose proof (Z.log2_nonneg d) as Hb.
    assert (Habs : (Qabs q == inject_Z n / inject_Z d)%Q).
    { destruct q as [qn qd]. subst n d.
      unfold Qabs, Qeq, Qdiv, Qmult, Qinv, inject_Z. simpl. lia. }
    rewrite Habs.
    replace (k - 1) with (Z.log2 n + - (Z.succ (Z.log2 d))) by (subst k; lia).
    rewrite pow2_plus. unfold pow2 at 2. rewrite Qpower_opp.
    fold (pow2 (Z.succ (Z.log2 d))).
    rewrite !pow2_Z by lia.
    assert (H1 : (inject_Z (2 ^ Z.log2 n) <= inject_Z n)%Q)
      by (rewrite <- Zle_Qle; exact Hn1).
    assert (H2 : (inject_Z d < inject_Z (2 ^ Z.succ (Z.log2 d)))%Q)
      by (rewrite <- Zlt_Qlt; exact Hd2).
    assert (H3 : (0 < inject_Z d)%Q) by (rewrite <- (Zlt_Qlt 0); exact Hd).
    assert (H4 : (0 <= inject_Z (2 ^ Z.log2 n))%Q).
    { rewrite <- (Zle_Qle 0). apply Z.pow_nonneg. lia. }
    set (A := inject_Z (2 ^ Z.log2 n)) in *.
    set (B := inject_Z (2 ^ Z.succ (Z.log2 d))) in *.
    set (N := inject_Z n) in *. set (D := inject_Z d) in *.
    apply Qle_shift_div_l; [exact H3|].
    assert (H5 : (0 < B)%Q) by lra.
    assert (H6 : (A * / B * D == A * (D / B))%Q) by (field; lra).
    rewrite H6.
    assert (H7 : (D / B <= 1)%Q) by (apply Qle_shift_div_r; lra).
    assert (H8 : (A * (D / B) <= A * 1)%Q).
    { rewrite (Qmult_comm A (D / B)), (Qmult_comm A 1).
      apply Qmult_le_compat_r; assumption. }
    lra.
Qed.

Lemma round_half_even_near q :
  (q - (1 # 2) <= inject_Z (round_half_even q) <= q + (1 # 2))%Q.
Proof.
  unfold round_half_even.
  pose proof (Qfloor_le q) as H1. pose proof (Qlt_floor q) as H2.
  rewrite inject_Z_plus in H2. change (inject_Z 1) with 1%Q in H2.
  destruct (q - inject_Z (Qfloor q) ?= 1 # 2)%Q eqn:E.
  - apply Qeq_alt in E. destruct (Z.even (Qfloor q));
      [|rewrite inject_Z_plus]; change (inject_Z 1) with 1%Q; split; lra.
  - apply Qlt_alt in E. split; lra.
  - apply Qgt_alt in E. rewrite inject_Z_plus. change (inject_Z 1) with 1%Q.
    split; lra.
Qed.

(** The error of one rounding: relative [2^-53], or absolute [2^-1075]
    where the result is subnormal. *)
Lemma round64_near z r : round64 z = Finite r -> near z r.
Proof.
  unfold near, round64. destruct (Qeq_bool z 0) eqn:Ez.
  - intros H. injection H as <-. apply Qeq_bool_eq in Ez.
    assert (E : (Qabs (0 - z) == 0)%Q).
    { rewrite Ez. reflexivity. }
    rewrite E. pose proof tiny_pos. pose proof (Qabs_nonneg z).
    assert (0 <= unit_roundoff * Qabs z)%Q
      by (apply Qmult_le_0_compat; [discriminate | assumption]).
    lra.
  - apply Qeq_bool_neq in Ez.
    set (ex := Z.max (ilog2 z - 52) (-1074)).
    set (n := round_half_even (z / pow2 ex)).
    destruct (Qle_bool (pow2 1024) (Qabs (Qred (inject_Z n * pow2 ex))));
      [discriminate|].
    intros H. injection H as <-.
    assert (Er : (Qabs (Qred (inject_Z n * pow2 ex) - z)
                  == Qabs (inject_Z n * pow2 ex - z))%Q).
    { apply Qabs_wd. rewrite Qred_correct. reflexivity. }
    rewrite Er. clear Er.
    pose proof (round_half_even_near (z / pow2 ex)) as Hn. fold n in Hn.
    pose proof (pow2_pos ex) as Hp.
    assert (Hhalf : (Qabs (inject_Z n * pow2 ex - z) <= pow2 ex * (1 # 2))%Q).
    { apply Qabs_Qle_condition.
      assert (E : (z == z / pow2 ex * pow2 ex)%Q) by (field; lra).
      set (y := (z / pow2 ex)%Q) in *.
      assert (A1 : ((y - (1 # 2)) * pow2 ex <= inject_Z n * pow2 ex)%Q)
        by (apply Qmult_le_compat_r; lra).
      assert (A2 : (inject_Z n * pow2 ex <= (y + (1 # 2)) * pow2 ex)%Q)
        by (apply Qmult_le_compat_r; lra).
      assert (E1 : ((y - (1 # 2)) * pow2 ex
                    == y * pow2 ex - pow2 ex * (1 # 2))%Q) by ring.
      assert (E2 : ((y + (1 # 2)) * pow2 ex
                    == y * pow2 ex + pow2 ex * (1 # 2))%Q) by ring.
      set (w := (y * pow2 ex)%Q) in *.
      split; lra. }
    eapply Qle_trans; [exact Hhalf|].
    pose proof (ilog2_spec z Ez) as Hl.
    pose proof (Qabs_nonneg z) as Hz.
    pose proof (pow2_pos (-1075)) as Ht.
    pose proof (pow2_pos (-53)) as Hu.
    rewrite unit_roundoff_pow2. unfold tiny.
    destruct (Z.max_spec (ilog2 z - 52) (-1074)) as [[_ Em]|[_ Em]];
      fold ex in Em; rewrite Em.
    + change (pow2 (-1074) * (1 # 2))%Q with (pow2 (-1074) * pow2 (-1))%Q.
      rewrite <- pow2_plus. change (-1074 + -1) with (-1075).
      assert (0 <= pow2 (-53) * Qabs z)%Q by (apply Qmult_le_0_compat; lra).
      lra.
    + change (1 # 2)%Q with (pow2 (-1)).
      rewrite <- pow2_plus.
      replace (ilog2 z - 52 + -1) with (-53 + ilog2 z) by lia.
      rewrite pow2_plus.
      assert (pow2 (-53) * pow2 (ilog2 z) <= pow2 (-53) * Qabs z)%Q.
      { rewrite (Qmult_comm _ (pow2 (ilog2 z))), (Qmult_comm _ (Qabs z)).
        apply Qmult_le_compat_r; lra. }
      lra.
Qed.

Lemma round64_not_nan z : round64 z <> NaN.
Proof.
  unfold round64. destruct (Qeq_bool z 0); [discriminate|].
  destruct (Qle_bool _ _); discriminate.
Qed.

Lemma near_within z r B :
  near z r -> (- B <= z <= B)%Q ->
  (z - (unit_roundoff * B + tiny) <= r <= z + (unit_roundoff * B + tiny))%Q.
Proof.
  unfold near. intros H Hz.
  apply Qabs_Qle_condition in H.
  assert (Ha : (Qabs z <= B)%Q) by (apply Qabs_Qle_condition; exact Hz).
  assert (Hm : (unit_roundoff * Qabs z <= unit_roundoff * B)%Q).
  { rewrite (Qmult_comm unit_roundoff (Qabs z)), (Qmult_comm unit_roundoff B).
    apply Qmult_le_compat_r; [exact Ha | discriminate]. }
  destruct H as [H1 H2]. split; lra.
Qed.

Lemma near_scaled s z r B :
  (0 <= s)%Q -> near z r -> (- B <= s * z <= B)%Q ->
  (s * z - (unit_roundoff * B + s * tiny) <= s * r
   <= s * z + (unit_roundoff * B + s * tiny))%Q.
Proof.
  unfold near. intros Hs H Hz.
  assert (Ha : (s * Qabs z <= B)%Q).
  { assert (E : (s * Qabs z == Qabs (s * z))%Q)
      by (rewrite Qabs_Qmult, (Qabs_pos s Hs); reflexivity).
    rewrite E. apply Qabs_Qle_condition. exact Hz. }
  assert (Hb : (s * Qabs (r - z) <= s * (unit_roundoff * Qabs z + tiny))%Q).
  { rewrite (Qmult_comm s (Qabs (r - z))),
      (Qmult_comm s (unit_roundoff * Qabs z + tiny)).
    apply Qmult_le_compat_r; assumption. }
  assert (Hc : (Qabs (s * r - s * z) == s * Qabs (r - z))%Q).
  { assert (E : (s * r - s * z == s * (r - z))%Q) by ring.
    rewrite E, Qabs_Qmult, (Qabs_pos s Hs). reflexivity. }
  assert (Hd : (Qabs (s * r - s * z) <= unit_roundoff * B + s * tiny)%Q).
  { rewrite Hc. eapply Qle_trans; [exact Hb|].
    assert (E : (s * (unit_roundoff * Qabs z + tiny)
                 == unit_roundoff * (s * Qabs z) + s * tiny)%Q) by ring.
    rewrite E.
    assert (Hm : (unit_roundoff * (s * Qabs z) <= unit_roundoff * B)%Q).
    { rewrite (Qmult_comm unit_roundoff (s * Qabs z)),
        (Qmult_comm unit_roundoff B).
      apply Qmult_le_compat_r; [exact Ha | discriminate]. }
    lra. }
  apply Qabs_Qle_condition in Hd. destruct Hd as [H1 H2]. split; lra.
Qed.

Lemma near_zero z r : (z == 0)%Q -> near z r -> (- tiny <= r <= tiny)%Q.
Proof.
  intros Hz H. pose proof tiny_pos.
  destruct (near_within z r 0 H) as [H1 H2]; [rewrite Hz; split; lra|].
  rewrite Hz in H1, H2. unfold unit_roundoff in *. split; lra.
Qed.

(** What the arithmetic gives back as a finite float came from finite
    floats by one rounding. *)
Lemma fl_neg_finite x q :
  fl_neg x = Finite q -> exists p, x = Finite p /\ q = (- p)%Q.
Proof.
  destruct x as [p| |]; simpl; try discriminate.
  intros H. injection H as <-. exists p. split; reflexivity.
Qed.

Lemma fl_add_finite x y r :
  fl_add x y = Finite r ->
  exists p q, x = Finite p /\ y = Finite q /\ near (p + q) r.
Proof.
  destruct x as [p|a|], y as [q|b|]; simpl; try discriminate.
  - intros H. exists p, q. repeat split. apply round64_near. exact H.
  - destruct (Bool.eqb a b); discriminate.
Qed.

Lemma fl_sub_finite x y r :
  fl_sub x y = Finite r ->
  exists p q, x = Finite p /\ y = Finite q /\ near (p + - q) r.
Proof.
  unfold fl_sub. intros H.
  destruct (fl_add_finite _ _ _ H) as (p & q' & -> & Hy & Hn).
  destruct (fl_neg_finite _ _ Hy) as (q & -> & ->).
  exists p, q. repeat split. exact Hn.
Qed.

Lemma fl_mul_finite x y r :
  fl_mul x y = Finite r ->
  exists p q, x = Finite p /\ y = Finite q /\ near (p * q) r.
Proof.
  destruct x as [p|a|], y as [q|b|]; simpl; try discriminate.
  - intros H. exists p, q. repeat split. apply round64_near. exact H.
  - destruct (Qeq_bool p 0); discriminate.
  - destruct (Qeq_bool q 0); discriminate.
Qed.

Lemma fl_div_finite x q r :
  fl_div x (Finite q) = Ok (Finite r) ->
  exists p, x = Finite p /\ (~ q == 0)%Q /\ near (p / q) r.
Proof.
  unfold fl_div. destruct (Qeq_bool q 0) eqn:E; [discriminate|].
  apply Qeq_bool_neq in E.
  destruct x as [p|a|]; try discriminate.
  intros H. injection H as H. exists p. repeat split; [exact E|].
  apply round64_near. exact H.
Qed.

Lemma float_of_int_finite z f :
  float_of_int z = Ok f -> exists r, f = Finite r /\ near (inject_Z z) r.
Proof.
  unfold float_of_int. destruct (round64 (inject_Z z)) as [r|b|] eqn:E.
  - intros H. injection H as <-. exists r. split; [reflexivity|].
    apply round64_near. exact E.
  - discriminate.
  - exfalso. exact (round64_not_nan _ E).
Qed.

Lemma pow10_finite k f :
  pow10 k = Ok f -> exists r, f = Finite r /\ near (Qpower (10 # 1) k) r.
Proof.
  unfold pow10. destruct (round64 (Qpower (10 # 1) k)) as [r|b|] eqn:E.
  - intros H. injection H as <-. exists r. split; [reflexivity|].
    apply round64_near. exact E.
  - discriminate.
  - exfalso. exact (round64_not_nan _ E).
Qed.

Lemma math_floor_finite v z :
  math_floor v = Ok z -> exists q, v = Finite q /\ z = Qfloor q.
Proof.
  destruct v as [q| |]; simpl; try discriminate.
  intros H. injection H as <-. exists q. split; reflexivity.
Qed.

Lemma math_ceil_finite v z :
  math_ceil v = Ok z -> exists q, v = Finite q /\ z = Qceiling q.
Proof.
  destruct v as [q| |]; simpl; try discriminate.
  intros H. injection H as <-. exists q. split; reflexivity.
Qed.

(** ** Windows from world coordinates *)

Section WorldWindows.

Local Open Scope Q_scope.

(** The roundings of one index and of the bound computed from it, for a
    coordinate [v] shifted by [ev] (close to [sh], which is [eps] or
    [- eps]), an offset [c] and pixels of size [s > 0]: [X], [D] and
    [Qt] are the steps of [get_index], [idx] is the index taken from
    [Qt], and [ih], [P], [S1] and [out] are the steps of the product
    with the transform. *)
Lemma axis_pos (v ev sh eps c s X D Qt idx ih P P0 zs S1 out : Q) :
  0 < s -> 0 <= eps -> - eps <= sh <= eps ->
  sh - 3 * (unit_roundoff * eps + tiny) <= ev
  <= sh + 3 * (unit_roundoff * eps + tiny) ->
  near (v + ev) X -> near (X + - c) D -> near (D / s) Qt ->
  Qt - 1 <= idx <= Qt + 1 ->
  near idx ih -> near (ih * s) P ->
  - tiny <= P0 <= tiny ->
  zs == P + P0 -> near zs S1 -> near (S1 + c) out ->
  (idx <= Qt -> out <= v + sh + rounding_slack s (Qabs v + Qabs c + eps))
  /\ (Qt <= idx -> v + sh - rounding_slack s (Qabs v + Qabs c + eps) <= out).
Proof.
  intros Hs Heps Hsh Hev HX HD HQ Hidx Hih HP HP0 Hzs HS Hout.
  unfold rounding_slack.
  assert (Es : 16 * tiny * (1 + s) == 16 * tiny + 16 * (s * tiny)) by ring.
  rewrite Es. clear Es.
  pose proof tiny_pos as Ht.
  pose proof (Qabs_nonneg v) as HL0. pose proof (Qle_Qabs v) as HL1.
  assert (HL2 : - Qabs v <= v).
  { pose proof (Qle_Qabs (- v)) as H. rewrite Qabs_opp in H. lra. }
  pose proof (Qabs_nonneg c) as HC0. pose proof (Qle_Qabs c) as HC1.
  assert (HC2 : - Qabs c <= c).
  { pose proof (Qle_Qabs (- c)) as H. rewrite Qabs_opp in H. lra. }
  set (L := Qabs v) in *. set (C := Qabs c) in *.
  assert (Hst : 0 < s * tiny) by (apply Qmult_lt_0_compat; assumption).
  set (st := s * tiny) in *.
  unfold unit_roundoff in *.
  set (B1 := L + eps + 3 * ((1 # 9007199254740992) * eps + tiny)).
  pose proof (near_within _ _ B1 HX ltac:(subst B1; split; lra)) as HX'.
  unfold unit_roundoff in HX'.
  set (BX := B1 + (1 # 9007199254740992) * B1 + tiny).
  pose proof (near_within _ _ (BX + C) HD ltac:(subst BX B1; split; lra))
    as HD'.
  unfold unit_roundoff in HD'.
  set (BD := BX + C + (1 # 9007199254740992) * (BX + C) + tiny).
  assert (EQ : s * (D / s) == D) by (field; lra).
  pose proof (near_scaled s _ _ BD (Qlt_le_weak _ _ Hs) HQ
                ltac:(rewrite EQ; subst BD BX B1; split; lra)) as HQ'.
  rewrite EQ in HQ'. fold st in HQ'. unfold unit_roundoff in HQ'.
  assert (Hi1 : s * (Qt - 1) <= s * idx).
  { rewrite (Qmult_comm s (Qt - 1)), (Qmult_comm s idx).
    apply Qmult_le_compat_r; lra. }
  assert (Hi2 : s * idx <= s * (Qt + 1)).
  { rewrite (Qmult_comm s (Qt + 1)), (Qmult_comm s idx).
    apply Qmult_le_compat_r; lra. }
  assert (Hi3 : idx <= Qt -> s * idx <= s * Qt).
  { intros H. rewrite (Qmult_comm s Qt), (Qmult_comm s idx).
    apply Qmult_le_compat_r; lra. }
  assert (Hi4 : Qt <= idx -> s * Qt <= s * idx).
  { intros H. rewrite (Qmult_comm s Qt), (Qmult_comm s idx).
    apply Qmult_le_compat_r; lra. }
  assert (E1 : s * (Qt - 1) == s * Qt - s) by ring.
  assert (E2 : s * (Qt + 1) == s * Qt + s) by ring.
  rewrite E1 in Hi1. rewrite E2 in Hi2. clear E1 E2.
  set (sQ := s * Qt) in *. set (si := s * idx) in *.
  set (Bi := BD + (1 # 9007199254740992) * BD + st + s).
  pose proof (near_scaled s _ _ Bi (Qlt_le_weak _ _ Hs) Hih
                ltac:(fold si; subst Bi BD BX B1; split; lra)) as Hih'.
  fold si in Hih'. fold st in Hih'. unfold unit_roundoff in Hih'.
  set (sh' := s * ih) in *.
  set (Bh := Bi + (1 # 9007199254740992) * Bi + st).
  assert (E3 : ih * s == sh') by (subst sh'; ring).
  pose proof (near_within _ _ Bh HP
                ltac:(rewrite E3; subst Bh Bi BD BX B1; split; lra)) as HP'.
  rewrite E3 in HP'. unfold unit_roundoff in HP'.
  set (BP := Bh + (1 # 9007199254740992) * Bh + tiny).
  pose proof (near_within _ _ (BP + tiny) HS
                ltac:(rewrite Hzs; subst BP Bh Bi BD BX B1; split; lra))
    as HS'.
  rewrite Hzs in HS'. unfold unit_roundoff in HS'.
  set (BS := BP + tiny + (1 # 9007199254740992) * (BP + tiny) + tiny).
  pose proof (near_within _ _ (BS + C) Hout
                ltac:(subst BS BP Bh Bi BD BX B1; split; lra)) as Hout'.
  unfold unit_roundoff in Hout'.
  subst BS BP Bh Bi BD BX B1.
  split; intros H.
  - pose proof (Hi3 H). lra.
  - pose proof (Hi4 H). lra.
Qed.

(** The same for pixels of negative size [s], as the rows of a north-up
    raster have: the two directions change places. *)
Lemma axis_neg (v ev sh eps c s X D Qt idx ih P P0 zs S1 out : Q) :
  s < 0 -> 0 <= eps -> - eps <= sh <= eps ->
  sh - 3 * (unit_roundoff * eps + tiny) <= ev
  <= sh + 3 * (unit_roundoff * eps + tiny) ->
  near (v + ev) X -> near (X + - c) D -> near (D / s) Qt ->
  Qt - 1 <= idx <= Qt + 1 ->
  near idx ih -> near (ih * s) P ->
  - tiny <= P0 <= tiny ->
  zs == P + P0 -> near zs S1 -> near (S1 + c) out ->
  (idx <= Qt
   -> v + sh - rounding_slack (- s) (Qabs v + Qabs c + eps) <= out)
  /\ (Qt <= idx
      -> out <= v + sh + rounding_slack (- s) (Qabs v + Qabs c + eps)).
Proof.
  intros Hs Heps Hsh Hev HX HD HQ Hidx Hih HP HP0 Hzs HS Hout.
  unfold rounding_slack.
  assert (Es : 16 * tiny * (1 + - s) == 16 * tiny + 16 * (- s * tiny))
    by ring.
  rewrite Es. clear Es.
  pose proof tiny_pos as Ht.
  pose proof (Qabs_nonneg v) as HL0. pose proof (Qle_Qabs v) as HL1.
  assert (HL2 : - Qabs v <= v).
  { pose proof (Qle_Qabs (- v)) as H. rewrite Qabs_opp in H. lra. }
  pose proof (Qabs_nonneg c) as HC0. pose proof (Qle_Qabs c) as HC1.
  assert (HC2 : - Qabs c <= c).
  { pose proof (Qle_Qabs (- c)) as H. rewrite Qabs_opp in H. lra. }
  set (L := Qabs v) in *. set (C := Qabs c) in *.
  assert (Hn : 0 < - s) by lra.
  set (n := - s) in *.
  assert (Hst : 0 < n * tiny) by (apply Qmult_lt_0_compat; assumption).
  set (st := n * tiny) in *.
  unfold unit_roundoff in *.
  set (B1 := L + eps + 3 * ((1 # 9007199254740992) * eps + tiny)).
  pose proof (near_within _ _ B1 HX ltac:(subst B1; split; lra)) as HX'.
  unfold unit_roundoff in HX'.
  set (BX := B1 + (1 # 9007199254740992) * B1 + tiny).
  pose proof (near_within _ _ (BX + C) HD ltac:(subst BX B1; split; lra))
    as HD'.
  unfold unit_roundoff in HD'.
  set (BD := BX + C + (1 # 9007199254740992) * (BX + C) + tiny).
  assert (EQ : n * (D / s) == - D) by (subst n; field; lra).
  pose proof (near_scaled n _ _ BD (Qlt_le_weak _ _ Hn) HQ
                ltac:(rewrite EQ; subst BD BX B1; split; lra)) as HQ'.
  rewrite EQ in HQ'. fold st in HQ'. unfold unit_roundoff in HQ'.
  assert (Hi1 : n * (Qt - 1) <= n * idx).
  { rewrite (Qmult_comm n (Qt - 1)), (Qmult_comm n idx).
    apply Qmult_le_compat_r; lra. }
  assert (Hi2 : n * idx <= n * (Qt + 1)).
  { rewrite (Qmult_comm n (Qt + 1)), (Qmult_comm n idx).
    apply Qmult_le_compat_r; lra. }
  assert (Hi3 : idx <= Qt -> n * idx <= n * Qt).
  { intros H. rewrite (Qmult_comm n Qt), (Qmult_comm n idx).
    apply Qmult_le_compat_r; lra. }
  assert (Hi4 : Qt <= idx -> n * Qt <= n * idx).
  { intros H. rewrite (Qmult_comm n Qt), (Qmult_comm n idx).
    apply Qmult_le_compat_r; lra. }
  assert (E1 : n * (Qt - 1) == n * Qt - n) by ring.
  assert (E2 : n * (Qt + 1) == n * Qt + n) by ring.
  rewrite E1 in Hi1. rewrite E2 in Hi2. clear E1 E2.
  set (sQ := n * Qt) in *. set (si := n * idx) in *.
  set (Bi := BD + (1 # 9007199254740992) * BD + st + n).
  pose proof (near_scaled n _ _ Bi (Qlt_le_weak _ _ Hn) Hih
                ltac:(fold si; subst Bi BD BX B1; split; lra)) as Hih'.
  fold si in Hih'. fold st in Hih'. unfold unit_roundoff in Hih'.
  set (sh' := n * ih) in *.
  set (Bh := Bi + (1 # 9007199254740992) * Bi + st).
  assert (E3 : ih * s == - sh') by (subst sh' n; ring).
  pose proof (near_within _ _ Bh HP
                ltac:(rewrite E3; subst Bh Bi BD BX B1; split; lra)) as HP'.
  rewrite E3 in HP'. unfold unit_roundoff in HP'.
  set (BP := Bh + (1 # 9007199254740992) * Bh + tiny).
  pose proof (near_within _ _ (BP + tiny) HS
                ltac:(rewrite Hzs; subst BP Bh Bi BD BX B1; split; lra))
    as HS'.
  rewrite Hzs in HS'. unfold unit_roundoff in HS'.
  set (BS := BP + tiny + (1 # 9007199254740992) * (BP + tiny) + tiny).
  pose proof (near_within _ _ (BS + C) Hout
                ltac:(subst BS BP Bh Bi BD BX B1; split; lra)) as Hout'.
  unfold unit_roundoff in Hout'.
  subst BS BP Bh Bi BD BX B1.
  split; intros H.
  - pose proof (Hi3 H). lra.
  - pose proof (Hi4 H). lra.
Qed.

(** The factor [1.0 - 2.0 * op(0.1)] is 1 for [floor] and -1 for
    [ceil]. *)
Lemma floor_of_tenth : math_floor (round64 (1 # 10)) = Ok 0%Z.
Proof. vm_compute. reflexivity. Qed.

Lemma ceil_of_tenth : math_ceil (round64 (1 # 10)) = Ok 1%Z.
Proof. vm_compute. reflexivity. Qed.

Lemma floor_factor fo :
  float_of_int 0 = Ok fo ->
  fl_sub (Finite 1) (fl_mul (Finite 2) fo) = Finite 1.
Proof.
  intros H. vm_compute in H. injection H as <-. vm_compute. reflexivity.
Qed.

Lemma ceil_factor fo :
  float_of_int 1 = Ok fo ->
  fl_sub (Finite 1) (fl_mul (Finite 2) fo) = Finite (-1).
Proof.
  intros H. vm_compute in H. injection H as <-. vm_compute. reflexivity.
Qed.

Lemma eps_pos precision : 0 < Qpower (10 # 1) (- precision).
Proof. apply Qpower_0_lt. reflexivity. Qed.

Lemma index_eps_factor op precision o factor ev :
  op (round64 (1 # 10)) = Ok o ->
  (forall fo, float_of_int o = Ok fo ->
              fl_sub (Finite 1) (fl_mul (Finite 2) fo) = Finite factor) ->
  index_eps op precision = Ok (Finite ev) ->
  exists pv, near (Qpower (10 # 1) (- precision)) pv /\ near (pv * factor) ev.
Proof.
  intros Ho Hf. unfold index_eps.
  destruct (pow10 (- precision)) as [p|] eqn:Ep; cbn [rbind]; [|discriminate].
  rewrite Ho. cbn [rbind].
  destruct (float_of_int o) as [fo|] eqn:Efo; cbn [rbind]; [|discriminate].
  rewrite (Hf fo eq_refl). intros H. injection H as H.
  destruct (fl_mul_finite _ _ _ H) as (pv & q & -> & Hq & Hn).
  injection Hq as <-.
  destruct (pow10_finite _ _ Ep) as (r & Hr & Hp). injection Hr as <-.
  exists pv. split; assumption.
Qed.

Lemma eps_floor precision ev :
  index_eps math_floor precision = Ok (Finite ev) ->
  Qpower (10 # 1) (- precision)
  - 3 * (unit_roundoff * Qpower (10 # 1) (- precision) + tiny) <= ev
  <= Qpower (10 # 1) (- precision)
     + 3 * (unit_roundoff * Qpower (10 # 1) (- precision) + tiny).
Proof.
  intros H.
  destruct (index_eps_factor _ _ _ _ _ floor_of_tenth floor_factor H)
    as (pv & H1 & H2).
  pose proof (eps_pos precision) as He. pose proof tiny_pos as Ht.
  set (eps := Qpower (10 # 1) (- precision)) in *.
  pose proof (near_within _ _ eps H1 ltac:(split; lra)) as B1.
  unfold unit_roundoff in *.
  pose proof (near_within _ _ (eps + (1 # 9007199254740992) * eps + tiny) H2
                ltac:(split; lra)) as B2.
  unfold unit_roundoff in B2. split; lra.
Qed.

Lemma eps_ceiling precision ev :
  index_eps math_ceil precision = Ok (Finite ev) ->
  - Qpower (10 # 1) (- precision)
  - 3 * (unit_roundoff * Qpower (10 # 1) (- precision) + tiny) <= ev
  <= - Qpower (10 # 1) (- precision)
     + 3 * (unit_roundoff * Qpower (10 # 1) (- precision) + tiny).
Proof.
  intros H.
  destruct (index_eps_factor _ _ _ _ _ ceil_of_tenth ceil_factor H)
    as (pv & H1 & H2).
  pose proof (eps_pos precision) as He. pose proof tiny_pos as Ht.
  set (eps := Qpower (10 # 1) (- precision)) in *.
  pose proof (near_within _ _ eps H1 ltac:(split; lra)) as B1.
  unfold unit_roundoff in *.
  pose proof (near_within _ _ (eps + (1 # 9007199254740992) * eps + tiny) H2
                ltac:(split; lra)) as B2.
  unfold unit_roundoff in B2. split; lra.
Qed.

(** The steps of a call of [get_index] that returns. *)
Lemma get_index_finite x y t op precision row col :
  (forall v z, op v = Ok z -> exists q, v = Finite q) ->
  get_index (Finite x) (Finite y) t op precision = Ok (row, col) ->
  exists ev Y Dy Qy X Dx Qx,
    index_eps op precision = Ok (Finite ev)
    /\ near (y + - ev) Y /\ near (Y + - aff_f t) Dy
    /\ near (Dy / aff_e t) Qy /\ op (Finite Qy) = Ok row
    /\ near (x + ev) X /\ near (X + - aff_c t) Dx
    /\ near (Dx / aff_a t) Qx /\ op (Finite Qx) = Ok col.
Proof.
  intros Hop. unfold get_index.
  destruct (index_eps op precision) as [eps|] eqn:Ee; cbn [rbind];
    [|discriminate].
  destruct (fl_div (fl_sub (fl_sub (Finite y) eps) (Finite (aff_f t)))
                   (Finite (aff_e t))) as [r|] eqn:Er; cbn [rbind];
    [|discriminate].
  destruct (op r) as [row'|] eqn:Eor; cbn [rbind]; [|discriminate].
  destruct (fl_div (fl_sub (fl_add (Finite x) eps) (Finite (aff_c t)))
                   (Finite (aff_a t))) as [c|] eqn:Ec; cbn [rbind];
    [|discriminate].
  destruct (op c) as [col'|] eqn:Eoc; cbn [rbind]; [|discriminate].
  intros H. injection H as -> ->.
  destruct (Hop _ _ Eor) as (Qy & ->). destruct (Hop _ _ Eoc) as (Qx & ->).
  destruct (fl_div_finite _ _ _ Er) as (Dy & HDy & _ & NQy).
  destruct (fl_sub_finite _ _ _ HDy) as (Y & f' & HY & Hf & NDy).
  injection Hf as <-.
  destruct (fl_sub_finite _ _ _ HY) as (y' & ev & Hy & -> & NY).
  injection Hy as <-.
  destruct (fl_div_finite _ _ _ Ec) as (Dx & HDx & _ & NQx).
  destruct (fl_sub_finite _ _ _ HDx) as (X & c' & HX & Hc & NDx).
  injection Hc as <-.
  destruct (fl_add_finite _ _ _ HX) as (x' & ev' & Hx & Hev & NX).
  injection Hx as <-. injection Hev as <-.
  exists ev, Y, Dy, Qy, X, Dx, Qx. repeat split; assumption.
Qed.

(** The steps of the product of the transform with a pair of indexes. *)
Lemma apply_to_ints_finite t vx vy X Y :
  apply_to_ints t vx vy = Ok (Finite X, Finite Y) ->
  exists fx fy Pxa Pyb Sx Pxd Pye Sy,
    near (inject_Z vx) fx /\ near (inject_Z vy) fy
    /\ near (fx * aff_a t) Pxa /\ near (fy * aff_b t) Pyb
    /\ near (Pxa + Pyb) Sx /\ near (Sx + aff_c t) X
    /\ near (fx * aff_d t) Pxd /\ near (fy * aff_e t) Pye
    /\ near (Pxd + Pye) Sy /\ near (Sy + aff_f t) Y.
Proof.
  unfold apply_to_ints.
  destruct (float_of_int vx) as [fx|] eqn:Ex; cbn [rbind]; [|discriminate].
  destruct (float_of_int vy) as [fy|] eqn:Ey; cbn [rbind]; [|discriminate].
  destruct (float_of_int_finite _ _ Ex) as (qx & -> & Nx).
  destruct (float_of_int_finite _ _ Ey) as (qy & -> & Ny).
  unfold affine_apply. intros H. injection H as H1 H2.
  destruct (fl_add_finite _ _ _ H1) as (Sx & c' & HSx & Hc & NX).
  injection Hc as <-.
  destruct (fl_add_finite _ _ _ HSx) as (Pxa & Pyb & HPxa & HPyb & NSx).
  apply round64_near in HPxa, HPyb.
  destruct (fl_add_finite _ _ _ H2) as (Sy & f' & HSy & Hf & NY).
  injection Hf as <-.
  destruct (fl_add_finite _ _ _ HSy) as (Pxd & Pye & HPxd & HPye & NSy).
  apply round64_near in HPxd, HPye.
  exists qx, qy, Pxa, Pyb, Sx, Pxd, Pye, Sy. repeat split; assumption.
Qed.

Lemma floor_between q : q - 1 <= inject_Z (Qfloor q) <= q + 1.
Proof.
  pose proof (Qfloor_le q) as H1. pose proof (Qlt_floor q) as H2.
  rewrite inject_Z_plus in H2. change (inject_Z 1) with 1 in H2.
  split; lra.
Qed.

Lemma ceiling_between q : q - 1 <= inject_Z (Qceiling q) <= q + 1.
Proof.
  pose proof (Qle_ceiling q) as H1. pose proof (Qceiling_lt q) as H2.
  replace (Qceiling q - 1)%Z with (Qceiling q + -1)%Z in H2 by lia.
  rewrite inject_Z_plus in H2. change (inject_Z (-1)) with (-1) in H2.
  split; lra.
Qed.

Lemma near_zero_product f b P : b == 0 -> near (f * b) P -> - tiny <= P <= tiny.
Proof.
  intros Hb H. apply (near_zero (f * b)); [rewrite Hb; ring | exact H].
Qed.

Lemma math_floor_total_on_finite v z :
  math_floor v = Ok z -> exists q, v = Finite q.
Proof.
  intros H. destruct (math_floor_finite _ _ H) as (q & -> & _).
  exists q. reflexivity.
Qed.

Lemma math_ceil_total_on_finite v z :
  math_ceil v = Ok z -> exists q, v = Finite q.
Proof.
  intros H. destruct (math_ceil_finite _ _ H) as (q & -> & _).
  exists q. reflexivity.
Qed.

(** C3, amended: for an axis-aligned transform with [a > 0] and [e < 0]
    and a box with [left <= right] and [bottom <= top], the bounds of the
    window that [get_window] returns contain the box up to a tolerance on
    each side: [10 ** -precision], by which [get_index] moves every
    coordinate before it rounds it to an index, and the rounding of the
    float arithmetic, at most [2^-49] of the sizes of the coordinate, the
    offset and the pixel (and [2^-1071] on underflow). *)
Theorem get_window_contains_box_up_to_tolerance
    (left bottom right top : Q) (t : Affine) (precision : Z)
    (w : pyobj) (x_min y_min x_max y_max : Q) :
  aff_b t == 0 -> aff_d t == 0 -> 0 < aff_a t -> aff_e t < 0 ->
  left <= right -> bottom <= top ->
  get_window (Finite left) (Finite bottom) (Finite right) (Finite top)
             t precision = Ok w ->
  window_bounds_of t w
  = Ok (Finite x_min, Finite y_min, Finite x_max, Finite y_max) ->
  x_min <= left + tolerance precision (aff_a t) left (aff_c t)
  /\ y_min <= bottom + tolerance precision (- aff_e t) bottom (aff_f t)
  /\ right - tolerance precision (aff_a t) right (aff_c t) <= x_max
  /\ top - tolerance precision (- aff_e t) top (aff_f t) <= y_max.
Proof.
  intros Hb Hd Ha He _ _ Hg Hw.
  unfold get_window in Hg.
  destruct (get_index (Finite left) (Finite top) t math_floor precision)
    as [[r0 c0]|] eqn:G0; cbn [rbind] in Hg; [|discriminate].
  destruct (get_index (Finite right) (Finite bottom) t math_ceil precision)
    as [[r1 c1]|] eqn:G1; cbn [rbind] in Hg; [|discriminate].
  injection Hg as <-. cbn [fst snd] in Hw.
  unfold window_bounds_of in Hw.
  change (unpack_py_window (int_window r0 r1 c0 c1))
    with (Ok ((r0, r1), (c0, c1))) in Hw.
  cbn [rbind] in Hw.
  destruct (apply_to_ints t c0 r1) as [[lx ly]|] eqn:A0; cbn [rbind] in Hw;
    [|discriminate].
  destruct (apply_to_ints t c1 r0) as [[ux uy]|] eqn:A1; cbn [rbind] in Hw;
    [|discriminate].
  cbn [fst snd] in Hw. injection Hw as -> -> -> ->.
  destruct (get_index_finite _ _ _ _ _ _ _ math_floor_total_on_finite G0)
    as (ev0 & Y0 & Dy0 & Qy0 & X0 & Dx0 & Qx0
        & E0 & NY0 & NDy0 & NQy0 & Fr0 & NX0 & NDx0 & NQx0 & Fc0).
  destruct (get_index_finite _ _ _ _ _ _ _ math_ceil_total_on_finite G1)
    as (ev1 & Y1 & Dy1 & Qy1 & X1 & Dx1 & Qx1
        & E1 & NY1 & NDy1 & NQy1 & Fr1 & NX1 & NDx1 & NQx1 & Fc1).
  injection Fr0 as <-. injection Fc0 as <-.
  injection Fr1 as <-. injection Fc1 as <-.
  destruct (apply_to_ints_finite _ _ _ _ _ A0)
    as (fx0 & fy0 & Pxa0 & Pyb0 & Sx0 & Pxd0 & Pye0 & Sy0
        & Nfx0 & Nfy0 & NPxa0 & NPyb0 & NSx0 & Nxmin
        & NPxd0 & NPye0 & NSy0 & Nymin).
  destruct (apply_to_ints_finite _ _ _ _ _ A1)
    as (fx1 & fy1 & Pxa1 & Pyb1 & Sx1 & Pxd1 & Pye1 & Sy1
        & Nfx1 & Nfy1 & NPxa1 & NPyb1 & NSx1 & Nxmax
        & NPxd1 & NPye1 & NSy1 & Nymax).
  pose proof (eps_floor _ _ E0) as Bev0.
  pose proof (eps_ceiling _ _ E1) as Bev1.
  pose proof (eps_pos precision) as Heps.
  pose proof tiny_pos as Ht.
  unfold tolerance.
  set (eps := Qpower (10 # 1) (- precision)) in *.
  assert (Hsh : - eps <= eps <= eps) by (split; lra).
  assert (Hsh' : - eps <= - eps <= eps) by (split; lra).
  assert (Heps0 : 0 <= eps) by lra.
  (* x_min: the column start, taken by floor *)
  destruct (axis_pos left ev0 eps eps (aff_c t) (aff_a t) X0 Dx0 Qx0
              (inject_Z (Qfloor Qx0)) fx0 Pxa0 Pyb0 (Pxa0 + Pyb0) Sx0 x_min
              Ha Heps0 Hsh Bev0 NX0 NDx0 NQx0 (floor_between Qx0) Nfx0 NPxa0
              (near_zero_product _ _ _ Hb NPyb0) (Qeq_refl _) NSx0 Nxmin)
    as [Hxmin _].
  (* x_max: the column stop, taken by ceil *)
  destruct (axis_pos right ev1 (- eps) eps (aff_c t) (aff_a t) X1 Dx1 Qx1
              (inject_Z (Qceiling Qx1)) fx1 Pxa1 Pyb1 (Pxa1 + Pyb1) Sx1 x_max
              Ha Heps0 Hsh' Bev1 NX1 NDx1 NQx1 (ceiling_between Qx1) Nfx1
              NPxa1 (near_zero_product _ _ _ Hb NPyb1) (Qeq_refl _) NSx1
              Nxmax)
    as [_ Hxmax].
  (* y_max: the row start, taken by floor *)
  assert (Bev0' : - eps - 3 * (unit_roundoff * eps + tiny) <= - ev0
                  <= - eps + 3 * (unit_roundoff * eps + tiny))
    by (split; lra).
  assert (Bev1' : eps - 3 * (unit_roundoff * eps + tiny) <= - ev1
                  <= eps + 3 * (unit_roundoff * eps + tiny))
    by (split; lra).
  destruct (axis_neg top (- ev0) (- eps) eps (aff_f t) (aff_e t) Y0 Dy0 Qy0
              (inject_Z (Qfloor Qy0)) fy1 Pye1 Pxd1 (Pxd1 + Pye1) Sy1 y_max
              He Heps0 Hsh' Bev0' NY0 NDy0 NQy0 (floor_between Qy0) Nfy1
              NPye1 (near_zero_product _ _ _ Hd NPxd1) (Qplus_comm _ _) NSy1
              Nymax)
    as [Hymax _].
  (* y_min: the row stop, taken by ceil *)
  destruct (axis_neg bottom (- ev1) eps eps (aff_f t) (aff_e t) Y1 Dy1 Qy1
              (inject_Z (Qceiling Qy1)) fy0 Pye0 Pxd0 (Pxd0 + Pye0) Sy0 y_min
              He Heps0 Hsh Bev1' NY1 NDy1 NQy1 (ceiling_between Qy1) Nfy0
              NPye0 (near_zero_product _ _ _ Hd NPxd0) (Qplus_comm _ _) NSy0
              Nymin)
    as [_ Hymin].
  pose proof (Qfloor_le Qx0) as F1. pose proof (Qle_ceiling Qx1) as F2.
  pose proof (Qfloor_le Qy0) as F3. pose proof (Qle_ceiling Qy1) as F4.
  specialize (Hxmin F1). specialize (Hxmax F2).
  specialize (Hymax F3). specialize (Hymin F4).
  repeat split; lra.
Qed.

End WorldWindows.

(** C3, as the specification states it, fails, and in two ways.  With unit
    pixels and the default precision 6, a left edge within [10 ** -6] of
    the pixel boundary 1 is indexed to column 1, so the window starts at
    [x_min = 1], to the right of the requested left edge.  And a left
    edge one float below [10 ** 10] is a float apart from its neighbours
    by more than [10 ** -6]: adding the tolerance rounds it to
    [10 ** 10], and the window starts more than [10 ** -6] to the right
    of the requested left edge. *)
Lemma get_window_cuts_left_edge :
  (exists left,
     round64 (9999995 # 10000000) = Finite left
     /\ get_window (Finite left) (Finite (-3)) (Finite 2) (Finite 0)
                   unit_affine 6
        = Ok (int_window 0 3 1 2)
     /\ window_bounds_of unit_affine (int_window 0 3 1 2)
        = Ok (Finite 1, Finite (-3), Finite 2, Finite 0)
     /\ ~ (1 <= left)%Q)
  /\ (round64 (10000000000 - (1 # 524288))
      = Finite (5242879999999999 # 524288)
      /\ get_window (Finite (5242879999999999 # 524288)) (Finite (-3))
                    (Finite 10000000002) (Finite 0) unit_affine 6
         = Ok (int_window 0 3 10000000000 10000000002)
      /\ window_bounds_of unit_affine
           (int_window 0 3 10000000000 10000000002)
         = Ok (Finite 10000000000, Finite (-3), Finite 10000000002, Finite 0)
      /\ ~ (10000000000 <= (5242879999999999 # 524288) + (1 # 1000000))%Q).
Proof.
  split.
  - eexists. split; [vm_compute; reflexivity|].
    split; [vm_compute; reflexivity|].
    split; [vm_compute; reflexivity|].
    intros H. vm_compute in H. apply H. reflexivity.
  - split; [vm_compute; reflexivity|].
    split; [vm_compute; reflexivity|].
    split; [vm_compute; reflexivity|].
    intros H. vm_compute in H. apply H. reflexivity.
Qed.

Lemma get_window_contains_box_up_to_tolerance_witness :
  (10000000000
   <= (5242879999999999 # 524288)
      + tolerance 6 1 (5242879999999999 # 524288) 0
   /\ -3 <= -3 + tolerance 6 (- (-1)) (-3) 0
   /\ 10000000002 - tolerance 6 1 10000000002 0 <= 10000000002
   /\ 0 - tolerance 6 (- (-1)) 0 0 <= 0)%Q.
Proof.
  apply (get_window_contains_box_up_to_tolerance
           (5242879999999999 # 524288) (-3) 10000000002 0 unit_affine 6
           (int_window 0 3 10000000000 10000000002)
           10000000000 (-3) 10000000002 0);
    vm_compute; try reflexivity; discriminate.
Defined.

(** ** The reader generation of [start]

    [RasterReader.start] reads the transform and the CRS itself as well;
    it leaves the band types, the block shapes and the nodata values for
    their accessors. *)
Example reader_start_reads_transform_and_crs :
  let w :=
    snd (Io.start (fun _ _ => Some example_ds) string (fun wkt => wkt)
                  (fun _ => Some "+proj=longlat +datum=WGS84 +no_defs")
                  (fun wkt => Some wkt)
                  (Io.mkWorld (Io.init "example.tif") [] [])) in
  Io._transform (Io.obj w) = Some [0%Q; 1%Q; 0%Q; 5%Q; 0%Q; (-1)%Q]
  /\ Io._crs (Io.obj w) = Some longlat_crs
  /\ Io._crs_wkt (Io.obj w) = Some "GEOGCS[...]"
  /\ Io._dtypes (Io.obj w) = []
  /\ Io._block_shapes (Io.obj w) = []
  /\ Io._nodatavals (Io.obj w) = []
  /\ Io._closed (Io.obj w) = false.
Proof. vm_compute. repeat split. Qed.

(** * Further properties of the modelled code *)

(** ** Window utilities *)

Lemma unpack_int_window_ints r0 r1 c0 c1 :
  is_int r0 -> is_int r1 -> is_int c0 -> is_int c1 ->
  unpack_int_window (int_window r0 r1 c0 c1) = Ok ((r0, r1), (c0, c1)).
Proof.
  intros H0 H1 H2 H3. unfold unpack_int_window, int_window, mk_window.
  rewrite (as_int_ok r0 H0), (as_int_ok r1 H1), (as_int_ok c0 H2),
    (as_int_ok c1 H3).
  reflexivity.
Qed.

(** X1: when [window_shape] returns, its two numbers are the differences
    stop - start of the evaluated window, and neither is negative. *)
Theorem window_shape_nonneg (window : pyobj) (height width rows cols : Z) :
  window_shape window height width = Ok (rows, cols) ->
  0 <= rows /\ 0 <= cols
  /\ exists rs re cs ce,
       eval_window window height width = Ok (int_window rs re cs ce)
       /\ rows = re - rs /\ cols = ce - cs.
Proof.
  unfold window_shape. intros H.
  destruct (eval_window window height width) as [w1|e] eqn:E;
    simpl in H; [|discriminate].
  destruct (eval_window_result _ _ _ _ E)
    as (rs & re & cs & ce & -> & I1 & I2 & I3 & I4 & L1 & L2).
  rewrite unpack_int_window_ints in H by assumption. simpl in H.
  injection H as <- <-.
  split; [lia|]. split; [lia|].
  exists rs, re, cs, ce. repeat split; reflexivity.
Qed.

Lemma window_shape_nonneg_witness :
  0 <= 2 /\ 0 <= 10
  /\ exists rs re cs ce,
       eval_window (mk_window (PyInt (-2)) PyNone (PyInt 0) PyNone) 10 10
       = Ok (int_window rs re cs ce)
       /\ 2 = re - rs /\ 10 = ce - cs.
Proof.
  apply (window_shape_nonneg
           (mk_window (PyInt (-2)) PyNone (PyInt 0) PyNone) 10 10 2 10).
  reflexivity.
Defined.

Lemma eval_bound_negative v d dim n :
  is_int v -> is_int dim -> v < 0 -> 0 <= dim ->
  eval_bound (PyInt v) d dim n = Ok (v + dim).
Proof.
  intros Iv Id Hv Hd. unfold eval_bound, py_or. simpl.
  destruct (v =? 0) eqn:E; [apply Z.eqb_eq in E; lia|]. simpl.
  rewrite (is_intb_true v Iv). simpl.
  destruct (v <? 0) eqn:L; [|apply Z.ltb_ge in L; lia].
  destruct (dim <? 0) eqn:D; [apply Z.ltb_lt in D; lia|].
  rewrite add_int_exact by assumption. reflexivity.
Qed.

Lemma eval_bound_absent_stop dim n :
  is_int dim -> 0 <= dim -> eval_bound PyNone dim dim n = Ok dim.
Proof.
  intros Id Hd. unfold eval_bound, py_or. simpl.
  rewrite (is_intb_true dim Id). simpl.
  destruct (dim <? 0) eqn:L; [apply Z.ltb_lt in L; lia|]. reflexivity.
Qed.

(** X2: negative bounds count from the far edge.  With a height and a
    width that are not negative, a window of four negative C ints in
    ascending order on each axis is evaluated by adding the dimension of
    the axis to each bound, and a negative start with an absent stop runs
    to the dimension. *)
Theorem eval_window_negative_bounds (rs re cs ce height width : Z) :
  is_int rs -> is_int re -> is_int cs -> is_int ce ->
  is_int height -> is_int width -> 0 <= height -> 0 <= width ->
  rs <= re < 0 -> cs <= ce < 0 ->
  eval_window (int_window rs re cs ce) height width
  = Ok (int_window (rs + height) (re + height) (cs + width) (ce + width))
  /\ eval_window (mk_window (PyInt rs) PyNone (PyInt cs) PyNone) height width
     = Ok (int_window (rs + height) height (cs + width) width).
Proof.
  intros Irs Ire Ics Ice Ih Iw Hh Hw Hr Hc. split.
  - unfold eval_window, int_window, mk_window, unpack_window.
    rewrite (eval_bound_negative rs 0 height "height") by (assumption || lia).
    simpl.
    rewrite (eval_bound_negative re height height "height")
      by (assumption || lia).
    simpl.
    assert (G1 : (re + height >=? rs + height) = true)
      by (apply Z.geb_le; lia).
    rewrite G1. simpl.
    rewrite (eval_bound_negative cs 0 width "width") by (assumption || lia).
    simpl.
    rewrite (eval_bound_negative ce width width "width")
      by (assumption || lia).
    simpl.
    assert (G2 : (ce + width >=? cs + width) = true)
      by (apply Z.geb_le; lia).
    rewrite G2. reflexivity.
  - unfold eval_window, int_window, mk_window, unpack_window.
    rewrite (eval_bound_negative rs 0 height "height") by (assumption || lia).
    simpl.
    rewrite (eval_bound_absent_stop height "height") by assumption. simpl.
    assert (G1 : (height >=? rs + height) = true) by (apply Z.geb_le; lia).
    rewrite G1. simpl.
    rewrite (eval_bound_negative cs 0 width "width") by (assumption || lia).
    simpl.
    rewrite (eval_bound_absent_stop width "width") by assumption. simpl.
    assert (G2 : (width >=? cs + width) = true) by (apply Z.geb_le; lia).
    rewrite G2. reflexivity.
Qed.

Lemma eval_window_negative_bounds_witness :
  eval_window (int_window (-4) (-1) (-3) (-2)) 10 10
  = Ok (int_window 6 9 7 8)
  /\ eval_window (mk_window (PyInt (-4)) PyNone (PyInt (-3)) PyNone) 10 10
     = Ok (int_window 6 10 7 10).
Proof.
  apply (eval_window_negative_bounds (-4) (-1) (-3) (-2) 10 10);
    unfold is_int, INT_MIN, INT_MAX; lia.
Defined.

(** X3: a negative row start cannot be resolved against a height that is
    itself negative (unknown): [eval_window] raises the invalid-height
    error whatever the other bounds are, and so does [window_shape], whose
    height and width default to -1. *)
Theorem eval_window_needs_dimension
    (v : Z) (r1 c0 c1 : pyobj) (height width : Z) :
  is_int v -> v < 0 -> height < 0 ->
  eval_window (mk_window (PyInt v) r1 c0 c1) height width
  = Raise (ValueError ("invalid height: " ++ fmt_d height))
  /\ window_shape (mk_window (PyInt v) r1 c0 c1) (-1) (-1)
     = Raise (ValueError "invalid height: -1").
Proof.
  intros Iv Hv Hh.
  assert (E : forall dim, dim < 0 ->
            eval_bound (PyInt v) 0 dim "height"
            = Raise (ValueError ("invalid height: " ++ fmt_d dim))).
  { intros dim Hd. unfold eval_bound, py_or. simpl.
    destruct (v =? 0) eqn:E0; [apply Z.eqb_eq in E0; lia|]. simpl.
    rewrite (is_intb_true v Iv). simpl.
    destruct (v <? 0) eqn:L; [|apply Z.ltb_ge in L; lia].
    destruct (dim <? 0) eqn:D; [|apply Z.ltb_ge in D; lia].
    reflexivity. }
  split.
  - unfold eval_window, mk_window, unpack_window. rewrite (E height Hh).
    reflexivity.
  - unfold window_shape, eval_window, mk_window, unpack_window.
    rewrite (E (-1)) by lia. reflexivity.
Qed.

Lemma eval_window_needs_dimension_witness :
  eval_window (mk_window (PyInt (-2)) PyNone PyNone PyNone) (-1) 10
  = Raise (ValueError ("invalid height: " ++ fmt_d (-1)))
  /\ window_shape (mk_window (PyInt (-2)) PyNone PyNone PyNone) (-1) (-1)
     = Raise (ValueError "invalid height: -1").
Proof.
  apply (eval_window_needs_dimension (-2) PyNone PyNone PyNone (-1) 10);
    unfold is_int, INT_MIN, INT_MAX; lia.
Defined.

Lemma is_int_between lo hi v : is_int lo -> is_int hi -> lo <= v <= hi -> is_int v.
Proof. unfold is_int. lia. Qed.

Lemma is_int_0 : is_int 0.
Proof. unfold is_int, INT_MIN, INT_MAX. lia. Qed.

(** X4: cropping twice is cropping once, and cropping keeps the order of
    the two bounds of an axis: for C ints and a height and width that are
    not negative, the cropped window is returned unchanged by a second
    [crop_window], and [start <= stop] before implies [start <= stop]
    after. *)
Theorem crop_window_idempotent (r0 r1 c0 c1 height width : Z) :
  is_int r0 -> is_int r1 -> is_int c0 -> is_int c1 ->
  is_int height -> is_int width -> 0 <= height -> 0 <= width ->
  exists a b c d,
    crop_window (int_window r0 r1 c0 c1) height width = Ok (int_window a b c d)
    /\ crop_window (int_window a b c d) height width = Ok (int_window a b c d)
    /\ (r0 <= r1 -> a <= b) /\ (c0 <= c1 -> c <= d).
Proof.
  intros H0 H1 H2 H3 Ih Iw Hh Hw.
  exists (Z.min (Z.max r0 0) height), (Z.max 0 (Z.min r1 height)),
         (Z.min (Z.max c0 0) width), (Z.max 0 (Z.min c1 width)).
  split; [apply crop_window_value; assumption|].
  split; [|split; lia].
  rewrite crop_window_value;
    try (apply (is_int_between 0 height); [apply is_int_0 | assumption | lia]);
    try (apply (is_int_between 0 width); [apply is_int_0 | assumption | lia]).
  replace (Z.min (Z.max (Z.min (Z.max r0 0) height) 0) height)
    with (Z.min (Z.max r0 0) height) by lia.
  replace (Z.max 0 (Z.min (Z.max 0 (Z.min r1 height)) height))
    with (Z.max 0 (Z.min r1 height)) by lia.
  replace (Z.min (Z.max (Z.min (Z.max c0 0) width) 0) width)
    with (Z.min (Z.max c0 0) width) by lia.
  replace (Z.max 0 (Z.min (Z.max 0 (Z.min c1 width)) width))
    with (Z.max 0 (Z.min c1 width)) by lia.
  reflexivity.
Qed.

Lemma crop_window_idempotent_witness :
  exists a b c d,
    crop_window (int_window (-5) 15 (-3) 20) 10 10 = Ok (int_window a b c d)
    /\ crop_window (int_window a b c d) 10 10 = Ok (int_window a b c d)
    /\ (-5 <= 15 -> a <= b) /\ (-3 <= 20 -> c <= d).
Proof.
  apply (crop_window_idempotent (-5) 15 (-3) 20 10 10);
    unfold is_int, INT_MIN, INT_MAX; lia.
Defined.

(** X5: the region that [checksum] hands to the engine for a window lies
    within the raster.  Whenever the offsets and sizes are computed, with a
    height and width that are not negative, the offsets and sizes are not
    negative and offset + size does not exceed the dimension of the
    axis. *)
Theorem checksum_extent_within
    (window : pyobj) (height width xoff yoff xsize ysize : Z) :
  is_int height -> is_int width -> 0 <= height -> 0 <= width ->
  checksum_extent window height width = Ok (xoff, yoff, xsize, ysize) ->
  0 <= xoff /\ 0 <= xsize /\ xoff + xsize <= width
  /\ 0 <= yoff /\ 0 <= ysize /\ yoff + ysize <= height.
Proof.
  intros Ih Iw Hh Hw H. unfold checksum_extent in H.
  destruct (eval_window window height width) as [w1|e] eqn:E;
    simpl in H; [|discriminate].
  destruct (eval_window_result _ _ _ _ E)
    as (rs & re & cs & ce & -> & I1 & I2 & I3 & I4 & L1 & L2).
  rewrite crop_window_value in H by assumption. simpl in H.
  destruct (is_intb (Z.min (Z.max cs 0) width)); simpl in H; [|discriminate].
  destruct (is_intb (Z.max 0 (Z.min ce width) - Z.min (Z.max cs 0) width));
    simpl in H; [|discriminate].
  destruct (is_intb (Z.min (Z.max rs 0) height)); simpl in H; [|discriminate].
  destruct (is_intb (Z.max 0 (Z.min re height) - Z.min (Z.max rs 0) height));
    simpl in H; [|discriminate].
  injection H as <- <- <- <-. lia.
Qed.

Lemma checksum_extent_within_witness :
  0 <= 3 /\ 0 <= 7 /\ 3 + 7 <= 10 /\ 0 <= 8 /\ 0 <= 2 /\ 8 + 2 <= 10.
Proof.
  apply (checksum_extent_within
           (mk_window (PyInt (-2)) (PyInt 50) (PyInt 3) PyNone) 10 10 3 8 7 2);
    try (unfold is_int, INT_MIN, INT_MAX; lia).
  reflexivity.
Defined.

(** X6: on a well-formed window the two generations of [eval_window]
    agree, in their results and in the errors they raise. *)
Theorem eval_window_generations_agree
    (r0 r1 c0 c1 : pyobj) (height width : Z) :
  Io.eval_window (mk_window r0 r1 c0 c1) height width
  = eval_window (mk_window r0 r1 c0 c1) height width.
Proof.
  unfold Io.eval_window, eval_window, mk_window, unpack_window. simpl.
  destruct (eval_bound r0 0 height "height") as [rs|]; simpl; [|reflexivity].
  destruct (eval_bound r1 height height "height") as [re|]; simpl;
    [|reflexivity].
  destruct (negb (re >=? rs)); [reflexivity|].
  destruct (eval_bound c0 0 width "width") as [cs|]; simpl; [|reflexivity].
  destruct (eval_bound c1 width width "width") as [ce|]; simpl;
    reflexivity.
Qed.

(** ** Block windows, continued *)

Lemma block_shapes_extent s :
  Base.height (snd (Base.block_shapes s)) = Base.height s
  /\ Base.width (snd (Base.block_shapes s)) = Base.width s.
Proof.
  pose proof (block_shapes_keeps_extent s) as K. simpl in K.
  injection K as Kh Kw. split; assumption.
Qed.

(** What [block_windows] computes once the block shape is chosen. *)
Lemma block_windows_run
    (self self' : Base.DatasetBase) (shapes : list (Z * Z))
    (bidx h w height width : Z) :
  Base.block_shapes self = (Ok shapes, self') ->
  1 <= bidx ->
  nth_error shapes (Z.to_nat (bidx - 1)) = Some (h, w) ->
  Base.height self = Some height -> Base.width self = Some width ->
  0 < h -> 0 < w ->
  Base.block_windows bidx self
  = (Ok (Base.block_windows_loop h w height width
           (ceil_div height h) (ceil_div width w)), self').
Proof.
  intros Hs Hb Hn Hht Hwd Hh Hw.
  destruct (block_shapes_extent self) as [Kh Kw].
  rewrite Hs in Kh, Kw. simpl in Kh, Kw.
  unfold Base.block_windows.
  rewrite (bind_ok _ _ _ _ _ Hs).
  assert (B : (bidx <? 1) = false) by (apply Z.ltb_ge; lia).
  rewrite B.
  unfold bind at 1. unfold ret at 1.
  unfold list_item.
  assert (B' : (bidx - 1 <? 0) = false) by (apply Z.ltb_ge; lia).
  rewrite B', Hn.
  unfold bind at 1. unfold lift at 1.
  unfold bind at 1. unfold get at 1.
  rewrite Kh, Kw, Hht, Hwd.
  unfold divmod.
  assert (Eh : (h =? 0) = false) by (apply Z.eqb_neq; lia).
  assert (Ew : (w =? 0) = false) by (apply Z.eqb_neq; lia).
  rewrite Eh, Ew.
  unfold bind, lift, ret. simpl.
  rewrite !divmod_ceil by assumption. reflexivity.
Qed.

Lemma inhomogeneous_true shapes :
  Base.inhomogeneous shapes = true <->
  exists s1 s2, In s1 shapes /\ In s2 shapes /\ s1 <> s2.
Proof.
  destruct shapes as [|[h w] rest]; simpl.
  - split; [discriminate | intros (s1 & _ & [] & _)].
  - rewrite existsb_exists. split.
    + intros ([h' w'] & Hin & Hne). simpl in Hne.
      exists (h, w), (h', w'). split; [left; reflexivity|].
      split; [right; exact Hin|].
      intros E. injection E as <- <-. rewrite !Z.eqb_refl in Hne. discriminate.
    + intros (s1 & s2 & H1 & H2 & Hne).
      assert (D : forall s : Z * Z, s <> (h, w) ->
                negb ((fst s =? h) && (snd s =? w)) = true).
      { intros [a b] Hs. simpl.
        destruct (a =? h) eqn:Ea; [|reflexivity].
        destruct (b =? w) eqn:Eb; [|reflexivity].
        apply Z.eqb_eq in Ea, Eb. subst. contradiction. }
      destruct (Z.eq_dec (fst s1) h) as [E1|N1];
        [destruct (Z.eq_dec (snd s1) w) as [E1'|N1']|].
      * assert (Es1 : s1 = (h, w)) by (destruct s1; simpl in *; congruence).
        subst s1. destruct H2 as [<-|H2]; [contradiction|].
        exists s2. split; [exact H2|]. apply D. congruence.
      * destruct H1 as [<-|H1]; [simpl in N1'; contradiction|].
        exists s1. split; [exact H1|]. apply D. intros ->. contradiction.
      * destruct H1 as [<-|H1]; [simpl in N1; contradiction|].
        exists s1. split; [exact H1|]. apply D. intros ->. contradiction.
Qed.

(** X7: without a band index (an index below 1), [block_windows] raises
    [ValueError] when two bands have different block shapes, and otherwise
    yields what it yields for band 1. *)
Theorem block_windows_without_index
    (self self' : Base.DatasetBase) (shapes : list (Z * Z)) (bidx : Z) :
  Base.block_shapes self = (Ok shapes, self') ->
  bidx < 1 ->
  ((exists s1 s2, In s1 shapes /\ In s2 shapes /\ s1 <> s2) ->
   Base.block_windows bidx self
   = (Raise (ValueError
       "A band index must be provided when band block shapesare inhomogeneous"),
      self'))
  /\ ((forall s1 s2, In s1 shapes -> In s2 shapes -> s1 = s2) ->
      Base.block_windows bidx self = Base.block_windows 1 self).
Proof.
  intros Hs Hb.
  assert (B : (bidx <? 1) = true) by (apply Z.ltb_lt; lia).
  split.
  - intros Hex. apply inhomogeneous_true in Hex.
    unfold Base.block_windows. rewrite (bind_ok _ _ _ _ _ Hs).
    rewrite B, Hex. reflexivity.
  - intros Hall.
    assert (Hhom : Base.inhomogeneous shapes = false).
    { destruct (Base.inhomogeneous shapes) eqn:E; [|reflexivity].
      apply inhomogeneous_true in E. destruct E as (s1 & s2 & H1 & H2 & Hne).
      exfalso. apply Hne. apply Hall; assumption. }
    unfold Base.block_windows. rewrite !(bind_ok _ _ _ _ _ Hs).
    rewrite B, Hhom. reflexivity.
Qed.

Lemma block_windows_without_index_witness :
  ((exists s1 s2, In s1 [(2, 3)] /\ In s2 [(2, 3)] /\ s1 <> s2) ->
   Base.block_windows 0 example_started
   = (Raise (ValueError
       "A band index must be provided when band block shapesare inhomogeneous"),
      Base.set__block_shapes (Some [(2, 3)]) example_started))
  /\ ((forall s1 s2, In s1 [(2, 3)] -> In s2 [(2, 3)] -> s1 = s2) ->
      Base.block_windows 0 example_started
      = Base.block_windows 1 example_started).
Proof.
  apply (block_windows_without_index example_started
           (Base.set__block_shapes (Some [(2, 3)]) example_started)
           [(2, 3)] 0).
  - vm_compute. reflexivity.
  - lia.
Defined.

(** X8: every window that [block_windows] yields can be passed on as it
    is: [eval_window] and [crop_window] for the height and width of the
    dataset both return it unchanged. *)
Theorem block_windows_are_evaluated
    (self self' : Base.DatasetBase) (shapes : list (Z * Z))
    (bidx h w height width : Z) :
  Base.block_shapes self = (Ok shapes, self') ->
  1 <= bidx ->
  nth_error shapes (Z.to_nat (bidx - 1)) = Some (h, w) ->
  Base.height self = Some height -> Base.width self = Some width ->
  0 < h -> 0 < w -> 0 < height -> 0 < width ->
  is_int height -> is_int width ->
  exists items,
    Base.block_windows bidx self = (Ok items, self')
    /\ forall it, In it items ->
         eval_window (snd it) height width = Ok (snd it)
         /\ crop_window (snd it) height width = Ok (snd it).
Proof.
  intros Hs Hb Hn Hht Hwd Hh Hw Hheight Hwidth Ih Iw.
  exists (Base.block_windows_loop h w height width
            (ceil_div height h) (ceil_div width w)).
  split; [apply block_windows_run with (shapes := shapes); assumption|].
  intros it Hin. apply In_nth_error in Hin. destruct Hin as [k Hk].
  destruct (tiling_decompose h w height width Hh Hw Hheight Hwidth _ _ Hk)
    as (j & i & Hj & Hi & _ & ->).
  pose proof (ceil_div_bounds height h Hh) as Bh.
  pose proof (ceil_div_bounds width w Hw) as Bw.
  unfold block_at. cbn [snd].
  assert (R0 : 0 <= j * h < height) by nia.
  assert (C0 : 0 <= i * w < width) by nia.
  assert (R1 : j * h < Z.min ((j + 1) * h) height <= height) by lia.
  assert (C1 : i * w < Z.min ((i + 1) * w) width <= width) by lia.
  assert (I1 : is_int (j * h))
    by (apply (is_int_between 0 height); [apply is_int_0|assumption|lia]).
  assert (I2 : is_int (Z.min ((j + 1) * h) height))
    by (apply (is_int_between 0 height); [apply is_int_0|assumption|lia]).
  assert (I3 : is_int (i * w))
    by (apply (is_int_between 0 width); [apply is_int_0|assumption|lia]).
  assert (I4 : is_int (Z.min ((i + 1) * w) width))
    by (apply (is_int_between 0 width); [apply is_int_0|assumption|lia]).
  split.
  - apply eval_window_fixed; try assumption; lia.
  - rewrite crop_window_value by assumption.
    replace (Z.min (Z.max (j * h) 0) height) with (j * h) by lia.
    replace (Z.max 0 (Z.min (Z.min ((j + 1) * h) height) height))
      with (Z.min ((j + 1) * h) height) by lia.
    replace (Z.min (Z.max (i * w) 0) width) with (i * w) by lia.
    replace (Z.max 0 (Z.min (Z.min ((i + 1) * w) width) width))
      with (Z.min ((i + 1) * w) width) by lia.
    reflexivity.
Qed.

Lemma block_windows_are_evaluated_witness :
  exists items,
    Base.block_windows 1 example_started
    = (Ok items, Base.set__block_shapes (Some [(2, 3)]) example_started)
    /\ forall it, In it items ->
         eval_window (snd it) 5 7 = Ok (snd it)
         /\ crop_window (snd it) 5 7 = Ok (snd it).
Proof.
  apply (block_windows_are_evaluated example_started
           (Base.set__block_shapes (Some [(2, 3)]) example_started)
           [(2, 3)] 1 2 3 5 7);
    try lia; try (unfold is_int, INT_MIN, INT_MAX; lia);
    vm_compute; reflexivity.
Defined.

(** ** Windows from world coordinates, continued *)

Lemma crop_window_inv a b c d height width w :
  crop_window (int_window a b c d) height width = Ok w ->
  w = int_window (Z.min (Z.max a 0) height) (Z.max 0 (Z.min b height))
                 (Z.min (Z.max c 0) width) (Z.max 0 (Z.min d width)).
Proof.
  unfold crop_window, int_window, mk_window, unpack_int_window. simpl.
  destruct (is_intb a); simpl; [|discriminate].
  destruct (is_intb b); simpl; [|discriminate].
  destruct (is_intb c); simpl; [|discriminate].
  destruct (is_intb d); simpl; [|discriminate].
  intros H. injection H as <-. reflexivity.
Qed.

Lemma get_window_shape left bottom right top t precision w :
  get_window left bottom right top t precision = Ok w ->
  exists a b c d, w = int_window a b c d.
Proof.
  unfold get_window. intros H.
  destruct (get_index left top t math_floor precision) as [[r0 c0]|];
    cbn [rbind] in H; [|discriminate].
  destruct (get_index right bottom t math_ceil precision) as [[r1 c1]|];
    cbn [rbind] in H; [|discriminate].
  injection H as <-. exists r0, r1, c0, c1. reflexivity.
Qed.

(** X9: [window] with [boundless=False] is limited to the extent of the
    dataset.  Whenever it returns, for a dataset whose height and width
    are not negative, the window it returns has all row bounds between 0
    and the height and all column bounds between 0 and the width. *)
Theorem window_limited_to_extent
    (s s' : Base.DatasetBase) (left bottom right top : pyfloat) (w : pyobj)
    (h wd : Z) :
  Base.window left bottom right top false s = (Ok w, s') ->
  Base.height s = Some h -> Base.width s = Some wd ->
  0 <= h -> 0 <= wd ->
  exists r0 r1 c0 c1,
    w = int_window r0 r1 c0 c1
    /\ 0 <= r0 <= h /\ 0 <= r1 <= h /\ 0 <= c0 <= wd /\ 0 <= c1 <= wd.
Proof.
  intros H Hh Hw Ph Pw. unfold Base.window in H.
  apply bind_inv_ok in H. destruct H as (t & s1 & Ha & H).
  pose proof (affine_keeps (fun s => (Base.height s, Base.width s))
                ltac:(reflexivity) s) as K.
  rewrite Ha in K. simpl in K. injection K as Kh Kw.
  apply bind_inv_ok in H. destruct H as (w0 & s2 & Hg & H).
  apply lift_inv in Hg. destruct Hg as [Hg ->].
  apply bind_inv_ok in H. destruct H as (self & s3 & Hget & H).
  apply get_inv in Hget. destruct Hget as [-> ->].
  rewrite Kh, Kw, Hh, Hw in H.
  apply lift_inv in H. destruct H as [Hc _].
  destruct (get_window_shape _ _ _ _ _ _ _ Hg) as (a & b & c & d & ->).
  apply crop_window_inv in Hc. subst w.
  eexists. eexists. eexists. eexists. split; [reflexivity|]. lia.
Qed.

Lemma window_limited_to_extent_witness :
  exists r0 r1 c0 c1,
    int_window 0 4 0 7 = int_window r0 r1 c0 c1
    /\ 0 <= r0 <= 5 /\ 0 <= r1 <= 5 /\ 0 <= c0 <= 7 /\ 0 <= c1 <= 7.
Proof.
  apply (window_limited_to_extent example_started example_started
           (Finite (1 # 2)) (Finite (3 # 2)) (Finite 9) (Finite (9 # 2))
           (int_window 0 4 0 7) 5 7);
    try lia; vm_compute; reflexivity.
Defined.

(** ** The life cycle of the base class, continued *)

Section BaseAfterStart.

Variable dtype_fwd : Z -> option dtype.
Variable dtype_ranges : dtype -> option (Q * Q).
Variable vsi_path : string -> string.
Variable GDALOpen : string -> gdal_dataset + (Z * string).
Variable OGRSpatialReferenceH : Type.
Variable OSRNewSpatialReference : string -> option OGRSpatialReferenceH.
Variable OSRAutoIdentifyEPSG : OGRSpatialReferenceH -> Z.
Variable OSRGetAuthorityCode : OGRSpatialReferenceH -> string.
Variable OSRExportToProj4 : OGRSpatialReferenceH -> option string.

Local Abbreviation read_crs :=
  (Base.read_crs OGRSpatialReferenceH OSRNewSpatialReference
     OSRAutoIdentifyEPSG OSRGetAuthorityCode OSRExportToProj4).
Local Abbreviation get_crs :=
  (Base.get_crs OGRSpatialReferenceH OSRNewSpatialReference
     OSRAutoIdentifyEPSG OSRGetAuthorityCode OSRExportToProj4).
Local Abbreviation dtypes := (Base.dtypes dtype_fwd).
Local Abbreviation get_nodatavals :=
  (Base.get_nodatavals dtype_fwd dtype_ranges).
Local Abbreviation start :=
  (Base.start dtype_fwd dtype_ranges vsi_path GDALOpen OGRSpatialReferenceH
     OSRNewSpatialReference OSRAutoIdentifyEPSG OSRGetAuthorityCode
     OSRExportToProj4).


(** What a successful [start] leaves behind, as far as the accessors need
    it after [close]. *)
Lemma start_ok_state (path : string) (s' : Base.DatasetBase) :
  start (Base.init path) = (Ok tt, s') ->
  exists ds,
    GDALOpen (vsi_path path) = inl ds
    /\ Base._hds s' = Some ds
    /\ Base._count s' = GDALGetRasterCount ds
    /\ Base._read s' = true
    /\ Base._closed s' = false
    /\ (GDALGetRasterCount ds <> 0 ->
        List.length (Base._dtypes s') = Z.to_nat (GDALGetRasterCount ds)
        /\ List.length (Base._nodatavals s')
           = Z.to_nat (GDALGetRasterCount ds)).
Proof.
  intros H. unfold Base.start in H.
  apply bind_inv_ok in H. destruct H as (self & s0 & Hg & H).
  apply get_inv in Hg. destruct Hg as [-> ->].
  change (Base.name (Base.init path)) with path in H.
  destruct (GDALOpen (vsi_path path)) as [ds|[errno msg]] eqn:Eopen.
  2:{ destruct (errno =? CPLE_OpenFailed); unfold raise in H; discriminate. }
  exists ds. split; [reflexivity|].
  do 6 (apply bind_inv_ok in H;
        let u := fresh "u" in let s := fresh "s" in let Hm := fresh "Hm" in
        destruct H as (u & s & Hm & H); apply modify_inv in Hm; subst s).
  apply bind_inv_ok in H. destruct H as (t & st & Ht & H).
  unfold Base.read_transform, bind, get in Ht. simpl in Ht.
  apply ret_inv in Ht. destruct Ht as [-> ->].
  apply bind_inv_ok in H. destruct H as (ut & s1 & Hm & H).
  apply modify_inv in Hm. subst s1.
  apply bind_inv_ok in H. destruct H as (c & sc & Hc & H).
  match type of Hc with
  | _ ?st0 = _ =>
      pose proof (read_crs_keeps OGRSpatialReferenceH OSRNewSpatialReference
                    OSRAutoIdentifyEPSG OSRGetAuthorityCode OSRExportToProj4
                    (fun x => x) st0) as Kc
  end.
  rewrite Hc in Kc. simpl in Kc. subst sc. clear Hc.
  apply bind_inv_ok in H. destruct H as (uc & s2 & Hm & H).
  apply modify_inv in Hm. subst s2.
  apply bind_inv_ok in H. destruct H as (m & s4 & Hmeta & H).
  apply modify_inv in H. subst s'.
  apply (meta_populates dtype_fwd dtype_ranges OGRSpatialReferenceH
           OSRNewSpatialReference OSRAutoIdentifyEPSG OSRGetAuthorityCode
           OSRExportToProj4 ds) in Hmeta;
    [| unfold opened, core; simpl; repeat split; discriminate
     | reflexivity | reflexivity].
  destruct Hmeta as (Hread & Hcore & Hlen).
  unfold core in Hcore. simpl in Hcore.
  injection Hcore as Hname Hmode Hhds Hcount Hclosed Hbs Hcrs Htr Hdrv Hw Hh
    Hshape.
  simpl. repeat split; assumption || apply Hlen; assumption.
Qed.

Lemma count_cached s :
  Base._count s <> 0 -> Base.count s = (Ok (Base._count s), s).
Proof.
  intros H. unfold Base.count, bind, get, ret.
  apply Z.eqb_neq in H. rewrite H. reflexivity.
Qed.

Lemma dtypes_cached s :
  Base._dtypes s <> [] -> dtypes s = (Ok (Base._dtypes s), s).
Proof.
  intros H. unfold Base.dtypes, bind, get, ret.
  destruct (Base._dtypes s) eqn:E; [contradiction|].
  cbv beta iota zeta delta [Base.is_nil]. rewrite E. reflexivity.
Qed.

Lemma nodatavals_cached s :
  Base._nodatavals s <> [] ->
  get_nodatavals s = (Ok (Base._nodatavals s), s).
Proof.
  intros H. unfold Base.get_nodatavals, bind, get, ret.
  destruct (Base._nodatavals s) eqn:E; [contradiction|].
  cbv beta iota zeta delta [Base.is_nil]. rewrite E. reflexivity.
Qed.

Lemma get_crs_read s :
  Base._read s = true -> get_crs s = (Ok (Base._crs s), s).
Proof.
  intros H. unfold Base.get_crs, bind, get, ret. rewrite H. reflexivity.
Qed.

Lemma get_transform_read s :
  Base._read s = true ->
  Base.get_transform s = (Ok (Base._transform s), s).
Proof.
  intros H. unfold Base.get_transform, bind, get, ret. rewrite H.
  reflexivity.
Qed.

Lemma nonempty_length {A} (l : list A) n :
  List.length l = Z.to_nat n -> 0 < n -> l <> [].
Proof. intros H Hn ->. simpl in H. lia. Qed.

(** X11: the metadata read by [start] survives [close].  After a
    successful [start] followed by [close] the handle is released and the
    dataset is marked closed, and [crs] and [transform] still answer what
    they answered before, without a handle.  When the dataset has a band,
    so do [count], [dtypes] and [nodatavals]; when it has none, [count]
    raises the closed-file error. *)
Theorem metadata_survives_close (path : string) (s' : Base.DatasetBase) :
  start (Base.init path) = (Ok tt, s') ->
  let s'' := snd (Base.close s') in
  Base._hds s'' = None /\ Base._closed s'' = true
  /\ get_crs s'' = (Ok (Base._crs s'), s'')
  /\ Base.get_transform s'' = (Ok (Base._transform s'), s'')
  /\ exists ds,
       GDALOpen (vsi_path path) = inl ds
       /\ (ds_bands ds <> [] ->
           Base.count s'' = (Ok (GDALGetRasterCount ds), s'')
           /\ dtypes s'' = (Ok (Base._dtypes s'), s'')
           /\ List.length (Base._dtypes s') = List.length (ds_bands ds)
           /\ get_nodatavals s'' = (Ok (Base._nodatavals s'), s'')
           /\ List.length (Base._nodatavals s') = List.length (ds_bands ds))
       /\ (ds_bands ds = [] ->
           Base.count s''
           = (Raise (ValueError "Can't read closed raster file"), s'')).
Proof.
  intros H.
  destruct (start_ok_state path s' H)
    as (ds & Hopen & Hh & Hc & Hr & Hcl & Hlen).
  cbv zeta.
  change (snd (Base.close s'))
    with (Base.set__closed true (Base.set__hds None s')).
  set (s'' := Base.set__closed true (Base.set__hds None s')).
  split; [reflexivity|]. split; [reflexivity|].
  change (Base._crs s') with (Base._crs s'').
  change (Base._transform s') with (Base._transform s'').
  change (Base._dtypes s') with (Base._dtypes s'').
  change (Base._nodatavals s') with (Base._nodatavals s'').
  split; [apply get_crs_read; exact Hr|].
  split; [apply get_transform_read; exact Hr|].
  exists ds. split; [exact Hopen|]. split.
  - intros Hne.
    assert (Hn0 : 0 < GDALGetRasterCount ds).
    { unfold GDALGetRasterCount. destruct (ds_bands ds); [contradiction|].
      simpl. lia. }
    destruct (Hlen ltac:(lia)) as [L1 L2].
    assert (Ec : Base._count s'' = GDALGetRasterCount ds) by exact Hc.
    split; [rewrite <- Ec; apply count_cached; rewrite Ec; lia|].
    split; [apply (dtypes_cached s''); exact (nonempty_length _ _ L1 Hn0)|].
    split; [change (Base._dtypes s'') with (Base._dtypes s'); rewrite L1;
            unfold GDALGetRasterCount; apply Nat2Z.id|].
    split; [apply (nodatavals_cached s'');
            exact (nonempty_length _ _ L2 Hn0)|].
    change (Base._nodatavals s'') with (Base._nodatavals s'). rewrite L2.
    unfold GDALGetRasterCount. apply Nat2Z.id.
  - intros He.
    unfold Base.count, bind, get.
    assert (Ec : Base._count s'' = 0)
      by (change (Base._count s'') with (Base._count s'); rewrite Hc;
          unfold GDALGetRasterCount; rewrite He; reflexivity).
    rewrite Ec. reflexivity.
Qed.

(** X12: a [start] that fails after the engine opened the path keeps the
    handle.  When the projection of the dataset cannot be parsed,
    [start] raises the error of the parser; the dataset then holds the
    handle while it is still marked closed, and [close] releases it. *)
Theorem start_parse_failure_keeps_handle
    (path wkt proj : string) (ds : gdal_dataset) (osr : OGRSpatialReferenceH)
    (e : exn) :
  GDALOpen (vsi_path path) = inl ds ->
  ds_projection ds = Some wkt ->
  (0 <? Z.of_nat (String.length wkt)) = true ->
  OSRNewSpatialReference wkt = Some osr ->
  OSRAutoIdentifyEPSG osr <> 0 ->
  OSRExportToProj4 osr = Some proj ->
  parse_proj4 proj [] = Raise e ->
  exists s',
    start (Base.init path) = (Raise e, s')
    /\ Base._hds s' = Some ds /\ Base._closed s' = true
    /\ Base._hds (snd (Base.close s')) = None.
Proof.
  intros Hopen Hp Hlen Hnew Hid Hexp Hparse.
  eexists. split.
  - unfold Base.start. unfold bind at 1. unfold get at 1.
    change (Base.name (Base.init path)) with path. rewrite Hopen.
    unfold bind, modify, Base.read_transform, get, ret. simpl.
    unfold Base.read_crs, bind, get, raise, lift, ret. simpl.
    rewrite Hp, Hlen, Hnew.
    apply Z.eqb_neq in Hid. rewrite Hid, Hexp, Hparse. reflexivity.
  - simpl. repeat split.
Qed.

End BaseAfterStart.

Lemma metadata_survives_close_witness :
  let s'' := snd (Base.close example_started) in
  Base._hds s'' = None /\ Base._closed s'' = true
  /\ Base.get_crs string (fun wkt => Some wkt) (fun _ => 0) (fun _ => "4326")
       (fun _ => None) s'' = (Ok (Base._crs example_started), s'')
  /\ Base.get_transform s'' = (Ok (Base._transform example_started), s'')
  /\ exists ds,
       (inl example_ds : gdal_dataset + Z * string) = inl ds
       /\ (ds_bands ds <> [] ->
           Base.count s'' = (Ok (GDALGetRasterCount ds), s'')
           /\ Base.dtypes example_dtype_fwd s''
              = (Ok (Base._dtypes example_started), s'')
           /\ List.length (Base._dtypes example_started)
              = List.length (ds_bands ds)
           /\ Base.get_nodatavals example_dtype_fwd example_dtype_ranges s''
              = (Ok (Base._nodatavals example_started), s'')
           /\ List.length (Base._nodatavals example_started)
              = List.length (ds_bands ds))
       /\ (ds_bands ds = [] ->
           Base.count s''
           = (Raise (ValueError "Can't read closed raster file"), s'')).
Proof.
  apply (metadata_survives_close example_dtype_fwd example_dtype_ranges
           (fun path => path) (fun _ => inl example_ds)
           string (fun wkt => Some wkt) (fun _ => 0) (fun _ => "4326")
           (fun _ => None) "example.tif" example_started).
  vm_compute. reflexivity.
Defined.


Lemma start_parse_failure_keeps_handle_witness :
  exists s',
    Base.start example_dtype_fwd example_dtype_ranges (fun path => path)
               (fun _ => inl example_ds)
               string (fun wkt => Some wkt) (fun _ => 1) (fun _ => "")
               (fun _ => Some "+proj=a=b") (Base.init "example.tif")
    = (Raise (ValueError "Unexpected proj parameter +proj=a=b"), s')
    /\ Base._hds s' = Some example_ds /\ Base._closed s' = true
    /\ Base._hds (snd (Base.close s')) = None.
Proof.
  apply (start_parse_failure_keeps_handle example_dtype_fwd
           example_dtype_ranges (fun path => path) (fun _ => inl example_ds)
           string (fun wkt => Some wkt) (fun _ => 1) (fun _ => "")
           (fun _ => Some "+proj=a=b") "example.tif" "GEOGCS[...]"
           "+proj=a=b" example_ds "GEOGCS[...]");
    try reflexivity. discriminate.
Defined.

(** ** Reading and writing bands, continued *)

Lemma contains_range_false n bidx :
  ~ (1 <= bidx <= n) ->
  Io.contains (map (fun i => i + 1) (range n)) bidx = false.
Proof.
  intros H. unfold Io.contains.
  destruct (existsb (Z.eqb bidx) (map (fun i => i + 1) (range n))) eqn:E;
    [|reflexivity].
  exfalso. apply H. apply existsb_exists in E.
  destruct E as (x & Hin & Hx). apply Z.eqb_eq in Hx. subst x.
  apply in_map_iff in Hin. destruct Hin as (i & <- & Hin).
  unfold range in Hin. apply in_map_iff in Hin.
  destruct Hin as (j & <- & Hj). apply in_seq in Hj. lia.
Qed.

Lemma contains_index_of l bidx :
  Io.contains l bidx = true -> exists i, Io.index_of l bidx = Ok i.
Proof.
  unfold Io.contains. induction l as [|y l IH]; simpl; [discriminate|].
  rewrite Z.eqb_sym. destruct (y =? bidx).
  - intros _. exists 0. reflexivity.
  - simpl. intros H. destruct (IH H) as (i & ->). exists (i + 1). reflexivity.
Qed.

Section ReaderCalls.

Variable dtype_fwd : Z -> option dtype.
Variable GDALRasterIO :
  gdal_band -> Z -> Z -> Z -> Z -> Z -> Io.ndarray -> Z
  -> Z * gdal_band * Io.ndarray.

Local Abbreviation read_band := (Io.read_band dtype_fwd GDALRasterIO).
Local Abbreviation write_band := (Io.write_band dtype_fwd GDALRasterIO).

(** X13: a band index outside 1..count is refused first.  On an open
    reader both [read_band] and [write_band] raise [IndexError] for it,
    whatever the buffer and the window, and nothing changes. *)
Theorem band_index_out_of_range
    (ds : gdal_dataset) (w : Io.world) (bidx : Z) (buffer : option nat)
    (window : pyobj) :
  coherent dtype_fwd ds (Io.obj w) ->
  ~ (1 <= bidx <= GDALGetRasterCount ds) ->
  read_band bidx buffer window w
  = (Raise (IndexError "band index out of range"), w)
  /\ write_band bidx buffer window w
     = (Raise (IndexError "band index out of range"), w).
Proof.
  intros Hco Hb.
  pose proof (reader_indexes dtype_fwd ds w Hco) as Hidx.
  pose proof (contains_range_false _ _ Hb) as Hc.
  split.
  - unfold Io.read_band. rewrite (bind_ok _ _ _ _ _ Hidx). rewrite Hc.
    reflexivity.
  - unfold Io.write_band. rewrite (bind_ok _ _ _ _ _ Hidx). rewrite Hc.
    reflexivity.
Qed.

(** X14: a reader without a handle never transfers.  Whatever the band
    index, the buffer and the window, [read_band] and [write_band] raise
    the same error, one of the two closed-file errors or the band-index
    error, and nothing changes. *)
Theorem closed_reader_never_transfers
    (w : Io.world) (bidx : Z) (buffer : option nat) (window : pyobj) :
  Io._hds (Io.obj w) = None ->
  exists e,
    read_band bidx buffer window w = (Raise e, w)
    /\ write_band bidx buffer window w = (Raise e, w)
    /\ (e = ValueError "Can't read closed raster file"
        \/ e = IndexError "band index out of range"
        \/ e = ValueError "can't read closed raster file").
Proof.
  intros Hh.
  destruct (Z.eq_dec (Io._count (Io.obj w)) 0) as [E0|Hc].
  - exists (ValueError "Can't read closed raster file").
    assert (Hcount : Io.count w
                     = (Raise (ValueError "Can't read closed raster file"), w)).
    { unfold Io.count, Io.self_, bind, get, ret. cbv beta iota zeta.
      rewrite E0, Hh. reflexivity. }
    assert (Hidx : Io.indexes w
                   = (Raise (ValueError "Can't read closed raster file"), w)).
    { unfold Io.indexes. rewrite (bind_raise _ _ _ _ _ Hcount). reflexivity. }
    split; [|split; [|left; reflexivity]].
    + unfold Io.read_band. apply (bind_raise _ _ _ _ _ Hidx).
    + unfold Io.write_band. apply (bind_raise _ _ _ _ _ Hidx).
  - assert (Hcount : Io.count w = (Ok (Io._count (Io.obj w)), w)).
    { unfold Io.count, Io.self_, bind, get, ret. cbv beta iota zeta.
      apply Z.eqb_neq in Hc. rewrite Hc. reflexivity. }
    assert (Hidx : Io.indexes w
                   = (Ok (map (fun i => i + 1)
                              (range (Io._count (Io.obj w)))), w)).
    { unfold Io.indexes. rewrite (bind_ok _ _ _ _ _ Hcount). reflexivity. }
    assert (Hself : Io.self_ w = (Ok (Io.obj w), w)) by reflexivity.
    destruct (Io.contains (map (fun i => i + 1)
                               (range (Io._count (Io.obj w)))) bidx) eqn:Hin.
    + exists (ValueError "can't read closed raster file").
      destruct (contains_index_of _ _ Hin) as (i & Hi).
      split; [|split; [|right; right; reflexivity]].
      * unfold Io.read_band.
        rewrite (bind_ok _ _ _ _ _ Hidx). rewrite Hin.
        change (negb true) with false. cbv iota.
        rewrite (bind_ok _ _ _ _ _ Hidx).
        unfold bind at 1. unfold lift at 1. rewrite Hi. cbv beta iota.
        rewrite (bind_ok _ _ _ _ _ Hself). rewrite Hh. reflexivity.
      * unfold Io.write_band.
        rewrite (bind_ok _ _ _ _ _ Hidx). rewrite Hin.
        change (negb true) with false. cbv iota.
        rewrite (bind_ok _ _ _ _ _ Hidx).
        unfold bind at 1. unfold lift at 1. rewrite Hi. cbv beta iota.
        rewrite (bind_ok _ _ _ _ _ Hself). rewrite Hh. reflexivity.
    + exists (IndexError "band index out of range").
      split; [|split; [|right; left; reflexivity]].
      * unfold Io.read_band. rewrite (bind_ok _ _ _ _ _ Hidx). rewrite Hin.
        reflexivity.
      * unfold Io.write_band. rewrite (bind_ok _ _ _ _ _ Hidx). rewrite Hin.
        reflexivity.
Qed.

End ReaderCalls.

Lemma band_index_out_of_range_witness :
  Io.read_band example_dtype_fwd idle_raster_io 2 None PyNone example_world
  = (Raise (IndexError "band index out of range"), example_world)
  /\ Io.write_band example_dtype_fwd idle_raster_io 2 None PyNone
                   example_world
     = (Raise (IndexError "band index out of range"), example_world).
Proof.
  apply (band_index_out_of_range example_dtype_fwd idle_raster_io example_ds
           example_world 2 None PyNone).
  - unfold coherent. simpl. repeat split.
    + intros b [<-|[]]. discriminate.
    + left. reflexivity.
  - vm_compute. intros [_ H]. apply H. reflexivity.
Defined.

Lemma closed_reader_never_transfers_witness :
  exists e,
    Io.read_band example_dtype_fwd idle_raster_io 1 None PyNone
                 (Io.mkWorld (Io.init "example.tif") [] [])
    = (Raise e, Io.mkWorld (Io.init "example.tif") [] [])
    /\ Io.write_band example_dtype_fwd idle_raster_io 1 None PyNone
                     (Io.mkWorld (Io.init "example.tif") [] [])
       = (Raise e, Io.mkWorld (Io.init "example.tif") [] [])
    /\ (e = ValueError "Can't read closed raster file"
        \/ e = IndexError "band index out of range"
        \/ e = ValueError "can't read closed raster file").
Proof.
  apply (closed_reader_never_transfers example_dtype_fwd idle_raster_io
           (Io.mkWorld (Io.init "example.tif") [] []) 1 None PyNone).
  reflexivity.
Defined.

(** ** Transfers *)

Section ReaderTransfers.

Variable dtype_fwd : Z -> option dtype.
Variable GDALRasterIO :
  gdal_band -> Z -> Z -> Z -> Z -> Z -> Io.ndarray -> Z
  -> Z * gdal_band * Io.ndarray.
Variable ds : gdal_dataset.

Local Abbreviation read_band := (Io.read_band dtype_fwd GDALRasterIO).
Local Abbreviation write_band := (Io.write_band dtype_fwd GDALRasterIO).

Lemma dispatch_run d code bidx mode xoff yoff width height buffer :
  gdal_type_code d = Some code ->
  Io.dispatch GDALRasterIO d bidx mode xoff yoff width height buffer
  = Io.io GDALRasterIO d code bidx mode xoff yoff width height buffer.
Proof.
  destruct d; simpl; intros H; try discriminate; injection H as <-;
    reflexivity.
Qed.

Lemma io_run elem etype bidx mode xoff yoff width height ref w b a rows cols :
  is_int xoff -> is_int yoff -> is_int width -> is_int height ->
  nth_error (Io.arrays w) ref = Some a ->
  Io.arr_dtype a = elem ->
  Io.arr_shape a = [rows; cols] -> 0 < rows -> 0 < cols ->
  Io._hds (Io.obj w) = Some ds ->
  fst (GDALGetRasterBand (Some ds) bidx) = Some b ->
  Io.io GDALRasterIO elem etype bidx mode (PyInt xoff) (PyInt yoff)
        (PyInt width) (PyInt height) (Some ref) w
  = (Ok (fst (fst (GDALRasterIO b mode xoff yoff width height a etype))),
     Io.mkWorld
       (Io.set__hds
          (Some (Io.set_band ds bidx
                   (snd (fst (GDALRasterIO b mode xoff yoff width height
                                           a etype)))))
          (Io.obj w))
       (Io.list_set (Io.arrays w) ref
          (snd (GDALRasterIO b mode xoff yoff width height a etype)))
       (Io.dispatched w
        ++ [Io.mkCall bidx mode xoff yoff width height ref etype])%list).
Proof.
  intros Ix Iy Iw Ih Ha Hd Hs Hr Hc Hh Hb.
  unfold Io.io.
  unfold bind at 1. unfold lift at 1. rewrite (as_int_ok _ Ix). cbv beta iota.
  unfold bind at 1. unfold lift at 1. rewrite (as_int_ok _ Iy). cbv beta iota.
  unfold bind at 1. unfold lift at 1. rewrite (as_int_ok _ Iw). cbv beta iota.
  unfold bind at 1. unfold lift at 1. rewrite (as_int_ok _ Ih). cbv beta iota.
  unfold bind at 1. unfold get at 1. cbv beta iota.
  rewrite Ha. rewrite Hd.
  assert (E : dtype_eqb elem elem = true) by (apply dtype_eqb_eq; reflexivity).
  rewrite E. change (negb true) with false. cbv iota.
  rewrite Hs.
  assert (E1 : (rows <=? 0) = false) by (apply Z.leb_gt; lia).
  assert (E2 : (cols <=? 0) = false) by (apply Z.leb_gt; lia).
  rewrite E1, E2. cbv beta iota delta [orb].
  rewrite Hh. rewrite Hb.
  destruct (GDALRasterIO b mode xoff yoff width height a etype)
    as [[retval b'] a'].
  reflexivity.
Qed.

Lemma bind_ret {S A B} (x : A) (k : A -> M S B) s : bind (ret x) k s = k x s.
Proof. reflexivity. Qed.

Lemma bind_lift_ok {S A B} (r : result A) (k : A -> M S B) s a :
  r = Ok a -> bind (lift r) k s = k a s.
Proof. intros ->. reflexivity. Qed.

Lemma list_set_new {A} (l : list A) (x y : A) :
  Io.list_set (l ++ [x])%list (List.length l) y = (l ++ [y])%list.
Proof. induction l as [|z l IH]; simpl; [reflexivity | rewrite IH; reflexivity]. Qed.

Lemma band_of_index bidx b :
  1 <= bidx ->
  nth_error (ds_bands ds) (Z.to_nat (bidx - 1)) = Some b ->
  fst (GDALGetRasterBand (Some ds) bidx) = Some b.
Proof.
  intros Hb Hn. unfold GDALGetRasterBand.
  assert (E : (bidx <? 1) = false) by (apply Z.ltb_ge; lia).
  rewrite E, Hn. reflexivity.
Qed.

Lemma transfer_extent_of_window w h wd rs re cs ce :
  Io.height (Io.obj w) = Some h -> Io.width (Io.obj w) = Some wd ->
  is_int h -> is_int wd ->
  is_int rs -> is_int re -> is_int cs -> is_int ce ->
  0 <= rs < re -> 0 <= cs < ce ->
  Io.transfer_extent (int_window rs re cs ce) w
  = (Ok (PyInt cs, PyInt rs, PyInt (ce - cs), PyInt (re - rs)), w).
Proof.
  intros Hh Hw Ih Iw Irs Ire Ics Ice Hr Hc.
  unfold Io.transfer_extent.
  change (truthy (int_window rs re cs ce)) with true. cbv iota.
  unfold Io.eval_in_extent, Io.self_, bind, get, ret, lift.
  cbv beta iota zeta. rewrite Hh, Hw. unfold Io.opt_int.
  rewrite (as_int_ok _ Ih), (as_int_ok _ Iw).
  rewrite Io_eval_window_fixed by (assumption || lia).
  reflexivity.
Qed.

(** X15: reading a window into a new array.  On an open reader, for a
    band in range whose type is one of the seven of the dispatch chain and
    a window of C ints with [0 <= start < stop] on both axes, [read_band]
    without an output array makes a zero array of the shape of the window
    and of the type of the band, hands it to the engine in one read call
    at the offsets and sizes of the window, and returns it.  The window
    is not compared with the extent of the dataset. *)
Theorem read_band_allocates_window_shape
    (w : Io.world) (bidx : Z) (b : gdal_band) (d : dtype) (code : Z)
    (h wd rs re cs ce : Z) :
  coherent dtype_fwd ds (Io.obj w) ->
  1 <= bidx ->
  nth_error (ds_bands ds) (Z.to_nat (bidx - 1)) = Some b ->
  dtype_fwd (band_datatype b) = Some d ->
  gdal_type_code d = Some code ->
  Io.height (Io.obj w) = Some h -> Io.width (Io.obj w) = Some wd ->
  is_int h -> is_int wd -> is_int re -> is_int ce ->
  0 <= rs < re -> 0 <= cs < ce ->
  exists w',
    read_band bidx None (int_window rs re cs ce) w
    = (Ok (List.length (Io.arrays w)), w')
    /\ Io.arrays w'
       = (Io.arrays w
          ++ [snd (GDALRasterIO b 0 cs rs (ce - cs) (re - rs)
                                (Io.zeros (re - rs, ce - cs) d) code)])%list
    /\ Io.dispatched w'
       = (Io.dispatched w
          ++ [Io.mkCall bidx 0 cs rs (ce - cs) (re - rs)
                        (List.length (Io.arrays w)) code])%list.
Proof.
  intros Hco Hb Hn Hd Hcode Hh Hw Ih Iw Ire Ice Hr Hc.
  assert (Irs : is_int rs)
    by (apply (is_int_between 0 re); [apply is_int_0 | assumption | lia]).
  assert (Ics : is_int cs)
    by (apply (is_int_between 0 ce); [apply is_int_0 | assumption | lia]).
  assert (Idr : is_int (re - rs))
    by (apply (is_int_between 0 re); [apply is_int_0 | assumption | lia]).
  assert (Idc : is_int (ce - cs))
    by (apply (is_int_between 0 ce); [apply is_int_0 | assumption | lia]).
  destruct (reader_prelude dtype_fwd ds w bidx b Hco Hb Hn) as (Hidx & Hin & Hi).
  destruct (reader_dtypes dtype_fwd ds w Hco) as (dts & Hdts & Hrun).
  assert (Hitem : list_item dts (bidx - 1) = Ok d).
  { unfold list_item.
    assert (E : (bidx - 1 <? 0) = false) by (apply Z.ltb_ge; lia).
    rewrite E, (nth_error_resolved dtype_fwd ds dts _ b d Hdts Hn Hd).
    reflexivity. }
  assert (Hself : Io.self_ w = (Ok (Io.obj w), w)) by reflexivity.
  pose proof (band_of_index bidx b Hb Hn) as Hband.
  destruct Hco as (Hds & _).
  set (w1 := Io.on_obj (Io.set__dtypes dts) w) in *.
  set (z := Io.zeros (re - rs, ce - cs) d).
  set (w2 := Io.mkWorld (Io.obj w1) (Io.arrays w1 ++ [z])%list
                        (Io.dispatched w1)).
  assert (Hext : Io.transfer_extent (int_window rs re cs ce) w2
                 = (Ok (PyInt cs, PyInt rs, PyInt (ce - cs), PyInt (re - rs)),
                    w2)).
  { apply (transfer_extent_of_window w2 h wd); assumption. }
  assert (Hio := io_run d code bidx 0 cs rs (ce - cs) (re - rs)
                   (List.length (Io.arrays w)) w2 b z (re - rs) (ce - cs)
                   Ics Irs Idc Idr).
  eexists. split; [|split].
  - unfold Io.read_band.
    rewrite (bind_ok _ _ _ _ _ Hidx). rewrite Hin.
    change (negb true) with false. cbv iota.
    rewrite (bind_ok _ _ _ _ _ Hidx).
    rewrite (bind_lift_ok _ _ _ _ Hi).
    rewrite (bind_ok _ _ _ _ _ Hself). rewrite Hds.
    rewrite bind_ret.
    rewrite (bind_ok _ _ _ _ _ Hself). rewrite Hds, Hband.
    rewrite (bind_ok _ _ _ _ _ Hrun). fold w1.
    rewrite (bind_lift_ok _ _ _ _ Hitem).
    change (truthy (int_window rs re cs ce)) with true. cbv iota.
    erewrite bind_ok.
    2:{ erewrite bind_ok.
        2:{ unfold Io.self_, bind, get, ret, lift. cbv beta iota zeta.
            change (Io.height (Io.obj w1)) with (Io.height (Io.obj w)).
            change (Io.width (Io.obj w1)) with (Io.width (Io.obj w)).
            rewrite Hh, Hw. unfold Io.opt_int.
            rewrite (as_int_ok _ Ih), (as_int_ok _ Iw).
            unfold Io.window_shape.
            rewrite Io_eval_window_fixed by (assumption || lia).
            reflexivity. }
        unfold bind, get, modify, ret. cbv beta iota zeta. reflexivity. }
    change (Io.mkWorld (Io.obj w1) (Io.arrays w ++ [z])%list
                       (Io.dispatched w1)) with w2.
    rewrite (bind_ok _ _ _ _ _ Hext). cbv beta iota zeta.
    rewrite (dispatch_run d code) by exact Hcode.
    erewrite bind_ok.
    2:{ apply Hio.
        - subst w2 w1. simpl. rewrite nth_error_app2 by lia.
          rewrite Nat.sub_diag. reflexivity.
        - reflexivity.
        - reflexivity.
        - lia.
        - lia.
        - exact Hds.
        - exact Hband. }
    reflexivity.
  - cbv beta iota zeta delta [Io.arrays]. subst w2 w1. simpl.
    apply list_set_new.
  - reflexivity.
Qed.
Lemma reader_dtypes_cached w d0 rest :
  Io._dtypes (Io.obj w) = d0 :: rest ->
  Io.dtypes dtype_fwd w = (Ok (d0 :: rest), w).
Proof.
  intros E. unfold Io.dtypes, Io.self_, bind, get, ret.
  cbv beta iota zeta. rewrite E. cbv beta iota zeta delta [Io.is_nil].
  rewrite E. reflexivity.
Qed.


End ReaderTransfers.

Lemma read_band_allocates_window_shape_witness :
  exists w',
    Io.read_band example_dtype_fwd idle_raster_io 1 None (int_window 1 3 2 5)
                 example_world
    = (Ok 1%nat, w')
    /\ Io.arrays w'
       = [Io.zeros (5, 7) float64; Io.zeros (2, 3) ubyte]
    /\ Io.dispatched w' = [Io.mkCall 1 0 2 1 3 2 1%nat 1].
Proof.
  apply (read_band_allocates_window_shape example_dtype_fwd idle_raster_io
           example_ds example_world 1 example_band ubyte 1 5 7 1 3 2 5);
    try reflexivity; try lia; try (unfold is_int, INT_MIN, INT_MAX; lia).
  unfold coherent. simpl. repeat split.
  - intros b [<-|[]]. discriminate.
  - left. reflexivity.
Defined.


(** ** The transform and the CRS of an updater *)


Section UpdaterCrs.

Variable OGRSpatialReferenceH : Type.
Variable OSRNewSpatialReference : option string -> option OGRSpatialReferenceH.
Variable OSRExportToProj4 : OGRSpatialReferenceH -> option string.
Variable str_of_float : pyfloat -> string.
Variable OSRImportFromProj4 : string -> option string.

Local Abbreviation get_crs :=
  (Io.get_crs OGRSpatialReferenceH OSRNewSpatialReference OSRExportToProj4).
Local Abbreviation write_crs := (Io.write_crs str_of_float OSRImportFromProj4).

(** X18: the CRS of an updater.  After [write_crs] of a mapping that is
    not empty, [get_crs] returns that mapping without asking the engine,
    the projection of the native dataset is what the engine made of the
    string of the mapping, and its bands and transform are as before. *)
Theorem write_crs_then_get_crs
    (w : Io.world) (ds : gdal_dataset) (c : crs) :
  Io._hds (Io.obj w) = Some ds ->
  c <> [] ->
  exists w',
    write_crs c w = (Ok tt, w')
    /\ get_crs w' = (Ok (Some c), w')
    /\ Io._hds (Io.obj w')
       = Some (mkDataset (ds_driver ds) (ds_xsize ds) (ds_ysize ds)
                 (ds_bands ds) (ds_geotransform ds)
                 (OSRImportFromProj4 (write_crs_proj4 str_of_float c)))
    /\ Io.arrays w' = Io.arrays w
    /\ Io.dispatched w' = Io.dispatched w.
Proof.
  intros Hh Hc. destruct c as [|kv rest]; [contradiction|].
  eexists. split; [|split; [|split; [|split]]].
  - unfold Io.write_crs, Io.self_, Io.assign, bind, get, ret, modify.
    cbv beta iota zeta. rewrite Hh. reflexivity.
  - reflexivity.
  - reflexivity.
  - reflexivity.
  - reflexivity.
Qed.

End UpdaterCrs.


Lemma write_crs_then_get_crs_witness :
  exists w',
    Io.write_crs (fun _ => "") (fun proj => Some proj) longlat_crs
                 example_world
    = (Ok tt, w')
    /\ Io.get_crs string (fun wkt => wkt) (fun wkt => Some wkt) w'
       = (Ok (Some longlat_crs), w')
    /\ Io._hds (Io.obj w')
       = Some (mkDataset "GTiff" 7 5 [example_band]
                 [0%Q; 1%Q; 0%Q; 5%Q; 0%Q; (-1)%Q]
                 (Some "+proj=longlat +datum=WGS84 +no_defs"))
    /\ Io.arrays w' = Io.arrays example_world
    /\ Io.dispatched w' = Io.dispatched example_world.
Proof.
  apply (write_crs_then_get_crs string (fun wkt => wkt) (fun wkt => Some wkt)
           (fun _ => "") (fun proj => Some proj) example_world example_ds
           longlat_crs).
  - reflexivity.
  - discriminate.
Defined.

(** ** PROJ.4 strings, continued *)

Lemma string_app_assoc (a b c : string) : (a ++ b) ++ c = a ++ (b ++ c).
Proof. induction a as [|x a IH]; simpl; [reflexivity | rewrite IH; reflexivity]. Qed.

Lemma string_app_nil_r (a : string) : a ++ "" = a.
Proof. induction a as [|x a IH]; simpl; [reflexivity | rewrite IH; reflexivity]. Qed.

Lemma string_forallb_app p a b :
  string_forallb p (a ++ b) = string_forallb p a && string_forallb p b.
Proof.
  induction a as [|x a IH]; simpl; [reflexivity|].
  rewrite IH, andb_assoc. reflexivity.
Qed.

Lemma string_forallb_impl (p q : ascii -> bool) s :
  (forall c, p c = true -> q c = true) ->
  string_forallb p s = true -> string_forallb q s = true.
Proof.
  intros Hpq. induction s as [|x s IH]; simpl; [reflexivity|].
  intros H. apply andb_prop in H. destruct H as [H1 H2].
  rewrite (Hpq x H1), (IH H2). reflexivity.
Qed.

Lemma split_on_free sep t :
  string_forallb (fun c => negb (sep c)) t = true ->
  forall s cur, split_on sep (t ++ s) cur = split_on sep s (cur ++ t).
Proof.
  induction t as [|x t IH]; simpl; intros H s cur.
  - rewrite string_app_nil_r. reflexivity.
  - apply andb_prop in H. destruct H as [H1 H2].
    apply negb_true_iff in H1. rewrite H1.
    rewrite (IH H2). rewrite string_app_assoc. reflexivity.
Qed.

Lemma split_on_free_end sep t cur :
  string_forallb (fun c => negb (sep c)) t = true ->
  split_on sep t cur = [cur ++ t].
Proof.
  intros H. rewrite <- (string_app_nil_r t) at 1.
  rewrite (split_on_free sep t H). reflexivity.
Qed.

Lemma split_on_join tokens :
  Forall (fun t => space_free t = true) tokens ->
  tokens <> [] ->
  split_on is_space (join_space tokens) "" = tokens.
Proof.
  induction tokens as [|x rest IH]; intros HF Hne; [contradiction|].
  inversion HF as [|? ? Hx Hrest]; subst.
  destruct rest as [|y rest'].
  - simpl. apply (split_on_free_end is_space x "" Hx).
  - change (join_space (x :: y :: rest'))
      with (x ++ String " "%char (join_space (y :: rest'))).
    rewrite (split_on_free is_space x Hx).
    change (split_on is_space
              (String " "%char (join_space (y :: rest'))) ("" ++ x))
      with (x :: split_on is_space (join_space (y :: rest')) "").
    rewrite IH; [reflexivity | exact Hrest | discriminate].
Qed.

Lemma lstrip_id s :
  match s with String c _ => is_space c = false | EmptyString => True end ->
  lstrip s = s.
Proof. destruct s as [|c s]; simpl; [reflexivity|]. intros ->. reflexivity. Qed.

Lemma rstrip_free t : space_free t = true -> rstrip t = t.
Proof.
  induction t as [|c t IH]; simpl; [reflexivity|].
  intros H. apply andb_prop in H. destruct H as [H1 H2].
  apply negb_true_iff in H1. rewrite (IH H2).
  destruct t; [rewrite H1|]; reflexivity.
Qed.

Lemma rstrip_app a t :
  nonempty t = true -> space_free t = true -> rstrip (a ++ t) = a ++ t.
Proof.
  intros Hn Hf. induction a as [|c a IH]; simpl.
  - apply rstrip_free. exact Hf.
  - rewrite IH. destruct (a ++ t) eqn:E; [|reflexivity].
    destruct a; simpl in E; [subst t|]; discriminate.
Qed.

Lemma join_space_last tokens :
  tokens <> [] -> exists a, join_space tokens = a ++ last tokens "".
Proof.
  induction tokens as [|x rest IH]; intros Hne; [contradiction|].
  destruct rest as [|y rest'].
  - exists "". reflexivity.
  - destruct IH as (a & Ha); [discriminate|].
    exists (x ++ String " "%char a).
    change (join_space (x :: y :: rest'))
      with (x ++ String " "%char (join_space (y :: rest'))).
    rewrite Ha. rewrite string_app_assoc. reflexivity.
Qed.

Lemma last_in {A} (l : list A) (d : A) : l <> [] -> In (last l d) l.
Proof.
  induction l as [|x l IH]; intros H; [contradiction|].
  destruct l as [|y l']; [left; reflexivity|].
  right. apply IH. discriminate.
Qed.

Lemma split_strip_join tokens :
  Forall (fun t => space_free t = true /\ nonempty t = true) tokens ->
  split (strip (join_space tokens)) = tokens.
Proof.
  intros HF. destruct tokens as [|x rest]; [reflexivity|].
  assert (Hx0 : space_free x = true /\ nonempty x = true)
    by (inversion HF; assumption).
  set (tokens := x :: rest) in *.
  assert (Hne : tokens <> []) by discriminate.
  assert (Hstrip : strip (join_space tokens) = join_space tokens).
  { unfold strip. rewrite lstrip_id.
    - destruct (join_space_last tokens Hne) as (a & Ha). rewrite Ha.
      pose proof (last_in tokens "" Hne) as Hl.
      rewrite Forall_forall in HF. destruct (HF _ Hl) as [Hf Hn].
      apply rstrip_app; assumption.
    - subst tokens. destruct Hx0 as [Hx Hn].
      destruct x as [|c x]; [discriminate|].
      assert (E : exists r, join_space (String c x :: rest) = String c r).
      { destruct rest; simpl; eexists; reflexivity. }
      destruct E as (r & ->). simpl in Hx.
      apply andb_prop in Hx. destruct Hx as [Hc _].
      apply negb_true_iff in Hc. exact Hc. }
  rewrite Hstrip. unfold split. rewrite split_on_join.
  - apply forallb_filter_id. apply forallb_forall. intros t Ht.
    rewrite Forall_forall in HF. apply (HF t Ht).
  - eapply Forall_impl; [|exact HF]. intros t [H _]. exact H.
  - exact Hne.
Qed.

Section Proj4RoundTrip.

Variable str_of_float : pyfloat -> string.

Local Abbreviation proj4_param := (proj4_param str_of_float).

Lemma write_crs_proj4_params c :
  write_crs_proj4 str_of_float c = join_space (map proj4_param c).
Proof. reflexivity. Qed.

Lemma plain_space_free s : plain s = true -> space_free s = true.
Proof.
  apply string_forallb_impl. intros c H.
  apply andb_prop in H. apply H.
Qed.

Lemma plain_eq_free s :
  plain s = true ->
  string_forallb (fun c => negb (Ascii.eqb "="%char c)) s = true.
Proof.
  apply string_forallb_impl. intros c H.
  apply andb_prop in H. apply H.
Qed.

Lemma lstrip_plus_id k : starts_with_plus k = false -> lstrip_plus k = k.
Proof. destruct k as [|c k]; simpl; [reflexivity|]. intros ->. reflexivity. Qed.

Lemma reads_back_cases k v :
  reads_back (k, v) = true ->
  plain k = true /\ starts_with_plus k = false
  /\ (v = CBool true
      \/ exists s, v = CStr s /\ plain s = true
                   /\ (String.eqb k "no_defs" && nonempty s)%bool = false
                   /\ float_of_string s = None).
Proof.
  unfold reads_back. intros H.
  apply andb_prop in H. destruct H as [H Hv].
  apply andb_prop in H. destruct H as [Hk Hp].
  apply negb_true_iff in Hp. split; [exact Hk|]. split; [exact Hp|].
  destruct v as [s|z|f|[|]]; try discriminate.
  - right. exists s.
    apply andb_prop in Hv. destruct Hv as [Hv Hf].
    apply andb_prop in Hv. destruct Hv as [Hs Hn].
    apply negb_true_iff in Hn.
    destruct (float_of_string s); [discriminate|].
    repeat split; assumption.
  - left. reflexivity.
Qed.

Lemma proj4_param_shape kv :
  reads_back kv = true ->
  space_free (proj4_param kv) = true /\ nonempty (proj4_param kv) = true.
Proof.
  destruct kv as [k v]. intros H.
  destruct (reads_back_cases k v H) as (Hk & _ & [->|(s & -> & Hs & Hn & _)]).
  - simpl. split; [|reflexivity]. apply (plain_space_free k Hk).
  - unfold proj4_param. simpl is_True. simpl value_truthy. rewrite Hn.
    cbv beta iota zeta delta [orb fmt_s].
    change ("+" ++ k ++ "=" ++ s) with (String "+"%char (k ++ String "="%char s)).
    split; [|reflexivity].
    unfold space_free. cbn [string_forallb].
    rewrite string_forallb_app. cbn [string_forallb].
    pose proof (plain_space_free k Hk) as Hk'.
    pose proof (plain_space_free s Hs) as Hs'.
    unfold space_free in Hk', Hs'. rewrite Hk', Hs'. reflexivity.
Qed.

Lemma parse_proj4_param kv :
  reads_back kv = true -> parse_param (proj4_param kv) = Ok kv.
Proof.
  destruct kv as [k v]. intros H.
  destruct (reads_back_cases k v H) as (Hk & Hp & [->|(s & -> & Hs & Hn & Hf)]).
  - unfold proj4_param. simpl is_True. simpl orb. cbv iota.
    unfold parse_param, split_eq.
    rewrite (split_on_free_end (Ascii.eqb "="%char) ("+" ++ k) "").
    + simpl. rewrite (lstrip_plus_id k Hp). reflexivity.
    + simpl. apply (plain_eq_free k Hk).
  - unfold proj4_param. simpl is_True. simpl value_truthy. rewrite Hn.
    simpl orb. cbv iota. simpl fmt_s.
    unfold parse_param, split_eq.
    change ("+" ++ k ++ "=" ++ s) with (String "+"%char k ++ String "="%char s).
    rewrite (split_on_free (Ascii.eqb "="%char) (String "+"%char k)).
    + change (split_on (Ascii.eqb "="%char) (String "="%char s)
                       ("" ++ String "+"%char k))
        with (String "+"%char k :: split_on (Ascii.eqb "="%char) s "").
      rewrite (split_on_free_end (Ascii.eqb "="%char) s "" (plain_eq_free s Hs)).
      simpl. rewrite Hf. rewrite (lstrip_plus_id k Hp). reflexivity.
    + simpl. apply (plain_eq_free k Hk).
Qed.

Lemma dict_set_fresh (d : crs) k v :
  ~ In k (map fst d) -> dict_set d k v = (d ++ [(k, v)])%list.
Proof.
  induction d as [|[k' v'] d IH]; simpl; intros H; [reflexivity|].
  destruct (String.eqb k' k) eqn:E.
  - apply String.eqb_eq in E. exfalso. apply H. left. exact E.
  - rewrite IH; [reflexivity|]. intros Hin. apply H. right. exact Hin.
Qed.

Lemma parse_params_written c :
  forall acc,
    forallb reads_back c = true ->
    NoDup (map fst (acc ++ c)%list) ->
    parse_params (map proj4_param c) acc = Ok (acc ++ c)%list.
Proof.
  induction c as [|[k v] c IH]; intros acc Hr Hnd.
  - simpl. rewrite app_nil_r. reflexivity.
  - simpl in Hr. apply andb_prop in Hr. destruct Hr as [Hkv Hr].
    cbn [map parse_params]. rewrite (parse_proj4_param (k, v) Hkv).
    cbn [rbind fst snd].
    rewrite map_app in Hnd. cbn [map fst] in Hnd.
    rewrite dict_set_fresh.
    + rewrite IH; [rewrite <- app_assoc; reflexivity | exact Hr |].
      rewrite <- app_assoc. rewrite map_app. exact Hnd.
    + apply NoDup_remove_2 in Hnd. intros Hin. apply Hnd.
      apply in_or_app. left. exact Hin.
Qed.


End Proj4RoundTrip.

